(** * web-ssh: the WebSocket message protocol, the connection handlers,
      the simulated shell and the server configuration

    A shallow embedding of the Go backend of Desgue/web-ssh:

    - [handler/message.go]: the wire envelope [Message], its constructors,
      ANSI detection, [ToJSON] and [ParseMessage];
    - [handler/websocket.go]: [Connection.HandleWs], the read loop in front
      of the SSH shell connection;
    - the simulated shell handler ([HandlerDeps.HandleWs], [ShellSession]);
    - [config]: [parseInt], [parseDuration], [NewServer], [Validate],
      [SetDefaults] and [FrontendDir.Build];
    - [server]: [New] and the health endpoint;

    and of the parts of the frontend that meet it on the wire
    ([terminal.js], [app.js]): the key filter, the frames it sends, its
    ANSI detection and the checks on an API key.

    Go strings are byte sequences: they are modelled by [string], whose
    characters are the 256 values of [ascii].  The standard-library calls the
    code relies on ([regexp], [encoding/json], [strconv], [strings], [time])
    are modelled next to the code that uses them. *)

From Stdlib Require Import ZArith Ascii String List Bool Lia.
From stdpp Require Import base tactics option list strings gmap.

Set Warnings "-register-all".
Local Open Scope Z_scope.

(** ** Bytes and strings *)

Module Bytes.

Definition code (c : ascii) : Z := Z.of_N (N_of_ascii c).
Definition chr (z : Z) : ascii := ascii_of_N (Z.to_N z).

Definition between (lo hi : Z) (c : ascii) : bool :=
  (lo <=? code c) && (code c <=? hi).

Definition is_digit (c : ascii) : bool := between 48 57 c.

(** Named control and punctuation bytes (a Rocq literal has no escapes). *)
Definition BS  : ascii := "008"%char.
Definition TAB : ascii := "009"%char.
Definition LF  : ascii := "010"%char.
Definition FF  : ascii := "012"%char.
Definition CR  : ascii := "013"%char.
Definition ESC : ascii := "027"%char.
Definition SP  : ascii := "032"%char.
Definition DQUOTE : ascii := "034"%char.
Definition BSLASH : ascii := "092"%char.
Definition DEL : ascii := "127"%char.

Definition str1 (c : ascii) : string := String c EmptyString.

(** [Forall] on the bytes of a string. *)
Fixpoint all (p : ascii -> bool) (s : string) : bool :=
  match s with
  | EmptyString => true
  | String c s' => p c && all p s'
  end.

End Bytes.
Import Bytes.

(** ** Regular expressions (the fragment of Go's [regexp] the code uses)

    [regexp.MustCompile] parses a pattern into a syntax tree and
    [MatchString] reports whether some substring of the subject is in its
    language.  The tree is [re]; matching is by Brzozowski derivatives.  The
    patterns of the repository are pure ASCII, so matching bytes and matching
    UTF-8 runes agree. *)

Module Regexp.

Inductive re : Type :=
| Void                                   (* no string *)
| Eps                                    (* the empty string *)
| Lit (c : ascii)                        (* one literal byte *)
| Class (ranges : list (ascii * ascii))  (* [a-bc-d...] *)
| Cat (r1 r2 : re)
| Alt (r1 r2 : re)
| Star (r : re).

Definition in_class (ranges : list (ascii * ascii)) (c : ascii) : bool :=
  existsb (fun '(lo, hi) => between (code lo) (code hi) c) ranges.

(** The language of a regular expression. *)
Inductive lang : re -> string -> Prop :=
| L_eps : lang Eps EmptyString
| L_lit c : lang (Lit c) (str1 c)
| L_class rs c : in_class rs c = true -> lang (Class rs) (str1 c)
| L_cat r1 r2 s1 s2 : lang r1 s1 -> lang r2 s2 -> lang (Cat r1 r2) (s1 +:+ s2)
| L_alt_l r1 r2 s : lang r1 s -> lang (Alt r1 r2) s
| L_alt_r r1 r2 s : lang r2 s -> lang (Alt r1 r2) s
| L_star_nil r : lang (Star r) EmptyString
| L_star_cons r s1 s2 :
    lang r s1 -> lang (Star r) s2 -> lang (Star r) (s1 +:+ s2).

Fixpoint nullable (r : re) : bool :=
  match r with
  | Void => false
  | Eps => true
  | Lit _ => false
  | Class _ => false
  | Cat r1 r2 => nullable r1 && nullable r2
  | Alt r1 r2 => nullable r1 || nullable r2
  | Star _ => true
  end.

Fixpoint deriv (c : ascii) (r : re) : re :=
  match r with
  | Void => Void
  | Eps => Void
  | Lit d => if Ascii.eqb c d then Eps else Void
  | Class rs => if in_class rs c then Eps else Void
  | Cat r1 r2 =>
      if nullable r1
      then Alt (Cat (deriv c r1) r2) (deriv c r2)
      else Cat (deriv c r1) r2
  | Alt r1 r2 => Alt (deriv c r1) (deriv c r2)
  | Star r1 => Cat (deriv c r1) (Star r1)
  end.

(** Some prefix of [s] is in the language of [r]. *)
Fixpoint match_prefix (r : re) (s : string) : bool :=
  nullable r ||
  match s with
  | EmptyString => false
  | String c s' => match_prefix (deriv c r) s'
  end.

(** [MatchString]: some substring of [s] is in the language of [r]. *)
Fixpoint MatchString (r : re) (s : string) : bool :=
  match_prefix r s ||
  match s with
  | EmptyString => false
  | String _ s' => MatchString r s'
  end.

End Regexp.

(** ** UTF-8 (Go's [unicode/utf8], as [encoding/json] uses it) *)

Module Utf8.

Definition RuneError : Z := 0xFFFD.

(** The table [first] with its accept ranges: for a lead byte, the length
    of the sequence and the range allowed for the second byte. *)
Definition lead_info (b0 : Z) : option (nat * Z * Z) :=
  if b0 <? 0xC2 then None
  else if b0 <=? 0xDF then Some (2%nat, 0x80, 0xBF)
  else if b0 =? 0xE0 then Some (3%nat, 0xA0, 0xBF)
  else if b0 =? 0xED then Some (3%nat, 0x80, 0x9F)
  else if b0 <=? 0xEF then Some (3%nat, 0x80, 0xBF)
  else if b0 =? 0xF0 then Some (4%nat, 0x90, 0xBF)
  else if b0 <=? 0xF3 then Some (4%nat, 0x80, 0xBF)
  else if b0 =? 0xF4 then Some (4%nat, 0x80, 0x8F)
  else None.

Definition is_cont (b : Z) : bool := (0x80 <=? b) && (b <=? 0xBF).

(** [utf8.DecodeRuneInString]: the first rune of [s] and its width;
    [(RuneError, 1)] on an invalid or truncated sequence. *)
Definition DecodeRuneInString (s : string) : Z * nat :=
  match s with
  | EmptyString => (RuneError, 0%nat)
  | String c0 s1 =>
      let b0 := code c0 in
      if b0 <? 0x80 then (b0, 1%nat)
      else
        match lead_info b0, s1 with
        | Some (sz, lo, hi), String c1 s2 =>
            let b1 := code c1 in
            if (b1 <? lo) || (hi <? b1) then (RuneError, 1%nat)
            else if (sz =? 2)%nat
            then (Z.lor (Z.shiftl (Z.land b0 0x1F) 6) (Z.land b1 0x3F), 2%nat)
            else
              match s2 with
              | String c2 s3 =>
                  let b2 := code c2 in
                  if negb (is_cont b2) then (RuneError, 1%nat)
                  else if (sz =? 3)%nat
                  then (Z.lor (Z.shiftl (Z.land b0 0x0F) 12)
                          (Z.lor (Z.shiftl (Z.land b1 0x3F) 6) (Z.land b2 0x3F)),
                        3%nat)
                  else
                    match s3 with
                    | String c3 _ =>
                        let b3 := code c3 in
                        if negb (is_cont b3) then (RuneError, 1%nat)
                        else (Z.lor (Z.shiftl (Z.land b0 0x07) 18)
                                (Z.lor (Z.shiftl (Z.land b1 0x3F) 12)
                                   (Z.lor (Z.shiftl (Z.land b2 0x3F) 6)
                                      (Z.land b3 0x3F))),
                              4%nat)
                    | EmptyString => (RuneError, 1%nat)
                    end
              | EmptyString => (RuneError, 1%nat)
              end
        | _, _ => (RuneError, 1%nat)
        end
  end.

(** [utf8.RuneStart]: the byte is not a continuation byte. *)
Definition RuneStart (b : Z) : bool := negb (Z.land b 0xC0 =? 0x80).

(** [s[i]] as a number; the index is an [int] of the code. *)
Definition byte (s : string) (i : Z) : Z :=
  match String.get (Z.to_nat i) s with
  | Some c => code c
  | None => 0
  end.

(** The loop of [DecodeLastRuneInString] that steps back from [start]
    as long as [start >= lim] and stops at a byte that can start a rune;
    [lim] is at most three bytes away. *)
Fixpoint back_to_start (steps : nat) (s : string) (start lim : Z) : Z :=
  match steps with
  | O => start
  | S k =>
      if start <? lim then start
      else if RuneStart (byte s start) then start
      else back_to_start k s (start - 1) lim
  end.

(** [utf8.DecodeLastRuneInString]: the last rune of [s] and its width;
    [(RuneError, 1)] when the bytes at the end are not one whole
    encoding. *)
Definition DecodeLastRuneInString (s : string) : Z * nat :=
  let end_ := Z.of_nat (String.length s) in
  if end_ =? 0 then (RuneError, 0%nat)
  else
    let r := byte s (end_ - 1) in
    if r <? 0x80 then (r, 1%nat)
    else
      let lim := Z.max 0 (end_ - 4) in
      let start := Z.max 0 (back_to_start 3 s (end_ - 2) lim) in
      let '(r, size) :=
        DecodeRuneInString
          (String.substring (Z.to_nat start) (Z.to_nat (end_ - start)) s) in
      if start + Z.of_nat size =? end_ then (r, size) else (RuneError, 1%nat).

(** [utf8.AppendRune]: surrogates and values above U+10FFFF are written
    as U+FFFD. *)
Definition EncodeRune (r : Z) : string :=
  let cont (x : Z) := chr (Z.lor 0x80 (Z.land x 0x3F)) in
  if (0 <=? r) && (r <? 0x80) then str1 (chr r)
  else if (0 <=? r) && (r <? 0x800)
  then String (chr (Z.lor 0xC0 (Z.shiftr r 6))) (str1 (cont r))
  else if (r <? 0) || (0x10FFFF <? r) || ((0xD800 <=? r) && (r <=? 0xDFFF))
  then String (chr 0xEF) (String (chr 0xBF) (str1 (chr 0xBD)))
  else if r <? 0x10000
  then String (chr (Z.lor 0xE0 (Z.shiftr r 12)))
         (String (cont (Z.shiftr r 6)) (str1 (cont r)))
  else String (chr (Z.lor 0xF0 (Z.shiftr r 18)))
         (String (cont (Z.shiftr r 12))
            (String (cont (Z.shiftr r 6)) (str1 (cont r)))).

End Utf8.

(** ** Decimal numbers ([strconv]) *)

Module Strconv.

Fixpoint digits_go (fuel : nat) (n : Z) (acc : string) : string :=
  match fuel with
  | O => acc
  | S f =>
      let acc' := String (chr (48 + n mod 10)) acc in
      if n <? 10 then acc' else digits_go f (n / 10) acc'
  end.

(** The decimal digits of a natural number. *)
Definition utoa (n : Z) : string :=
  digits_go (S (Z.to_nat (Z.log2 n))) n EmptyString.

(** [strconv.Itoa]. *)
Definition Itoa (z : Z) : string :=
  if z <? 0 then String "-" (utoa (- z)) else utoa z.

(** The value of a run of decimal digits; [None] if some byte is not one. *)
Fixpoint digits_value (acc : Z) (s : string) : option Z :=
  match s with
  | EmptyString => Some acc
  | String c s' =>
      if is_digit c then digits_value (10 * acc + (code c - 48)) s' else None
  end.

Definition intSize : Z := 64.
Definition maxInt : Z := 2 ^ (intSize - 1) - 1.
Definition minInt : Z := - 2 ^ (intSize - 1).

(** [strconv.Atoi] on a 64-bit platform: an optional sign, then one or
    more decimal digits, the value within the range of [int]; [None] is a
    [*NumError] (syntax or range). *)
Definition Atoi (s : string) : option Z :=
  let '(neg, body) :=
    match s with
    | String "+" r => (false, r)
    | String "-" r => (true, r)
    | _ => (false, s)
    end in
  match body with
  | EmptyString => None
  | _ =>
      match digits_value 0 body with
      | None => None
      | Some v =>
          let z := if neg then - v else v in
          if (minInt <=? z) && (z <=? maxInt) then Some z else None
      end
  end.

End Strconv.

(** ** Wall-clock time ([time.Time], as far as JSON needs it)

    A [Time] is kept as its civil fields and zone offset, which is what
    [MarshalJSON] prints and [UnmarshalJSON] reads; the handlers never
    compare or subtract times. *)

Module Time.

Record Time : Type := mkTime {
  year : Z; month : Z; day : Z;
  hour : Z; minute : Z; second : Z;
  nanosecond : Z;
  offset : Z  (* seconds east of UTC *)
}.

(** The zero value [time.Time{}]: January 1, year 1, 00:00:00 UTC. *)
Definition zero : Time := mkTime 1 1 1 0 0 0 0 0.

(** [appendInt]: at least [width] digits, zero padded, sign first. *)
Definition appendInt (x : Z) (width : nat) : string :=
  let ds := Strconv.utoa (Z.abs x) in
  let pad := String.concat EmptyString
               (repeat "0"%string (width - String.length ds)) in
  (if x <? 0 then "-" else EmptyString) +:+ pad +:+ ds.

Fixpoint strip_zeros_rev (s : string) : string :=
  match s with
  | String "0" s' => strip_zeros_rev s'
  | _ => s
  end.

(** [appendNano] for the layout [.999999999]: nine digits with the
    trailing zeros removed, nothing at all for a whole second. *)
Definition appendNano (ns : Z) : string :=
  match strip_zeros_rev (String.rev (appendInt ns 9)) with
  | EmptyString => EmptyString
  | r => String "." (String.rev r)
  end.

(** [appendFormatRFC3339] with nanoseconds (layout [RFC3339Nano]). *)
Definition formatRFC3339Nano (t : Time) : string :=
  appendInt (year t) 4 +:+ "-" +:+ appendInt (month t) 2 +:+ "-" +:+
  appendInt (day t) 2 +:+ "T" +:+
  appendInt (hour t) 2 +:+ ":" +:+ appendInt (minute t) 2 +:+ ":" +:+
  appendInt (second t) 2 +:+ appendNano (nanosecond t) +:+
  (if offset t =? 0 then "Z"
   else
     let zone := Z.quot (offset t) 60 in
     (if zone <? 0 then "-" else "+") +:+
     appendInt (Z.abs zone / 60) 2 +:+ ":" +:+ appendInt (Z.abs zone mod 60) 2).

(** [appendStrictRFC3339]: the cases that RFC 3339 cannot express. *)
Definition marshalable (t : Time) : bool :=
  (0 <=? year t) && (year t <=? 9999) &&
  (Z.abs (Z.quot (offset t) 60) / 60 <? 24).

Definition isLeap (y : Z) : bool :=
  (y mod 4 =? 0) && (negb (y mod 100 =? 0) || (y mod 400 =? 0)).

Definition daysIn (m y : Z) : Z :=
  if m =? 2 then (if isLeap y then 29 else 28)
  else if (m =? 4) || (m =? 6) || (m =? 9) || (m =? 11) then 30
  else 31.

(** [parseUint] of [parseRFC3339]: all digits, value within [lo, hi]. *)
Definition parseUint (s : string) (lo hi : Z) : option Z :=
  match Strconv.digits_value 0 s with
  | Some x => if (lo <=? x) && (x <=? hi) then Some x else None
  | None => None
  end.

Definition sub (s : string) (from to : nat) : string :=
  String.substring from (to - from) s.

Definition byte_at (s : string) (i : nat) (c : ascii) : bool :=
  match String.get i s with
  | Some d => Ascii.eqb c d
  | None => false
  end.

Fixpoint span_digits (s : string) : string * string :=
  match s with
  | String c s' =>
      if is_digit c
      then let '(d, r) := span_digits s' in (String c d, r)
      else (EmptyString, s)
  | EmptyString => (EmptyString, EmptyString)
  end.

(** [parseNanoseconds]: the first nine fraction digits, scaled. *)
Definition parseNanoseconds (ds : string) : Z :=
  let nine := String.substring 0 9 (ds +:+ "000000000") in
  default 0 (Strconv.digits_value 0 nine).

(** The zone suffix: [Z], or a signed [hh:mm]. *)
Definition parseZone (s : string) : option Z :=
  if String.eqb s "Z" then Some 0
  else if negb (String.length s =? 6)%nat then None
  else
    match parseUint (sub s 1 3) 0 23, parseUint (sub s 4 6) 0 59 with
    | Some hr, Some mm =>
        if (byte_at s 0 "-" || byte_at s 0 "+") && byte_at s 3 ":"
        then Some ((if byte_at s 0 "-" then -1 else 1) * ((hr * 60 + mm) * 60))
        else None
    | _, _ => None
    end.

(** [parseRFC3339]: the reader for the strict RFC 3339 profile, which
    [parseStrictRFC3339] tries first; [None] is [ok == false]. *)
Definition parseRFC3339 (s : string) : option Time :=
  if (String.length s <? 19)%nat then None
  else
    match parseUint (sub s 0 4) 0 9999, parseUint (sub s 5 7) 1 12 with
    | Some y, Some mo =>
        match parseUint (sub s 8 10) 1 (daysIn mo y),
              parseUint (sub s 11 13) 0 23,
              parseUint (sub s 14 16) 0 59,
              parseUint (sub s 17 19) 0 59 with
        | Some d, Some h, Some mi, Some sec =>
            if byte_at s 4 "-" && byte_at s 7 "-" && byte_at s 10 "T" &&
               byte_at s 13 ":" && byte_at s 16 ":"
            then
              let rest := String.substring 19 (String.length s - 19) s in
              let '(ns, rest') :=
                match rest with
                | String "." (String c _ as frac) =>
                    if is_digit c
                    then let '(ds, r) := span_digits frac in
                         (parseNanoseconds ds, r)
                    else (0, rest)
                | _ => (0, rest)
                end in
              match parseZone rest' with
              | Some off => Some (mkTime y mo d h mi sec ns off)
              | None => None
              end
            else None
        | _, _, _, _ => None
        end
    | _, _ => None
    end.

(** *** [time.Parse] with the layout [RFC3339]

    The layout ["2006-01-02T15:04:05Z07:00"] is read element by element,
    each after the literal text in front of it.  An error of any kind is
    [None]. *)

Definition and_then {A B : Type} (o : option A) (k : A -> option B) : option B :=
  match o with
  | Some a => k a
  | None => None
  end.

(** [s[n:]]. *)
Definition from (n : nat) (s : string) : string :=
  String.substring n (String.length s - n) s.

(** [getnum]: one or two decimal digits; [fixed] asks for two. *)
Definition getnum (s : string) (fixed : bool) : option (Z * string) :=
  match s with
  | String c0 s1 =>
      if is_digit c0 then
        match s1 with
        | String c1 s2 =>
            if is_digit c1
            then Some ((code c0 - 48) * 10 + (code c1 - 48), s2)
            else if fixed then None else Some (code c0 - 48, s1)
        | EmptyString => if fixed then None else Some (code c0 - 48, s1)
        end
      else None
  | EmptyString => None
  end.

(** [skip] for the one-byte prefixes of the layout ([-], [T], [:]). *)
Definition skip (value : string) (c : ascii) : option string :=
  match value with
  | String d rest => if Ascii.eqb d c then Some rest else None
  | EmptyString => None
  end.

(** The element [2006]: four bytes, the first a digit, read by [atoi]. *)
Definition longYear (value : string) : option (Z * string) :=
  if (String.length value <? 4)%nat || negb (is_digit (default "000"%char (String.get 0 value)))
  then None
  else
    match Strconv.digits_value 0 (sub value 0 4) with
    | Some y => Some (y, from 4 value)
    | None => None
    end.

Definition commaOrPeriod (c : ascii) : bool :=
  Ascii.eqb c "." || Ascii.eqb c ",".

(** The fraction that may follow the seconds although the layout has
    none: a period or a comma, then digits. *)
Definition lenientFraction (value : string) : Z * string :=
  match value with
  | String p (String c _ as frac) =>
      if commaOrPeriod p && is_digit c
      then let '(ds, r) := span_digits frac in (parseNanoseconds ds, r)
      else (0, value)
  | _ => (0, value)
  end.

(** The element [Z07:00]: [Z], or a sign, two digits, a colon and two
    digits; the hours may go up to 24 and the minutes up to 60. *)
Definition lenientZone (value : string) : option (Z * string) :=
  match value with
  | String c rest =>
      if Ascii.eqb c "Z" then Some (0, rest)
      else if (String.length value <? 6)%nat then None
      else if negb (byte_at value 3 ":") then None
      else
        match getnum (sub value 1 3) true, getnum (sub value 4 6) true with
        | Some (hr, _), Some (mm, _) =>
            if (24 <? hr) || (60 <? mm) then None
            else if Ascii.eqb c "+" then Some ((hr * 60 + mm) * 60, from 6 value)
            else if Ascii.eqb c "-" then Some (- ((hr * 60 + mm) * 60), from 6 value)
            else None
        | _, _ => None
        end
  | EmptyString => None
  end.

(** [time.Parse(time.RFC3339, value)].  The day is checked against the
    month once everything is read; text after the zone is an error. *)
Definition Parse (value : string) : option Time :=
  and_then (longYear value) (fun '(y, value) =>
  and_then (skip value "-") (fun value =>
  and_then (getnum value true) (fun '(mo, value) =>
  if (mo <=? 0) || (12 <? mo) then None else
  and_then (skip value "-") (fun value =>
  and_then (getnum value true) (fun '(d, value) =>
  and_then (skip value "T") (fun value =>
  and_then (getnum value false) (fun '(h, value) =>
  if 24 <=? h then None else
  and_then (skip value ":") (fun value =>
  and_then (getnum value true) (fun '(mi, value) =>
  if 60 <=? mi then None else
  and_then (skip value ":") (fun value =>
  and_then (getnum value true) (fun '(sec, value) =>
  if 60 <=? sec then None else
  let '(ns, value) := lenientFraction value in
  and_then (lenientZone value) (fun '(off, value) =>
  if negb (String.eqb value EmptyString) then None
  else if (d <? 1) || (daysIn mo y <? d) then None
  else Some (mkTime y mo d h mi sec ns off))))))))))))).

(** [parseStrictRFC3339], the reader of [Time.UnmarshalJSON]: the strict
    reader first and, where that fails, [time.Parse]; the checks the
    library lists after the fall-back are switched off there ([case
    true]), so a one-digit hour, a comma before the fraction and a zone
    of 24 hours or 60 minutes are let through. *)
Definition parseStrictRFC3339 (b : string) : option Time :=
  match parseRFC3339 b with
  | Some t => Some t
  | None => Parse b
  end.

End Time.
Abbreviation Time := Time.Time.

(** ** JSON ([encoding/json])

    The scanner is the byte-at-a-time state machine of [scanner.go]; it
    builds the tree of raw tokens as it goes.  [appendString] is the
    string encoder of [encode.go] (Go 1.22 and later, HTML escaping on, as
    [json.Marshal] has it), [unquote] the string decoder of [decode.go]. *)

Module Json.

Fixpoint take (n : nat) (s : string) : string :=
  match n, s with
  | S k, String c r => String c (take k r)
  | _, _ => EmptyString
  end.

Fixpoint drop (n : nat) (s : string) : string :=
  match n, s with
  | S k, String _ r => drop k r
  | _, _ => s
  end.

Definition hex (n : Z) : ascii :=
  if n <? 10 then chr (48 + n) else chr (87 + n).

(** ** Encoding strings *)

(** [htmlSafeSet]: the ASCII bytes written as they are. *)
Definition htmlSafe (b : Z) : bool :=
  (0x20 <=? b) && (b <? 0x80) &&
  negb ((b =? 34) || (b =? 92) || (b =? 60) || (b =? 62) || (b =? 38)).

Definition escape_byte (c : ascii) : string :=
  let b := code c in
  if htmlSafe b then str1 c
  else if (b =? 92) || (b =? 34) then String BSLASH (str1 c)
  else if b =? 8 then "\b"
  else if b =? 12 then "\f"
  else if b =? 10 then "\n"
  else if b =? 13 then "\r"
  else if b =? 9 then "\t"
  else "\u00" +:+ String (hex (Z.shiftr b 4)) (str1 (hex (Z.land b 0xF))).

(** The loop of [appendString].  [skip] counts the bytes of a rune that
    was already written and are still ahead in the input. *)
Fixpoint appendString_go (skip : nat) (s : string) : string :=
  match s with
  | EmptyString => EmptyString
  | String c rest =>
      match skip with
      | S k => appendString_go k rest
      | O =>
          if code c <? 0x80 then escape_byte c +:+ appendString_go 0 rest
          else
            let '(r, size) := Utf8.DecodeRuneInString s in
            if (r =? Utf8.RuneError) && (size =? 1)%nat
            then "\ufffd" +:+ appendString_go 0 rest
            else if (r =? 0x2028) || (r =? 0x2029)
            then "\u202" +:+ str1 (hex (Z.land r 0xF)) +:+
                 appendString_go (size - 1) rest
            else take size s +:+ appendString_go (size - 1) rest
      end
  end.

Definition appendString (s : string) : string :=
  String DQUOTE (appendString_go 0 s +:+ str1 DQUOTE).

(** ** Syntax trees of raw tokens *)

Inductive value : Type :=
| Null
| Bool (b : bool)
| Number (lit : string)          (* the literal, as written *)
| Str (raw : string)             (* the bytes between the quotes *)
| Array (elems : list value)
| Object (members : list (string * value)).  (* raw keys, in order *)

(** ** The scanner *)

Inductive state : Type :=
| BeginValue | BeginValueOrEmpty | BeginStringOrEmpty | BeginString
| EndValue | EndTop
| InString | InStringEsc | InStringEscU (left : nat)
| Neg | Num0 | Num1 | Dot | Dot0 | Exp | ESign | E0
| InLit (rest : string) (v : value).

(** The parse stack: [parseObjectKey] is [FObjKey], [parseObjectValue] is
    [FObjValue] then [FObjNext], [parseArrayValue] is [FArr].  Members and
    elements are kept in reverse. *)
Inductive frame : Type :=
| FObjKey (ms : list (string * value)) (key : option string)
| FObjValue (ms : list (string * value)) (key : string)
| FObjNext (ms : list (string * value))
| FArr (es : list value).

Record scanner : Type := mkScanner {
  st : state;
  tok : string;            (* the current token, reversed *)
  stack : list frame;
  top : option value       (* the finished top-level value *)
}.

Definition maxNestingDepth : Z := 10000.

Definition isSpace (c : ascii) : bool :=
  let b := code c in (b =? 32) || (b =? 9) || (b =? 13) || (b =? 10).

Definition isHex (c : ascii) : bool :=
  is_digit c || between 97 102 c || between 65 70 c.

Definition start : scanner := mkScanner BeginValue EmptyString [] None.

(** A value is finished: hand it to the enclosing frame. *)
Definition complete (v : value) (stk : list frame) : option scanner :=
  match stk with
  | [] => Some (mkScanner EndTop EmptyString [] (Some v))
  | FObjKey ms None :: stk' =>
      match v with
      | Str raw =>
          Some (mkScanner EndValue EmptyString (FObjKey ms (Some raw) :: stk') None)
      | _ => None
      end
  | FObjValue ms key :: stk' =>
      Some (mkScanner EndValue EmptyString (FObjNext ((key, v) :: ms) :: stk') None)
  | FArr es :: stk' =>
      Some (mkScanner EndValue EmptyString (FArr (v :: es) :: stk') None)
  | _ => None
  end.

(** [stateEndTop] and [stateEndValue]. *)
Definition endValue (s : scanner) (c : ascii) : option scanner :=
  match stack s with
  | [] => if isSpace c then Some s else None
  | f :: stk' =>
      if isSpace c then Some s
      else
        match f with
        | FObjKey ms (Some key) =>
            if Ascii.eqb c ":"
            then Some (mkScanner BeginValue EmptyString (FObjValue ms key :: stk') None)
            else None
        | FObjNext ms =>
            if Ascii.eqb c ","
            then Some (mkScanner BeginString EmptyString (FObjKey ms None :: stk') None)
            else if Ascii.eqb c "}" then complete (Object (rev ms)) stk'
            else None
        | FArr es =>
            if Ascii.eqb c ","
            then Some (mkScanner BeginValue EmptyString (FArr es :: stk') None)
            else if Ascii.eqb c "]" then complete (Array (rev es)) stk'
            else None
        | _ => None
        end
  end.

(** The current token is a finished number: store it, then the byte that
    ended it is looked at by [stateEndValue]. *)
Definition endNumber (s : scanner) (c : ascii) : option scanner :=
  match complete (Number (String.rev (tok s))) (stack s) with
  | Some s' => endValue s' c
  | None => None
  end.

Definition push (f : frame) (next : state) (s : scanner) : option scanner :=
  if maxNestingDepth <? Z.of_nat (S (length (stack s))) then None
  else Some (mkScanner next EmptyString (f :: stack s) None).

Definition goto (next : state) (s : scanner) (c : ascii) : option scanner :=
  Some (mkScanner next (String c (tok s)) (stack s) (top s)).

(** [stateBeginValue]. *)
Definition beginValue (s : scanner) (c : ascii) : option scanner :=
  if isSpace c then Some s
  else if Ascii.eqb c "{" then push (FObjKey [] None) BeginStringOrEmpty s
  else if Ascii.eqb c "[" then push (FArr []) BeginValueOrEmpty s
  else if Ascii.eqb c DQUOTE
  then Some (mkScanner InString EmptyString (stack s) None)
  else if Ascii.eqb c "-" then goto Neg s c
  else if Ascii.eqb c "0" then goto Num0 s c
  else if Ascii.eqb c "t" then Some (mkScanner (InLit "rue" (Bool true)) EmptyString (stack s) None)
  else if Ascii.eqb c "f" then Some (mkScanner (InLit "alse" (Bool false)) EmptyString (stack s) None)
  else if Ascii.eqb c "n" then Some (mkScanner (InLit "ull" Null) EmptyString (stack s) None)
  else if between 49 57 c then goto Num1 s c
  else None.

(** One byte through the machine; [None] is a [*SyntaxError]. *)
Definition step (s : scanner) (c : ascii) : option scanner :=
  match st s with
  | BeginValue => beginValue s c
  | BeginValueOrEmpty =>
      if isSpace c then Some s
      else if Ascii.eqb c "]"
      then endValue (mkScanner EndValue EmptyString (stack s) None) c
      else beginValue (mkScanner BeginValue EmptyString (stack s) None) c
  | BeginStringOrEmpty =>
      if isSpace c then Some s
      else if Ascii.eqb c "}"
      then
        match stack s with
        | FObjKey ms None :: stk' =>
            endValue (mkScanner EndValue EmptyString (FObjNext ms :: stk') None) c
        | _ => None
        end
      else if Ascii.eqb c DQUOTE
      then Some (mkScanner InString EmptyString (stack s) None)
      else None
  | BeginString =>
      if isSpace c then Some s
      else if Ascii.eqb c DQUOTE
      then Some (mkScanner InString EmptyString (stack s) None)
      else None
  | EndValue | EndTop => endValue s c
  | InString =>
      if Ascii.eqb c DQUOTE then complete (Str (String.rev (tok s))) (stack s)
      else if Ascii.eqb c BSLASH then goto InStringEsc s c
      else if code c <? 0x20 then None
      else goto InString s c
  | InStringEsc =>
      if existsb (Ascii.eqb c) ["b"; "f"; "n"; "r"; "t"; BSLASH; "/"; DQUOTE]%char
      then goto InString s c
      else if Ascii.eqb c "u" then goto (InStringEscU 4) s c
      else None
  | InStringEscU n =>
      if isHex c
      then goto (match n with
                 | S (S k) => InStringEscU (S k)
                 | _ => InString
                 end) s c
      else None
  | Neg =>
      if Ascii.eqb c "0" then goto Num0 s c
      else if between 49 57 c then goto Num1 s c
      else None
  | Num1 =>
      if is_digit c then goto Num1 s c
      else if Ascii.eqb c "." then goto Dot s c
      else if Ascii.eqb c "e" || Ascii.eqb c "E" then goto Exp s c
      else endNumber s c
  | Num0 =>
      if Ascii.eqb c "." then goto Dot s c
      else if Ascii.eqb c "e" || Ascii.eqb c "E" then goto Exp s c
      else endNumber s c
  | Dot => if is_digit c then goto Dot0 s c else None
  | Dot0 =>
      if is_digit c then goto Dot0 s c
      else if Ascii.eqb c "e" || Ascii.eqb c "E" then goto Exp s c
      else endNumber s c
  | Exp =>
      if Ascii.eqb c "+" || Ascii.eqb c "-" then goto ESign s c
      else if is_digit c then goto E0 s c
      else None
  | ESign => if is_digit c then goto E0 s c else None
  | E0 => if is_digit c then goto E0 s c else endNumber s c
  | InLit rest v =>
      match rest with
      | String d rest' =>
          if Ascii.eqb c d
          then
            match rest' with
            | EmptyString => complete v (stack s)
            | _ => Some (mkScanner (InLit rest' v) EmptyString (stack s) None)
            end
          else None
      | EmptyString => None
      end
  end.

Fixpoint scan (s : scanner) (data : string) : option scanner :=
  match data with
  | EmptyString => Some s
  | String c rest =>
      match step s c with
      | Some s' => scan s' rest
      | None => None
      end
  end.

(** [checkValid] and the tree: the whole input is one JSON value with
    only white space around it.  At the end of the input the machine is
    fed one space ([scanner.eof]). *)
Definition parse (data : string) : option value :=
  match scan start data with
  | Some s =>
      match step s SP with
      | Some s' =>
          match st s' with
          | EndTop => top s'
          | _ => None
          end
      | None => None
      end
  | None => None
  end.

(** ** Decoding strings *)

Definition hexval (c : ascii) : Z :=
  let b := code c in
  if is_digit c then b - 48
  else if between 97 102 c then b - 87
  else if between 65 70 c then b - 55
  else -1.

(** [getu4]: the value of a leading [\uXXXX], or -1. *)
Definition getu4 (s : string) : Z :=
  match s with
  | String b (String u (String h1 (String h2 (String h3 (String h4 _))))) =>
      if Ascii.eqb b BSLASH && Ascii.eqb u "u" &&
         isHex h1 && isHex h2 && isHex h3 && isHex h4
      then hexval h1 * 4096 + hexval h2 * 256 + hexval h3 * 16 + hexval h4
      else -1
  | _ => -1
  end.

Definition isSurrogate (r : Z) : bool := (0xD800 <=? r) && (r <? 0xE000).

(** [utf16.DecodeRune]. *)
Definition utf16_DecodeRune (r1 r2 : Z) : Z :=
  if (0xD800 <=? r1) && (r1 <? 0xDC00) && (0xDC00 <=? r2) && (r2 <? 0xE000)
  then Z.shiftl (r1 - 0xD800) 10 + (r2 - 0xDC00) + 0x10000
  else Utf8.RuneError.

Definition unescape (e : ascii) : ascii :=
  if Ascii.eqb e "b" then BS
  else if Ascii.eqb e "f" then FF
  else if Ascii.eqb e "n" then LF
  else if Ascii.eqb e "r" then CR
  else if Ascii.eqb e "t" then TAB
  else e.

(** The loop of [unquoteBytes] on a token the scanner accepted: escapes
    are resolved, invalid UTF-8 becomes U+FFFD.  [skip] counts the bytes
    of the escape or rune that was already translated. *)
Fixpoint unquote_go (skip : nat) (s : string) : string :=
  match s with
  | EmptyString => EmptyString
  | String c rest =>
      match skip with
      | S k => unquote_go k rest
      | O =>
          if Ascii.eqb c BSLASH then
            match rest with
            | String e _ =>
                if Ascii.eqb e "u" then
                  let rr := getu4 s in
                  if isSurrogate rr then
                    let dec := utf16_DecodeRune rr (getu4 (drop 6 s)) in
                    if dec =? Utf8.RuneError
                    then Utf8.EncodeRune Utf8.RuneError +:+ unquote_go 5 rest
                    else Utf8.EncodeRune dec +:+ unquote_go 11 rest
                  else Utf8.EncodeRune rr +:+ unquote_go 5 rest
                else String (unescape e) (unquote_go 1 rest)
            | EmptyString => EmptyString
            end
          else if code c <? 0x80 then String c (unquote_go 0 rest)
          else
            let '(r, size) := Utf8.DecodeRuneInString s in
            Utf8.EncodeRune r +:+ unquote_go (size - 1) rest
      end
  end.

Definition unquote (raw : string) : string := unquote_go 0 raw.

(** ** Struct fields *)

(** [foldName]: the key under which a field is found when no name matches
    exactly.  ASCII letters lose their case; the long s (U+017F) and the
    Kelvin sign (U+212A) fold to [S] and [K]. *)
Fixpoint foldName (s : string) : string :=
  match s with
  | EmptyString => EmptyString
  | String c rest =>
      if between 97 122 c then String (chr (code c - 32)) (foldName rest)
      else
        match rest with
        | String c1 rest1 =>
            if (code c =? 0xC5) && (code c1 =? 0xBF)
            then String "S" (foldName rest1)
            else
              match rest1 with
              | String c2 rest2 =>
                  if (code c =? 0xE2) && (code c1 =? 0x84) && (code c2 =? 0xAA)
                  then String "K" (foldName rest2)
                  else String c (foldName rest)
              | EmptyString => String c (foldName rest)
              end
        | EmptyString => String c (foldName rest)
        end
  end.

(** The field a key selects among the JSON names of a struct. *)
Definition find_field (names : list string) (key : string) : option string :=
  match find (String.eqb key) names with
  | Some n => Some n
  | None => find (fun n => String.eqb (foldName n) (foldName key)) names
  end.

(** What [UnmarshalTypeError.Value] reports for a token that does not
    fit the kind of the Go value.  (A number that does not fit an integer
    is reported with its text, see [store_intptr].) *)
Definition kind_of (v : value) : string :=
  match v with
  | Null => "null"
  | Bool _ => "bool"
  | Number _ => "number"
  | Str _ => "string"
  | Array _ => "array"
  | Object _ => "object"
  end.

(** ** The scanner inside a string literal *)

(** Inside a string literal with [x] read so far. *)
Definition reading (x : string) (sc : scanner) : scanner :=
  mkScanner InString (String.rev_app x (tok sc)) (stack sc) (top sc).

(** A byte of a multi-byte rune. *)
Definition high (c : ascii) : bool := 0x80 <=? code c.

End Json.

(** ** package handler: messages ([message.go]) *)

Module Handler.

(** Go's [error] values that occur in the package. *)
Inductive error : Type :=
| SyntaxError                                  (* json: malformed input *)
| UnmarshalTypeError (value field : string)    (* json: wrong kind of token;
                                                  [Value] and [Field], the path
                                                  from the root struct *)
| TimeError (field : string)                   (* the error of [Time.UnmarshalJSON],
                                                  kept with the field it was read for *)
| MarshalerError                               (* json: Time.MarshalJSON failed *)
| WriteError                                   (* websocket: write failed *)
| ConnectError                                 (* the shell could not connect *)
| ErrInvalidMessageFormat.                     (* websocket.go *)

Definition MessageType : Type := string.

Definition MessageTypeTerminalInput   : MessageType := "terminal_input".
Definition MessageTypeTerminalOutput  : MessageType := "terminal_output".
Definition MessageTypeTerminalError   : MessageType := "terminal_error".
Definition MessageTypeSystemMessage   : MessageType := "system_message".
Definition MessageTypeConnectionState : MessageType := "connection_state".
Definition MessageTypeRequestPrompt   : MessageType := "request_prompt".

(** Modelled from the spec: [websocket.go] switches on the constant
    [MessageTypeConnectionRequest], which [message.go] does not declare;
    section 6 of the specification gives its wire name. *)
Definition MessageTypeConnectionRequest : MessageType := "connection_request".

Record MessageMetadata : Type := mkMetadata {
  HasAnsi : bool;
  ExitCode : option Z;     (* *int *)
  Command : string;
  SSHHost : string;
  SSHUser : string;
  SessionID : string
}.

Record Message : Type := mkMessage {
  Type_ : MessageType;
  Data : string;
  Timestamp : Time;
  Metadata : option MessageMetadata   (* *MessageMetadata *)
}.

Definition ConnectionState : Type := string.

Definition ConnectionStateConnected    : ConnectionState := "connected".
Definition ConnectionStateDisconnected : ConnectionState := "disconnected".
Definition ConnectionStateConnecting   : ConnectionState := "connecting".
Definition ConnectionStateError        : ConnectionState := "error".

Record ConnectionStateMessage : Type := mkConnectionStateMessage {
  State : ConnectionState;
  Message_ : string
}.

(** *** The world a connection runs in *)

Inductive LogEntry : Type :=
| LogUpgradeError
| LogNewConnection
| LogShellStarted
| LogReadError
| LogInvalidFormat (e : error)
| LogUnhandled (t : MessageType)
| LogConnectionRequestFailed (e : error)
| LogShellConnected (user : string)
| LogMissingMetadata.

(** What a handler does to the outside, in the order it does it. *)
Inductive Event : Type :=
| EvLog (l : LogEntry)                       (* log.Printf / log.Println *)
| EvWrite (frame : string)                   (* conn.WriteMessage(TextMessage, frame) *)
| EvClose                                    (* conn.Close() *)
| EvNewShell                                 (* NewShellSession / NewShellConnection *)
| EvDial (md : MessageMetadata) (ok : bool). (* the shell dials the remote host *)

Record World : Type := mkWorld {
  clock : nat -> Time;                 (* the n-th reading of time.Now() *)
  ticks : nat;                         (* readings taken so far *)
  write_fails : nat -> bool;           (* does the n-th WriteMessage fail *)
  remote : MessageMetadata -> bool;    (* does the remote host accept *)
  trace : list Event
}.

Definition M (A : Type) : Type := World -> A * World.

Definition ret {A} (a : A) : M A := fun w => (a, w).

Definition bind {A B} (c : M A) (k : A -> M B) : M B :=
  fun w => let '(a, w') := c w in k a w'.

Definition emit (e : Event) : M unit :=
  fun w => (tt, mkWorld (clock w) (ticks w) (write_fails w) (remote w)
                  (trace w ++ [e])).

Definition log (l : LogEntry) : M unit := emit (EvLog l).

(** [time.Now()]. *)
Definition time_Now : M Time :=
  fun w => (clock w (ticks w),
            mkWorld (clock w) (S (ticks w)) (write_fails w) (remote w) (trace w)).

Definition writes (tr : list Event) : list string :=
  omap (fun e => match e with EvWrite f => Some f | _ => None end) tr.

(** [conn.WriteMessage(websocket.TextMessage, data)]. *)
Definition WriteMessage (data : string) : M (option error) :=
  fun w =>
    let n := length (writes (trace w)) in
    let '(_, w') := emit (EvWrite data) w in
    (if write_fails w n then Some WriteError else None, w').

(** The world after [n] more clock readings and the events [es]. *)
Definition advance (n : nat) (es : list Event) (w : World) : World :=
  mkWorld (clock w) (ticks w + n) (write_fails w) (remote w) (trace w ++ es).

Notation "x <- c ;; k" := (bind c (fun x => k))
  (at level 100, c at next level, right associativity).
Notation "c ;;; k" := (bind c (fun _ => k))
  (at level 100, right associativity).

(** *** Constructors *)

Definition NewMessage (msgType : MessageType) (data : string) : M Message :=
  now <- time_Now ;;
  ret {| Type_ := msgType; Data := data; Timestamp := now; Metadata := None |}.

Definition NewSystemMessage (message : string) : M Message :=
  NewMessage MessageTypeSystemMessage message.

Definition NewTerminalError (errorMsg : string) : M Message :=
  NewMessage MessageTypeTerminalError errorMsg.

(** The pattern of [containsAnsiCodes]: ESC, an opening bracket, any
    digits and semicolons, then [m] or [K]. *)
Definition ansiRegex : Regexp.re :=
  Regexp.Cat (Regexp.Lit ESC)
    (Regexp.Cat (Regexp.Lit "[")
       (Regexp.Cat (Regexp.Star (Regexp.Class [("0", "9"); (";", ";")]%char))
          (Regexp.Class [("m", "m"); ("K", "K")]%char))).

Definition containsAnsiCodes (s : string) : bool :=
  Regexp.MatchString ansiRegex s.

Definition NewTerminalOutput (output command : string) (exitCode : option Z)
  : M Message :=
  msg <- NewMessage MessageTypeTerminalOutput output ;;
  let hasAnsi := containsAnsiCodes output in
  ret {| Type_ := Type_ msg; Data := Data msg; Timestamp := Timestamp msg;
         Metadata := Some {| HasAnsi := hasAnsi; ExitCode := exitCode;
                             Command := command; SSHHost := EmptyString;
                             SSHUser := EmptyString;
                             SessionID := EmptyString |} |}.

Definition zeroMetadata : MessageMetadata :=
  mkMetadata false None EmptyString EmptyString EmptyString EmptyString.

Definition NewSSHTerminalOutput (output command : string) (exitCode : option Z)
    (sshHost sshUser sessionID : string) : M Message :=
  msg <- NewTerminalOutput output command exitCode ;;
  let md := default zeroMetadata (Metadata msg) in
  ret {| Type_ := Type_ msg; Data := Data msg; Timestamp := Timestamp msg;
         Metadata := Some {| HasAnsi := HasAnsi md; ExitCode := ExitCode md;
                             Command := Command md; SSHHost := sshHost;
                             SSHUser := sshUser; SessionID := sessionID |} |}.

(** *** Encoding *)

(** A member [name:value] of an encoded object. *)
Definition member (name value : string) : string :=
  String DQUOTE name +:+ String DQUOTE (String ":" value).

Definition object (members : list string) : string :=
  "{" +:+ String.concat "," members +:+ "}".

Definition nonempty (s : string) : bool :=
  match s with EmptyString => false | _ => true end.

(** [json.Marshal] of a [ConnectionStateMessage]: [message] carries
    [omitempty]. *)
Definition marshal_ConnectionStateMessage (m : ConnectionStateMessage) : string :=
  object
    ([member "state" (Json.appendString (State m))] ++
     (if nonempty (Message_ m)
      then [member "message" (Json.appendString (Message_ m))] else [])).

Definition NewConnectionStateMessage (state : ConnectionState) (message : string)
  : M Message :=
  let stateData := {| State := state; Message_ := message |} in
  let data := marshal_ConnectionStateMessage stateData in
  NewMessage MessageTypeConnectionState data.

(** [Time.MarshalJSON]. *)
Definition marshal_Time (t : Time) : option string :=
  if Time.marshalable t
  then Some (String DQUOTE (Time.formatRFC3339Nano t +:+ str1 DQUOTE))
  else None.

(** Every field of [MessageMetadata] carries [omitempty]. *)
Definition marshal_Metadata (md : MessageMetadata) : string :=
  let str name v :=
    if nonempty v then [member name (Json.appendString v)] else [] in
  object
    ((if HasAnsi md then [member "has_ansi" "true"] else []) ++
     match ExitCode md with
     | Some n => [member "exit_code" (Strconv.Itoa n)]
     | None => []
     end ++
     str "command"%string (Command md) ++
     str "ssh_host"%string (SSHHost md) ++
     str "ssh_user"%string (SSHUser md) ++
     str "session_id"%string (SessionID md)).

(** [(m *Message) ToJSON]: [json.Marshal(m)]; it fails only when the
    timestamp cannot be written as RFC 3339. *)
Definition ToJSON (m : Message) : string + error :=
  match marshal_Time (Timestamp m) with
  | None => inr MarshalerError
  | Some ts =>
      inl (object
             ([member "type" (Json.appendString (Type_ m));
               member "data" (Json.appendString (Data m));
               member "timestamp" ts] ++
              match Metadata m with
              | Some md => [member "metadata" (marshal_Metadata md)]
              | None => []
              end))
  end.

(** *** Decoding *)

(** [decodeState.saveError]: the first error is the one kept. *)
Definition saveError (saved new : option error) : option error :=
  match saved with
  | Some _ => saved
  | None => new
  end.

(** A JSON token stored in a Go string. *)
Definition store_string (field : string) (v : Json.value) (old : string)
  : string * option error :=
  match v with
  | Json.Str raw => (Json.unquote raw, None)
  | Json.Null => (old, None)
  | _ => (old, Some (UnmarshalTypeError (Json.kind_of v) field))
  end.

Definition store_bool (field : string) (v : Json.value) (old : bool)
  : bool * option error :=
  match v with
  | Json.Bool b => (b, None)
  | Json.Null => (old, None)
  | _ => (old, Some (UnmarshalTypeError (Json.kind_of v) field))
  end.

(** A JSON token stored through a [*int]: [null] clears the pointer, any
    other token allocates it first.  A number that [strconv.ParseInt]
    does not read is reported with its text. *)
Definition store_intptr (field : string) (v : Json.value) (old : option Z)
  : option Z * option error :=
  match v with
  | Json.Null => (None, None)
  | Json.Number lit =>
      match Strconv.Atoi lit with
      | Some n => (Some n, None)
      | None => (Some (default 0 old),
                 Some (UnmarshalTypeError ("number " +:+ lit) field))
      end
  | _ => (Some (default 0 old), Some (UnmarshalTypeError (Json.kind_of v) field))
  end.

(** The JSON names of the fields of [MessageMetadata].  An error inside
    the struct names the field by its path, [metadata.] and the name. *)
Definition metadata_fields : list string :=
  ["has_ansi"; "exit_code"; "command"; "ssh_host"; "ssh_user"; "session_id"]%string.

Definition store_metadata_field (name : string) (v : Json.value)
    (md : MessageMetadata) : MessageMetadata * option error :=
  let path := "metadata." +:+ name in
  if String.eqb name "has_ansi" then
    let '(b, e) := store_bool path v (HasAnsi md) in
    (mkMetadata b (ExitCode md) (Command md) (SSHHost md) (SSHUser md) (SessionID md), e)
  else if String.eqb name "exit_code" then
    let '(x, e) := store_intptr path v (ExitCode md) in
    (mkMetadata (HasAnsi md) x (Command md) (SSHHost md) (SSHUser md) (SessionID md), e)
  else if String.eqb name "command" then
    let '(x, e) := store_string path v (Command md) in
    (mkMetadata (HasAnsi md) (ExitCode md) x (SSHHost md) (SSHUser md) (SessionID md), e)
  else if String.eqb name "ssh_host" then
    let '(x, e) := store_string path v (SSHHost md) in
    (mkMetadata (HasAnsi md) (ExitCode md) (Command md) x (SSHUser md) (SessionID md), e)
  else if String.eqb name "ssh_user" then
    let '(x, e) := store_string path v (SSHUser md) in
    (mkMetadata (HasAnsi md) (ExitCode md) (Command md) (SSHHost md) x (SessionID md), e)
  else
    let '(x, e) := store_string path v (SessionID md) in
    (mkMetadata (HasAnsi md) (ExitCode md) (Command md) (SSHHost md) (SSHUser md) x, e).

(** [decodeState.object] into a [MessageMetadata]: the members in order,
    unknown keys skipped. *)
Fixpoint object_into_Metadata (ms : list (string * Json.value))
    (md : MessageMetadata) (saved : option error)
  : MessageMetadata * option error :=
  match ms with
  | [] => (md, saved)
  | (rawkey, v) :: ms' =>
      match Json.find_field metadata_fields (Json.unquote rawkey) with
      | Some name =>
          let '(md', e) := store_metadata_field name v md in
          object_into_Metadata ms' md' (saveError saved e)
      | None => object_into_Metadata ms' md saved
      end
  end.

(** A JSON token stored through the [*MessageMetadata] of a message. *)
Definition store_metadata (v : Json.value) (old : option MessageMetadata)
    (saved : option error) : option MessageMetadata * option error :=
  match v with
  | Json.Null => (None, saved)
  | Json.Object ms =>
      let '(md, saved') :=
        object_into_Metadata ms (default zeroMetadata old) saved in
      (Some md, saved')
  | _ => (Some (default zeroMetadata old),
          saveError saved (Some (UnmarshalTypeError (Json.kind_of v) "metadata")))
  end.

(** [Time.UnmarshalJSON]: [null] is skipped; anything but a string that
    [parseStrictRFC3339] reads is an error.  The bytes between the quotes
    are read as they are written, escapes are not resolved. *)
Definition unmarshal_Time (v : Json.value) (old : Time) : Time + error :=
  match v with
  | Json.Null => inl old
  | Json.Str raw =>
      match Time.parseStrictRFC3339 raw with
      | Some t => inl t
      | None => inr (TimeError "timestamp")
      end
  | _ => inr (TimeError "timestamp")
  end.

Definition message_fields : list string :=
  ["type"; "data"; "timestamp"; "metadata"]%string.

(** [decodeState.object] into a [Message].  A type error is saved and
    decoding goes on; an error of [Time.UnmarshalJSON] ends it at once.
    The result is the message as far as it was filled, the saved error
    and the error that ended decoding. *)
Fixpoint object_into_Message (ms : list (string * Json.value))
    (msg : Message) (saved : option error)
  : Message * option error * option error :=
  match ms with
  | [] => (msg, saved, None)
  | (rawkey, v) :: ms' =>
      match Json.find_field message_fields (Json.unquote rawkey) with
      | Some name =>
          if String.eqb name "type" then
            let '(x, e) := store_string name v (Type_ msg) in
            object_into_Message ms'
              (mkMessage x (Data msg) (Timestamp msg) (Metadata msg))
              (saveError saved e)
          else if String.eqb name "data" then
            let '(x, e) := store_string name v (Data msg) in
            object_into_Message ms'
              (mkMessage (Type_ msg) x (Timestamp msg) (Metadata msg))
              (saveError saved e)
          else if String.eqb name "timestamp" then
            match unmarshal_Time v (Timestamp msg) with
            | inl t =>
                object_into_Message ms'
                  (mkMessage (Type_ msg) (Data msg) t (Metadata msg)) saved
            | inr e => (msg, saved, Some e)
            end
          else
            let '(x, saved') := store_metadata v (Metadata msg) saved in
            object_into_Message ms'
              (mkMessage (Type_ msg) (Data msg) (Timestamp msg) x) saved'
      | None => object_into_Message ms' msg saved
      end
  end.

Definition zeroMessage : Message :=
  mkMessage EmptyString EmptyString Time.zero None.

(** [json.Unmarshal(data, &msg)]: malformed input leaves [msg] alone; the
    error that ended decoding comes before the saved one. *)
Definition Unmarshal (data : string) (msg : Message) : Message * option error :=
  match Json.parse data with
  | None => (msg, Some SyntaxError)
  | Some Json.Null => (msg, None)
  | Some (Json.Object ms) =>
      let '(msg', saved, ended) := object_into_Message ms msg None in
      (msg', saveError ended saved)
  | Some v => (msg, Some (UnmarshalTypeError (Json.kind_of v) EmptyString))
  end.

Definition ParseMessage (data : string) : Message * option error :=
  Unmarshal data zeroMessage.

(** The idiom of every send in the package:
    [if data, err := m.ToJSON(); err == nil { conn.WriteMessage(..., data) }].
    The result of the write is dropped. *)
Definition send (m : Message) : M unit :=
  match ToJSON m with
  | inl data => _ <- WriteMessage data ;; ret tt
  | inr _ => ret tt
  end.

(** ** The simulated shell ([ShellSession])

    [strings.TrimSpace] is the function of the library: a fast path for
    ASCII, and the Unicode white space of [unicode.IsSpace] as soon as a
    byte above 0x7F is met. *)

(** The table [asciiSpace] of package [strings]. *)
Definition asciiSpace (c : ascii) : bool :=
  let b := code c in
  (b =? 9) || (b =? 10) || (b =? 11) || (b =? 12) || (b =? 13) || (b =? 32).

(** [unicode.IsSpace]: the Latin-1 cases, then the table [White_Space]. *)
Definition IsSpace (r : Z) : bool :=
  if r <=? 0xFF
  then ((9 <=? r) && (r <=? 13)) || (r =? 0x20) || (r =? 0x85) || (r =? 0xA0)
  else (r =? 0x1680) || ((0x2000 <=? r) && (r <=? 0x200A)) ||
       (r =? 0x2028) || (r =? 0x2029) || (r =? 0x202F) || (r =? 0x205F) ||
       (r =? 0x3000).

(** [strings.TrimLeftFunc(s, unicode.IsSpace)]: the runes are taken one
    by one ([range s]) up to the first that is not white space; [skip]
    counts the bytes still to pass of the rune just read. *)
Fixpoint TrimLeftFunc_go (skip : nat) (s : string) : string :=
  match s with
  | EmptyString => EmptyString
  | String _ rest =>
      match skip with
      | S k => TrimLeftFunc_go k rest
      | O =>
          let '(r, size) := Utf8.DecodeRuneInString s in
          if IsSpace r then TrimLeftFunc_go (size - 1) rest else s
      end
  end.

Definition TrimLeftFunc (s : string) : string := TrimLeftFunc_go 0 s.

(** [lastIndexFunc(s, unicode.IsSpace, false)]: the index of the last
    rune that is not white space, [None] for [-1].  [s] is [s[0:i]] of
    the loop, which gets shorter by one rune each time round. *)
Fixpoint lastIndexFunc_go (fuel : nat) (s : string) : option nat :=
  match fuel with
  | O => None
  | S k =>
      match s with
      | EmptyString => None
      | _ =>
          let '(r, size) := Utf8.DecodeLastRuneInString s in
          let i := (String.length s - size)%nat in
          if IsSpace r then lastIndexFunc_go k (Json.take i s) else Some i
      end
  end.

Definition lastIndexFunc (s : string) : option nat :=
  lastIndexFunc_go (String.length s) s.

(** [strings.TrimRightFunc(s, unicode.IsSpace)]. *)
Definition TrimRightFunc (s : string) : string :=
  match lastIndexFunc s with
  | Some i =>
      if 0x80 <=? Utf8.byte s (Z.of_nat i)
      then Json.take (i + snd (Utf8.DecodeRuneInString (Json.drop i s))) s
      else Json.take (i + 1) s
  | None => EmptyString
  end.

(** [strings.TrimFunc(s, unicode.IsSpace)]. *)
Definition TrimFunc (s : string) : string := TrimRightFunc (TrimLeftFunc s).

(** The second loop of [TrimSpace], from the end of [s[start:]]: [r] is
    [s[start:stop]] with the last byte first. *)
Fixpoint TrimSpace_stop (r : string) : string :=
  match r with
  | EmptyString => EmptyString
  | String c r' =>
      if 0x80 <=? code c then TrimRightFunc (String.rev r)
      else if asciiSpace c then TrimSpace_stop r'
      else String.rev r
  end.

(** [strings.TrimSpace]; the recursion is the first loop, over [start]. *)
Fixpoint TrimSpace (s : string) : string :=
  match s with
  | EmptyString => EmptyString
  | String c s' =>
      if 0x80 <=? code c then TrimFunc s
      else if asciiSpace c then TrimSpace s'
      else TrimSpace_stop (String.rev s)
  end.

Definition HasPrefix (s pre : string) : bool := String.prefix pre s.

Definition TrimPrefix (s pre : string) : string :=
  if HasPrefix s pre then Json.drop (String.length pre) s else s.

(** [s[:len(s)-1]]. *)
Fixpoint drop_last (s : string) : string :=
  match s with
  | EmptyString => EmptyString
  | String c EmptyString => EmptyString
  | String c r => String c (drop_last r)
  end.

Definition CRLF : string := String CR (str1 LF).

Record ShellSession : Type := mkShellSession {
  currentInput : string;
  prompt : string
  (* conn: the connection of the world *)
}.

Definition NewShellSession : M ShellSession :=
  emit EvNewShell ;;;
  ret {| currentInput := EmptyString; prompt := "user@webssh:~$ " |}.

Definition sendOutput (data : string) : M unit :=
  response <- NewTerminalOutput data EmptyString None ;;
  send response.

Definition handleBackspace (s : ShellSession) : M ShellSession :=
  if (0 <? String.length (currentInput s))%nat
  then
    let s' := mkShellSession (drop_last (currentInput s)) (prompt s) in
    sendOutput (String BS (String SP (str1 BS))) ;;;
    ret s'
  else ret s.

Definition executeCommand (cmd : string) : M unit :=
  let output :=
    if String.eqb cmd EmptyString then None
    else if String.eqb cmd "ls"
    then Some ("Desktop  Documents  Downloads  Pictures  Videos" +:+ CRLF)
    else if String.eqb cmd "pwd" then Some ("/home/user" +:+ CRLF)
    else if HasPrefix cmd "echo "
    then Some (TrimPrefix cmd "echo " +:+ CRLF)
    else if String.eqb cmd "date"
    then Some ("Mon Aug 12 14:00:00 UTC 2025" +:+ CRLF)
    else if String.eqb cmd "whoami" then Some ("user" +:+ CRLF)
    else if String.eqb cmd "clear"
    then Some (String ESC "[2J" +:+ String ESC "[H")
    else Some (cmd +:+ ": command not found" +:+ CRLF) in
  match output with
  | None => ret tt           (* the empty command returns at once *)
  | Some out =>
      if nonempty out
      then response <- NewTerminalOutput out cmd None ;; send response
      else ret tt
  end.

Definition showPrompt (s : ShellSession) : M unit :=
  response <- NewTerminalOutput (prompt s) EmptyString None ;;
  send response.

Definition processCommand (s : ShellSession) : M ShellSession :=
  let cmd := TrimSpace (currentInput s) in
  response <- NewTerminalOutput CRLF EmptyString None ;;
  send response ;;;
  executeCommand cmd ;;;
  let s' := mkShellSession EmptyString (prompt s) in
  showPrompt s' ;;;
  ret s'.

Definition printable (c : ascii) : bool := between 32 126 c.

Definition HandleInput (s : ShellSession) (input : string) : M ShellSession :=
  if String.eqb input (str1 CR) || String.eqb input (str1 LF)
  then processCommand s
  else if String.eqb input (str1 DEL)
  then handleBackspace s
  else
    match input with
    | String c EmptyString =>
        if printable c
        then
          let s' := mkShellSession (currentInput s +:+ input) (prompt s) in
          sendOutput input ;;;
          ret s'
        else ret s
    | _ => ret s
    end.

Definition handleRequestPrompt (s : ShellSession) : M unit := showPrompt s.

(** ** [HandlerDeps.HandleWs]: the handler in front of the simulated shell

    A connection is the result of the upgrade and the frames the client
    sends before [conn.ReadMessage] reports an error. *)

Module HandlerDeps.

(** The body of the read loop for one frame that was read. *)
Definition serve_frame (shell : ShellSession) (p : string) : M ShellSession :=
  let '(msg, err) := ParseMessage p in
  match err with
  | Some e =>
      log (LogInvalidFormat e) ;;;
      errMsg <- NewSystemMessage "Invalid message format" ;;
      send errMsg ;;;
      ret shell
  | None =>
      if String.eqb (Type_ msg) MessageTypeTerminalInput
      then HandleInput shell (Data msg)
      else if String.eqb (Type_ msg) MessageTypeRequestPrompt
      then handleRequestPrompt shell ;;; ret shell
      else log (LogUnhandled (Type_ msg)) ;;; ret shell
  end.

Fixpoint serve (shell : ShellSession) (frames : list string) : M ShellSession :=
  match frames with
  | [] => log LogReadError ;;; ret shell
  | p :: rest => shell' <- serve_frame shell p ;; serve shell' rest
  end.

Definition HandleWs (upgraded : bool) (frames : list string) : M unit :=
  if negb upgraded then log LogUpgradeError
  else
    log LogNewConnection ;;;
    shell <- NewShellSession ;;
    connMsg <- NewConnectionStateMessage ConnectionStateConnected
                 "WebSocket connection established" ;;
    send connMsg ;;;
    log LogShellStarted ;;;
    _ <- serve shell frames ;;
    ret tt.

End HandlerDeps.

(** ** [Connection.HandleWs] ([websocket.go]) *)

(** Modelled from the spec: the lifecycle states of a session (section
    4.4).  [ShellConnection], [NewShellConnection] and [Connect] are used
    by [websocket.go] and declared nowhere in the sources. *)
Inductive SessionState : Type :=
| Idle | Connecting | Active | Closing | Closed | Failed.

(** Modelled from the spec: the session of a connection, with the
    lifecycle state and the terminal geometry section 3 gives it. *)
Record ShellConnection : Type := mkShellConnection {
  state : SessionState;
  cols : Z;
  rows : Z
}.

(** Modelled from the spec: a new session is idle, its geometry not yet
    set. *)
Definition NewShellConnection : M ShellConnection :=
  emit EvNewShell ;;;
  ret {| state := Idle; cols := 0; rows := 0 |}.

(** Modelled from the spec: a connection request takes an idle session
    to [Active] when the remote shell starts and to [Failed] when it does
    not (section 4.4); no other state accepts one.  Whether the remote
    host accepts is the world's. *)
Definition Connect (shell : ShellConnection) (md : MessageMetadata)
  : M (ShellConnection * option error) :=
  match state shell with
  | Idle =>
      fun w =>
        let ok := remote w md in
        let '(_, w') := emit (EvDial md ok) w in
        if ok
        then ((mkShellConnection Active (cols shell) (rows shell), None), w')
        else ((mkShellConnection Failed (cols shell) (rows shell),
               Some ConnectError), w')
  | _ => ret (shell, Some ConnectError)
  end.

Module Connection.

Definition handleConnectionRequest (msg : Message) (shell : ShellConnection)
  : M (ShellConnection * option error) :=
  match Metadata msg with
  | Some md =>
      r <- Connect shell md ;;
      let '(shell', err) := r in
      match err with
      | Some e => ret (shell', Some e)
      | None =>
          log (LogShellConnected (SSHUser md)) ;;;
          connMsg <- NewConnectionStateMessage ConnectionStateConnected
                       "Shell session connected" ;;
          match ToJSON connMsg with
          | inr e => ret (shell', Some e)
          | inl data =>
              werr <- WriteMessage data ;;
              ret (shell', werr)
          end
      end
  | None =>
      log LogMissingMetadata ;;;
      ret (shell, Some ErrInvalidMessageFormat)
  end.

(** The body of the read loop for one frame that was read. *)
Definition serve_frame (shell : ShellConnection) (p : string)
  : M ShellConnection :=
  let '(msg, err) := ParseMessage p in
  match err with
  | Some e =>
      log (LogInvalidFormat e) ;;;
      errMsg <- NewSystemMessage "Invalid message format" ;;
      send errMsg ;;;
      ret shell
  | None =>
      if String.eqb (Type_ msg) MessageTypeConnectionRequest
      then
        r <- handleConnectionRequest msg shell ;;
        let '(shell', err') := r in
        match err' with
        | Some e =>
            log (LogConnectionRequestFailed e) ;;;
            errMsg <- NewSystemMessage "Failed to handle connection request" ;;
            send errMsg ;;;
            ret shell'
        | None => ret shell'
        end
      else log (LogUnhandled (Type_ msg)) ;;; ret shell
  end.

Fixpoint serve (shell : ShellConnection) (frames : list string)
  : M ShellConnection :=
  match frames with
  | [] => log LogReadError ;;; ret shell
  | p :: rest => shell' <- serve_frame shell p ;; serve shell' rest
  end.

(** [defer conn.Close()] runs when the handler returns. *)
Definition HandleWs (upgraded : bool) (frames : list string) : M unit :=
  if negb upgraded then log LogUpgradeError
  else
    log LogNewConnection ;;;
    shell <- NewShellConnection ;;
    connMsg <- NewConnectionStateMessage ConnectionStateConnected
                 "WebSocket connection established" ;;
    send connMsg ;;;
    log LogShellStarted ;;;
    _ <- serve shell frames ;;
    emit EvClose.

End Connection.

End Handler.

(** ** package config ([NewServer] and its helpers) *)

Module Config.

(** [time.Duration]: a number of nanoseconds. *)
Definition Duration : Type := Z.
Definition Second : Duration := 1000000000.

Definition DefaultPort : string := "3000".
Definition DefaultFrontendDir : string := "frontend".
Definition DefaultReadTimeout : Duration := 30 * Second.
Definition DefaultWriteTimeout : Duration := 30 * Second.
Definition DefaultMaxConnections : Z := 100.
Definition DefaultReadBufferSize : Z := 1024.
Definition DefaultWriteBufferSize : Z := 1024.

Record Server : Type := mkServer {
  Port : string;
  FrontendDir : string;
  ReadTimeout : Duration;
  WriteTimeout : Duration;
  MaxConnections : Z;
  ReadBufferSize : Z;
  WriteBufferSize : Z
}.

(** A reading of [time.ParseDuration] with exact arithmetic: a sign, then
    one or more groups of digits, an optional fraction and a unit.  The
    library rounds the fraction through [float64]; here it is truncated
    exactly.  The code below is stated for any parser, this one fills the
    examples. *)
Definition unit_of (u : string) : option Z :=
  if String.eqb u "ns" then Some 1
  else if String.eqb u "us" || String.eqb u "µs" || String.eqb u "μs"
  then Some 1000
  else if String.eqb u "ms" then Some 1000000
  else if String.eqb u "s" then Some 1000000000
  else if String.eqb u "m" then Some 60000000000
  else if String.eqb u "h" then Some 3600000000000
  else None.

Fixpoint span_unit (s : string) : string * string :=
  match s with
  | String c s' =>
      if is_digit c || Ascii.eqb c "."
      then (EmptyString, s)
      else let '(u, r) := span_unit s' in (String c u, r)
  | EmptyString => (EmptyString, EmptyString)
  end.

Fixpoint groups (fuel : nat) (s : string) (d : Z) : option Z :=
  match fuel, s with
  | _, EmptyString => Some d
  | O, _ => None
  | S f, _ =>
      let '(ip, s1) := Time.span_digits s in
      let '(fp, s2) :=
        match s1 with
        | String "." r => Time.span_digits r
        | _ => (EmptyString, s1)
        end in
      let '(u, s3) := span_unit s2 in
      if Handler.nonempty ip || Handler.nonempty fp then
        match unit_of u, Strconv.digits_value 0 ip, Strconv.digits_value 0 fp with
        | Some unit, Some v, Some fr =>
            let d' := d + v * unit + fr * unit / 10 ^ Z.of_nat (String.length fp) in
            if d' <=? 2 ^ 63 then groups f s3 d' else None
        | _, _, _ => None
        end
      else None
  end.

Definition ParseDuration_exact (s : string) : option Duration :=
  let '(neg, body) :=
    match s with
    | String "-" r => (true, r)
    | String "+" r => (false, r)
    | _ => (false, s)
    end in
  if String.eqb body "0" then Some 0
  else
    match body with
    | EmptyString => None
    | _ =>
        match groups (String.length body) body 0 with
        | Some d =>
            if neg then Some (- d)
            else if d <=? 2 ^ 63 - 1 then Some d else None
        | None => None
        end
    end.

Section Helpers.

(** [time.ParseDuration]; [None] is its error. *)
Variable ParseDuration : string -> option Duration.

Definition parseDuration (value : string) (defaultValue : Duration) : Duration :=
  if String.eqb value EmptyString then defaultValue
  else
    match ParseDuration value with
    | Some duration => if duration <=? 0 then defaultValue else duration
    | None => defaultValue
    end.

Definition parseInt (value : string) (defaultValue : Z) : Z :=
  if String.eqb value EmptyString then defaultValue
  else
    match Strconv.Atoi value with
    | Some intValue => if intValue <=? 0 then defaultValue else intValue
    | None => defaultValue
    end.

(** [os.Getenv]: the empty string for a variable that is not set. *)
Definition Getenv (env : gmap string string) (key : string) : string :=
  default EmptyString (env !! key).

Definition or_default (v d : string) : string :=
  if String.eqb v EmptyString then d else v.

(** [NewServer]; [DefaultReadTimeout.String()] prints [30s]. *)
Definition NewServer (env : gmap string string) : Server :=
  let port := or_default (Getenv env "WEB_SSH_PORT") DefaultPort in
  let frontendDir :=
    or_default (Getenv env "WEB_SSH_FRONTEND_DIR") DefaultFrontendDir in
  let readTimeout := or_default (Getenv env "WEB_SSH_READ_TIMEOUT") "30s" in
  let writeTimeout := or_default (Getenv env "WEB_SSH_WRITE_TIMEOUT") "30s" in
  let maxConnections :=
    or_default (Getenv env "WEB_SSH_MAX_CONNECTIONS")
      (Strconv.Itoa DefaultMaxConnections) in
  let readBufferSize :=
    or_default (Getenv env "WEB_SSH_READ_BUFFER_SIZE")
      (Strconv.Itoa DefaultReadBufferSize) in
  let writeBufferSize :=
    or_default (Getenv env "WEB_SSH_WRITE_BUFFER_SIZE")
      (Strconv.Itoa DefaultWriteBufferSize) in
  {| Port := port;
     FrontendDir := frontendDir;
     ReadTimeout := parseDuration readTimeout DefaultReadTimeout;
     WriteTimeout := parseDuration writeTimeout DefaultWriteTimeout;
     MaxConnections := parseInt maxConnections DefaultMaxConnections;
     ReadBufferSize := parseInt readBufferSize DefaultReadBufferSize;
     WriteBufferSize := parseInt writeBufferSize DefaultWriteBufferSize |}.

End Helpers.

End Config.

(** ** The properties the specification names, in its words *)

Module Spec.
Import Handler.

(** A CSI sequence for colour or erase-in-line: ESC, an opening bracket,
    parameters made of digits and semicolons, then [m] or [K]. *)
Definition csi_param (c : ascii) : bool := is_digit c || Ascii.eqb c ";".

Definition csi_sequence (p : string) : Prop :=
  exists params f,
    p = String ESC (String "[" (params +:+ str1 f)) /\
    all csi_param params = true /\
    (f = "m"%char \/ f = "K"%char).

Definition has_csi (s : string) : Prop :=
  exists a p q, s = a +:+ p +:+ q /\ csi_sequence p.

(** The bytes of 7-bit ASCII. *)
Definition ascii7 (c : ascii) : bool := code c <? 0x80.

(** What a JSON reader gets back for a string that [json.Marshal] wrote. *)
Definition json_text (s : string) : string :=
  Json.unquote (Json.appendString_go 0 s).

(** The members of a nested JSON payload whose values are all strings,
    as a reader of the [data] field sees them. *)
Definition payload_members (data : string) : option (list (string * string)) :=
  match Json.parse data with
  | Some (Json.Object ms) =>
      mapM (fun '(k, v) =>
              match v with
              | Json.Str raw => Some (Json.unquote k, Json.unquote raw)
              | _ => None
              end) ms
  | _ => None
  end.

(** Modelled from the spec: the message types of the wire protocol
    (section 6). *)
Definition wire_types : list MessageType :=
  ["connection_request"; "terminal_input"; "terminal_output";
   "terminal_error"; "system_message"; "connection_state"; "resize";
   "terminal_resize"; "request_prompt"]%string.

(** A literal with single quotes for the double quotes of JSON. *)
Fixpoint js (s : string) : string :=
  match s with
  | EmptyString => EmptyString
  | String c r => String (if Ascii.eqb c "'" then DQUOTE else c) (js r)
  end.

(** The frame [ToJSON] writes for a message (empty if it fails). *)
Definition frame_of (m : Message) : string :=
  match ToJSON m with
  | inl data => data
  | inr _ => EmptyString
  end.

(** A frame whose envelope opens with the type [t], as [ToJSON] writes
    it. *)
Definition frame_has_type (t : MessageType) (f : string) : bool :=
  String.prefix ("{" +:+ member "type" (Json.appendString t) +:+ ",") f.

(** The shell sessions a trace creates. *)
Definition is_new_shell (e : Event) : bool :=
  match e with EvNewShell => true | _ => false end.

Definition sessions (tr : list Event) : nat :=
  length (List.filter is_new_shell tr).

(** The events that follow the first read error of a trace. *)
Fixpoint after_read_error (tr : list Event) : list Event :=
  match tr with
  | [] => []
  | EvLog LogReadError :: rest => rest
  | _ :: rest => after_read_error rest
  end.

(** The geometry a resize message asks for: the frontend
    ([notifyTerminalResize]) puts the JSON object of [cols] and [rows]
    in [data]. *)
Definition json_int (key : string) (ms : list (string * Json.value)) : option Z :=
  match find (fun '(k, _) => String.eqb (Json.unquote k) key) ms with
  | Some (_, Json.Number lit) => Strconv.Atoi lit
  | _ => None
  end.

Definition resize_request (m : Message) : option (Z * Z) :=
  match Json.parse (Data m) with
  | Some (Json.Object ms) =>
      match json_int "cols" ms, json_int "rows" ms with
      | Some c, Some r => Some (c, r)
      | _, _ => None
      end
  | _ => None
  end.

(** Modelled from the spec: the two names section 6 gives the resize
    type; the frontend sends [terminal_resize]. *)
Definition resize_types : list MessageType :=
  ["resize"; "terminal_resize"]%string.

(** A run of [HandleInput] over the inputs of a client. *)
Fixpoint HandleInputs (s : ShellSession) (inputs : list string)
  : M ShellSession :=
  match inputs with
  | [] => ret s
  | i :: rest => bind (HandleInput s i) (fun s' => HandleInputs s' rest)
  end.

(** What the body of a read loop may do: log (but not a read error),
    write a frame, dial.  It creates no session and closes nothing. *)
Definition frame_event (e : Event) : bool :=
  match e with
  | EvLog LogReadError => false
  | EvLog _ => true
  | EvWrite _ => true
  | EvDial _ _ => true
  | EvClose => false
  | EvNewShell => false
  end.

(** A computation that only adds events that [Q] accepts. *)
Definition grows {A} (Q : Event -> bool) (c : M A) : Prop :=
  forall w, exists n es, snd (c w) = advance n es w /\ forallb Q es = true.

(** ** Messages and worlds the handlers produce *)

(** The message [NewTerminalOutput] builds at a given time. *)
Definition output_message (o c : string) (e : option Z) (now : Time) : Message :=
  mkMessage MessageTypeTerminalOutput o now
    (Some (mkMetadata (containsAnsiCodes o) e c EmptyString EmptyString
             EmptyString)).

(** Only frames of terminal output. *)
Definition output_only (e : Event) : bool :=
  match e with
  | EvWrite f => frame_has_type MessageTypeTerminalOutput f
  | _ => false
  end.

(** The system message a handler answers a failure with, and the world
    after a frame that did not decode. *)
Definition diagnostic (text : string) (w : World) : Message :=
  mkMessage MessageTypeSystemMessage text (clock w (ticks w)) None.

Definition diagnosed (e : error) (w : World) : World :=
  advance 1
    (EvLog (LogInvalidFormat e) ::
     if Time.marshalable (clock w (ticks w))
     then [EvWrite (frame_of (diagnostic "Invalid message format" w))]
     else []) w.

(** The world after a frame of a type the handler has no case for. *)
Definition unhandled (t : MessageType) (w : World) : World :=
  advance 0 [EvLog (LogUnhandled t)] w.

(** The greeting both handlers send after the upgrade. *)
Definition greeting (w : World) : list Event :=
  if Time.marshalable (clock w (ticks w))
  then [EvWrite (frame_of
          (mkMessage MessageTypeConnectionState
             (marshal_ConnectionStateMessage
                (mkConnectionStateMessage ConnectionStateConnected
                   "WebSocket connection established"))
             (clock w (ticks w)) None))]
  else [].

End Spec.

(** ** Connections used in the examples *)

Module Examples.
Import Handler Spec.

Definition t0 : Time := Time.mkTime 2025 8 12 14 0 0 0 0.

(** A world whose clock stands still, whose writes succeed and whose
    remote host accepts every request. *)
Definition w0 : World :=
  mkWorld (fun _ => t0) 0 (fun _ => false) (fun _ => true) [].

Definition idle : ShellConnection := mkShellConnection Idle 0 0.

Definition fresh : ShellSession :=
  mkShellSession EmptyString "user@webssh:~$ ".

Definition bogus_frame : string := js "{'type':'bogus','data':'x'}".

Definition broken_frame : string := js "{'type':'terminal_input'".

Definition input_x_frame : string :=
  js "{'type':'terminal_input','data':'x','timestamp':'2025-08-12T14:00:00.000Z'}".

Definition connect_frame : string :=
  js "{'type':'connection_request','data':'','metadata':{'ssh_host':'example.org','ssh_user':'alice'}}".

Definition resize_frame : string :=
  js "{'type':'terminal_resize','data':'{\'cols\':132,\'rows\':50}','timestamp':'2025-08-12T14:00:00.000Z'}".

End Examples.

(** ** Runs of the simulated shell *)

Module ShellRuns.
Import Handler Spec.

(** The keystrokes of a text: one input per byte. *)
Definition keys (t : string) : list string :=
  map str1 (list_ascii_of_string t).

(** What one [NewTerminalOutput] followed by the guarded write adds to
    the trace: the frame, unless the timestamp cannot be marshalled. *)
Definition sent (o c : string) (now : Time) : list Event :=
  if Time.marshalable now
  then [EvWrite (frame_of (output_message o c None now))]
  else [].

(** The frames of the outputs [outs] (each with the command it names),
    stamped with consecutive readings of the clock from the [n]-th on. *)
Fixpoint stamped (clock : nat -> Time) (n : nat) (outs : list (string * string))
  : list Event :=
  match outs with
  | [] => []
  | (o, c) :: rest => sent o c (clock n) ++ stamped clock (S n) rest
  end.

(** An output with no command. *)
Definition bare (o : string) : string * string := (o, EmptyString).

(** A frame of terminal output whose metadata does not flag ANSI codes. *)
Definition unflagged (e : Event) : Prop :=
  exists o c now,
    e = EvWrite (frame_of (output_message o c None now)) /\
    containsAnsiCodes o = false.

Definition not_esc (c : ascii) : bool := negb (Ascii.eqb c ESC).

(** Some substring is ESC followed by an opening bracket. *)
Fixpoint has_esc_bracket (s : string) : bool :=
  match s with
  | String c (String d _ as r) =>
      (Ascii.eqb c ESC && Ascii.eqb d "[") || has_esc_bracket r
  | _ => false
  end.

(** The world [w] with another oracle for the failure of writes. *)
Definition with_write_fails (f : nat -> bool) (w : World) : World :=
  mkWorld (clock w) (ticks w) f (remote w) (trace w).

(** Two worlds that differ in that oracle at most. *)
Definition alike (w1 w2 : World) : Prop :=
  clock w1 = clock w2 /\ ticks w1 = ticks w2 /\ remote w1 = remote w2 /\
  trace w1 = trace w2.

(** A computation whose result and effects do not depend on whether
    writes fail. *)
Definition oblivious {A} (c : M A) : Prop :=
  forall w1 w2, alike w1 w2 ->
    fst (c w1) = fst (c w2) /\ alike (snd (c w1)) (snd (c w2)).

End ShellRuns.

(** ** The frontend ([terminal.js], [app.js])

    A JavaScript string is a sequence of UTF-16 code units. *)

Module Frontend.
Import Handler.

Definition JsString : Type := list Z.

(** The JavaScript string of an ASCII text. *)
Definition units (s : string) : JsString := map code (list_ascii_of_string s).

(** [data === c] for a string [c] of one code unit. *)
Definition is1 (data : JsString) (u : Z) : bool :=
  match data with
  | [d] => d =? u
  | _ => false
  end.

(** [isNavigationKey] ([terminal.js]). *)
Definition isNavigationKey (data : JsString) : bool :=
  let other := is1 data 0x01 || is1 data 0x05 || is1 data 0x0c in
  match data with
  | d0 :: d1 :: key :: _ =>
      if (d0 =? 0x1b) && (d1 =? 0x5b)
      then (key =? 0x41) || (key =? 0x42) || (key =? 0x43) || (key =? 0x44)
      else other
  | _ => other
  end.

(** One alternative of the pattern of [containsAnsiEscapeCodes]: ESC, an
    opening bracket, digits and semicolons, then a byte of [final]. *)
Definition csi (final : list (ascii * ascii)) : Regexp.re :=
  Regexp.Cat (Regexp.Lit ESC)
    (Regexp.Cat (Regexp.Lit "[")
       (Regexp.Cat (Regexp.Star (Regexp.Class [("0", "9"); (";", ";")]%char))
          (Regexp.Class final))).

Definition ansiRegex_js : Regexp.re :=
  Regexp.Alt (csi [("m", "m"); ("K", "K")]%char)
    (Regexp.Alt (csi [("A", "A"); ("B", "B"); ("C", "C"); ("D", "D")]%char)
       (csi [("J", "J"); ("H", "H")]%char)).

(** [containsAnsiEscapeCodes] ([app.js]).  The pattern is pure ASCII: it
    matches in the UTF-16 text exactly when it matches in the UTF-8 bytes
    the backend sent, and it is stated on those. *)
Definition containsAnsiEscapeCodes (text : string) : bool :=
  Regexp.MatchString ansiRegex_js text.

(** [String.prototype.trim]: white space and line terminators. *)
Definition isWhiteSpace (u : Z) : bool :=
  (u =? 0x09) || (u =? 0x0A) || (u =? 0x0B) || (u =? 0x0C) || (u =? 0x0D) ||
  (u =? 0x20) || (u =? 0xA0) || (u =? 0x1680) ||
  ((0x2000 <=? u) && (u <=? 0x200A)) ||
  (u =? 0x2028) || (u =? 0x2029) || (u =? 0x202F) || (u =? 0x205F) ||
  (u =? 0x3000) || (u =? 0xFEFF).

Fixpoint trimStart (s : JsString) : JsString :=
  match s with
  | u :: r => if isWhiteSpace u then trimStart r else s
  | [] => []
  end.

Definition trim (s : JsString) : JsString :=
  rev (trimStart (rev (trimStart s))).

(** The class [\w] of a pattern without the [u] flag. *)
Definition isWord (u : Z) : bool :=
  ((0x30 <=? u) && (u <=? 0x39)) || ((0x41 <=? u) && (u <=? 0x5A)) ||
  ((0x61 <=? u) && (u <=? 0x7A)) || (u =? 0x5F).

(** What [/[^\w\-_]/g] leaves in place. *)
Definition kept (u : Z) : bool := isWord u || (u =? 0x2D) || (u =? 0x5F).

(** [sanitizeInput] ([app.js]); [None] is an input that is no string. *)
Definition sanitizeInput (input : option JsString) : JsString :=
  match input with
  | None => []
  | Some s => List.filter kept (trim s)
  end.

Definition minKeyLength : Z := 8.
Definition maxKeyLength : Z := 256.

(** [keyPattern.test(key)] for [/^[A-Za-z0-9\-_]+$/]. *)
Definition keyPattern_test (key : JsString) : bool :=
  let member u :=
    ((0x41 <=? u) && (u <=? 0x5A)) || ((0x61 <=? u) && (u <=? 0x7A)) ||
    ((0x30 <=? u) && (u <=? 0x39)) || (u =? 0x2D) || (u =? 0x5F) in
  match key with
  | [] => false
  | _ => forallb member key
  end.

(** [validateAPIKey] and [dummyValidateAPIKey] ([app.js]), which have
    the same body; the result is read as a truth value. *)
Definition validateAPIKey (key : JsString) : bool :=
  negb (Nat.eqb (length key) 0) &&
  (minKeyLength <=? Z.of_nat (length key)) &&
  (Z.of_nat (length key) <=? maxKeyLength) &&
  keyPattern_test key.

End Frontend.

(** ** package config: [Validate], [SetDefaults] and [FrontendDir.Build] *)

Module ConfigValidate.
Import Config.

(** The error [Validate] joins to [ErrInvalidConfig]. *)
Inductive error : Type :=
| ErrInvalidPort
| ErrInvalidDir
| ErrInvalidTimeout
| ErrInvalidMaxConnections.

(** What [Build] asks of the operating system. *)
Record FileSystem : Type := mkFileSystem {
  not_exist : string -> bool;  (* os.IsNotExist of the error of os.Stat *)
  Getwd : option string        (* os.Getwd; [None] is its error *)
}.

(** A call that [log.Fatal] may end together with the process. *)
Inductive outcome (A : Type) : Type :=
| Returns (a : A)
| Exits.
Arguments Returns {A} a.
Arguments Exits {A}.

(** The bytes [strconv.Atoi] accepts: a sign and decimal digits. *)
Definition numeric (c : ascii) : bool :=
  is_digit c || Ascii.eqb c "+" || Ascii.eqb c "-".

(** [filepath.IsAbs] on Unix. *)
Definition IsAbs (path : string) : bool := Handler.HasPrefix path "/".

Section Build.

(** [filepath.Join]. *)
Variable Join : list string -> string.
Variable fs : FileSystem.

(** [(f *FrontendDir) Build]: the directory, made absolute, and the
    error, which is always [nil]. *)
Definition Build (f : string) : outcome (string * option error) :=
  if IsAbs f then
    if not_exist fs f then Exits else Returns (f, None)
  else
    match Getwd fs with
    | None => Exits
    | Some wd =>
        let f' := Join [wd; ".."%string; f] in
        if not_exist fs f' then Exits else Returns (f', None)
    end.

(** The path [Build] hands to [os.Stat]: the directory itself when it is
    absolute, the working directory, [..] and the directory joined when
    it is not; none when the working directory cannot be read. *)
Definition stat_path (f : string) : option string :=
  if IsAbs f then Some f
  else
    match Getwd fs with
    | Some wd => Some (Join [wd; ".."%string; f])
    | None => None
    end.

Definition with_FrontendDir (s : Server) (f : string) : Server :=
  mkServer (Port s) f (ReadTimeout s) (WriteTimeout s) (MaxConnections s)
    (ReadBufferSize s) (WriteBufferSize s).

(** [(s *Server) Validate]: the configuration as the call leaves it and
    the error. *)
Definition Validate (s : Server) : outcome (Server * option error) :=
  match Strconv.Atoi (Port s) with
  | None => Returns (s, Some ErrInvalidPort)
  | Some port =>
      if port <=? 0 then Returns (s, Some ErrInvalidPort)
      else if ReadTimeout s <=? 0 then Returns (s, Some ErrInvalidTimeout)
      else if WriteTimeout s <=? 0 then Returns (s, Some ErrInvalidTimeout)
      else if MaxConnections s <=? 0
      then Returns (s, Some ErrInvalidMaxConnections)
      else if String.eqb (FrontendDir s) EmptyString
      then Returns (s, Some ErrInvalidDir)
      else
        match Build (FrontendDir s) with
        | Exits => Exits
        | Returns (f, Some _) => Returns (with_FrontendDir s f, Some ErrInvalidDir)
        | Returns (f, None) => Returns (with_FrontendDir s f, None)
        end
  end.

End Build.

(** [(s *Server) SetDefaults]. *)
Definition SetDefaults (s : Server) : Server :=
  {| Port := DefaultPort;
     FrontendDir := DefaultFrontendDir;
     ReadTimeout := DefaultReadTimeout;
     WriteTimeout := DefaultWriteTimeout;
     MaxConnections := DefaultMaxConnections;
     ReadBufferSize := DefaultReadBufferSize;
     WriteBufferSize := DefaultWriteBufferSize |}.

(** The variables [NewServer] reads. *)
Definition variables : list string :=
  ["WEB_SSH_PORT"; "WEB_SSH_FRONTEND_DIR"; "WEB_SSH_READ_TIMEOUT";
   "WEB_SSH_WRITE_TIMEOUT"; "WEB_SSH_MAX_CONNECTIONS";
   "WEB_SSH_READ_BUFFER_SIZE"; "WEB_SSH_WRITE_BUFFER_SIZE"]%string.

(** A join that only puts the separators in; [filepath.Join] also
    cleans the result.  The statements below hold for every join, this
    one fills the examples. *)
Definition join_raw (elems : list string) : string := String.concat "/" elems.

End ConfigValidate.

(** ** package server: [New] and the health endpoint of [newMux] *)

Module Server.
Import ConfigValidate.

Record Upgrader : Type := mkUpgrader {
  ReadBufferSize : Z;
  WriteBufferSize : Z
}.

Record Server : Type := mkServer {
  Port : string;
  FrontendDir : string;
  Upgrader_ : Upgrader;
  Addr : string;             (* server.Addr *)
  root : string;             (* the directory the file server of [newMux] serves *)
  health : string            (* the body the /health handler of [newMux] writes *)
}.

(** [fmt.Fprintf(w, `{"status": "healthy", "port": "%s"}`, cfg.Port)]. *)
Definition health_body (port : string) : string :=
  "{" +:+ String DQUOTE "status" +:+ String DQUOTE ": " +:+
  String DQUOTE "healthy" +:+ String DQUOTE ", " +:+
  String DQUOTE "port" +:+ String DQUOTE ": " +:+
  String DQUOTE port +:+ String DQUOTE "}".

Section New.

Variable Join : list string -> string.
Variable fs : FileSystem.

(** [New]: a configuration that does not validate is replaced by the
    defaults. *)
Definition New (cfg : Config.Server) : outcome Server :=
  match Validate Join fs cfg with
  | Exits => Exits
  | Returns (cfg1, err) =>
      let cfg2 :=
        match err with
        | Some _ => SetDefaults cfg1
        | None => cfg1
        end in
      Returns
        {| Port := Config.Port cfg2;
           FrontendDir := Config.FrontendDir cfg2;
           Upgrader_ := {| ReadBufferSize := Config.ReadBufferSize cfg2;
                           WriteBufferSize := Config.WriteBufferSize cfg2 |};
           Addr := ":" +:+ Config.Port cfg2;
           root := Config.FrontendDir cfg2;
           health := health_body (Config.Port cfg2) |}
  end.

End New.

End Server.

(** ** Configurations used in the examples *)

Module StartupExamples.
Import Config ConfigValidate.

(** A file system where nothing exists and the working directory cannot
    be read. *)
Definition barren : FileSystem := mkFileSystem (fun _ => true) None.

(** A file system that holds the directory of the backend and nothing
    beside it. *)
Definition backend_only : FileSystem :=
  mkFileSystem (fun path => negb (String.eqb path "/srv/web-ssh/backend"))
    (Some "/srv/web-ssh/backend"%string).

(** A file system where every path exists. *)
Definition plentiful : FileSystem :=
  mkFileSystem (fun _ => false) (Some "/srv/web-ssh/backend"%string).

(** What [server.New] builds from the defaults. *)
Definition default_server : Server.Server :=
  Server.mkServer "3000" "frontend" (Server.mkUpgrader 1024 1024)
    ":3000" "frontend" (Server.health_body "3000").

End StartupExamples.

(** ** Decimal digits *)

Module Decimal.

(** The [w] low decimal digits of [n], the most significant first. *)
Fixpoint dec (w : nat) (n : Z) : string :=
  match w with
  | O => EmptyString
  | S k => String (chr (48 + (n / 10 ^ Z.of_nat k) mod 10)) (dec k n)
  end.

(** [k] zeros, as [appendInt] pads with them. *)
Definition zeros (k : nat) : string :=
  String.concat EmptyString (repeat "0"%string k).

(** [n] is in the range of Go's [int]. *)
Definition is_int (n : Z) : bool :=
  (Strconv.minInt <=? n) && (n <=? Strconv.maxInt).

End Decimal.

(** ** Instants *)

Module Instant.

(** The fields of an instant as [time.Now] returns it: a day of the
    calendar, a time of day, and a zone offset of whole minutes. *)
Definition wellformed (t : Time) : bool :=
  (1 <=? Time.month t) && (Time.month t <=? 12) &&
  (1 <=? Time.day t) && (Time.day t <=? Time.daysIn (Time.month t) (Time.year t)) &&
  (0 <=? Time.hour t) && (Time.hour t <=? 23) &&
  (0 <=? Time.minute t) && (Time.minute t <=? 59) &&
  (0 <=? Time.second t) && (Time.second t <=? 59) &&
  (0 <=? Time.nanosecond t) && (Time.nanosecond t <=? 999999999) &&
  (Z.rem (Time.offset t) 60 =? 0).

(** The zone suffix [formatRFC3339Nano] writes. *)
Definition zone_text (offset : Z) : string :=
  if offset =? 0 then "Z"%string
  else
    let zone := Z.quot offset 60 in
    (if zone <? 0 then "-" else "+") +:+
    Time.appendInt (Z.abs zone / 60) 2 +:+ ":" +:+
    Time.appendInt (Z.abs zone mod 60) 2.

(** The fraction of a second and what follows it, as [parseRFC3339]
    reads them off the text behind the seconds. *)
Definition fraction (rest : string) : Z * string :=
  match rest with
  | String "." (String c _ as frac) =>
      if is_digit c
      then let '(ds, r) := Time.span_digits frac in
           (Time.parseNanoseconds ds, r)
      else (0, rest)
  | _ => (0, rest)
  end.

End Instant.

(** ** Encoded objects and the trees a reader builds for them *)

Module Wire.
Import Handler.

(** A member of an encoded object: its name, the text of its value and
    the token tree of that value. *)
Definition field : Type := (string * string * Json.value)%type.

Definition member_of (f : field) : string :=
  let '(k, text, _) := f in member k text.

Definition entry_of (f : field) : string * Json.value :=
  let '(k, _, v) := f in (k, v).

(** Text the string encoder writes as it is. *)
Definition safe (s : string) : bool :=
  all (fun c => Json.htmlSafe (code c)) s.

(** The bytes that may follow a value inside an object. *)
Definition closes (delim : ascii) : bool :=
  Ascii.eqb delim "," || Ascii.eqb delim "}".

(** The scanner reads [text] as the value [v], under at most [d] open
    objects and arrays. *)
Definition prints (d : nat) (text : string) (v : Json.value) : Prop :=
  forall stk delim rest,
    (length stk <= d)%nat -> closes delim = true ->
    Json.scan (Json.mkScanner Json.BeginValue EmptyString stk None)
      (text +:+ String delim rest) =
    match Json.complete v stk with
    | Some sc =>
        match Json.endValue sc delim with
        | Some sc' => Json.scan sc' rest
        | None => None
        end
    | None => None
    end.

(** A member with a name written as it is and a value that reads as
    its tree. *)
Definition well_printed (d : nat) (f : field) : Prop :=
  let '(k, text, v) := f in safe k = true /\ prints d text v.

(** A string member as Go writes it. *)
Definition string_field (name s : string) : field :=
  (name, Json.appendString s, Json.Str (Json.appendString_go 0 s)).

Definition optional (name s : string) : list field :=
  if nonempty s then [string_field name s] else [].

(** The members [json.Marshal] writes for a [MessageMetadata]. *)
Definition metadata_fields_of (md : MessageMetadata) : list field :=
  (if HasAnsi md
   then [("has_ansi"%string, "true"%string, Json.Bool true)] else []) ++
  match ExitCode md with
  | Some n => [("exit_code"%string, Strconv.Itoa n, Json.Number (Strconv.Itoa n))]
  | None => []
  end ++
  optional "command" (Command md) ++
  optional "ssh_host" (SSHHost md) ++
  optional "ssh_user" (SSHUser md) ++
  optional "session_id" (SessionID md).

(** The members [json.Marshal] writes for a [Message]. *)
Definition message_fields_of (m : Message) : list field :=
  [string_field "type" (Type_ m);
   string_field "data" (Data m);
   string_field "timestamp" (Time.formatRFC3339Nano (Timestamp m))] ++
  match Metadata m with
  | Some md =>
      [("metadata"%string, marshal_Metadata md,
        Json.Object (map entry_of (metadata_fields_of md)))]
  | None => []
  end.

(** The metadata a reader gets back: the strings as JSON carries them. *)
Definition reread_metadata (md : MessageMetadata) : MessageMetadata :=
  mkMetadata (HasAnsi md) (ExitCode md)
    (Spec.json_text (Command md)) (Spec.json_text (SSHHost md))
    (Spec.json_text (SSHUser md)) (Spec.json_text (SessionID md)).

Definition reread (m : Message) : Message :=
  mkMessage (Spec.json_text (Type_ m)) (Spec.json_text (Data m)) (Timestamp m)
    (option_map reread_metadata (Metadata m)).

(** A message a Go program can hold and RFC 3339 can date: the
    timestamp is an instant in the years 0 to 9999, the exit code an
    [int]. *)
Definition sendable (m : Message) : bool :=
  Instant.wellformed (Timestamp m) && Time.marshalable (Timestamp m) &&
  match Metadata m with
  | Some md =>
      match ExitCode md with
      | Some n => Decimal.is_int n
      | None => true
      end
  | None => true
  end.

(** All text of the message is 7-bit ASCII. *)
Definition ascii_message (m : Message) : bool :=
  all Spec.ascii7 (Type_ m) && all Spec.ascii7 (Data m) &&
  match Metadata m with
  | Some md =>
      all Spec.ascii7 (Command md) && all Spec.ascii7 (SSHHost md) &&
      all Spec.ascii7 (SSHUser md) && all Spec.ascii7 (SessionID md)
  | None => true
  end.

End Wire.

(** ** The frames the frontend sends ([app.js], [terminal.js])

    Every frame is [JSON.stringify] of an object with the members
    [type], [data] and [timestamp].  The text is taken to be ASCII, where
    code units and bytes are the same. *)

Module Outgoing.
Import Handler Decimal.

(** What [JSON.stringify] writes for one code unit below 0x80
    ([QuoteJSONString]). *)
Definition quote_unit (c : ascii) : string :=
  let b := code c in
  if b =? 8 then String BSLASH "b"
  else if b =? 9 then String BSLASH "t"
  else if b =? 10 then String BSLASH "n"
  else if b =? 12 then String BSLASH "f"
  else if b =? 13 then String BSLASH "r"
  else if b =? 34 then String BSLASH (str1 DQUOTE)
  else if b =? 92 then String BSLASH (str1 BSLASH)
  else if b <? 32
  then String BSLASH "u00" +:+
       String (Json.hex (Z.shiftr b 4)) (str1 (Json.hex (Z.land b 15)))
  else str1 c.

Fixpoint quote_go (s : string) : string :=
  match s with
  | EmptyString => EmptyString
  | String c r => quote_unit c +:+ quote_go r
  end.

(** [JSON.stringify] of a string. *)
Definition stringify_string (s : string) : string :=
  String DQUOTE (quote_go s +:+ str1 DQUOTE).

(** A [Date], by its UTC fields. *)
Record Date : Type := mkDate {
  fullYear : Z;
  month : Z;          (* 1 to 12 *)
  date : Z;
  hours : Z;
  minutes : Z;
  seconds : Z;
  milliseconds : Z
}.

(** [Date.prototype.toISOString]: years outside 0 to 9999 are written
    with a sign and six digits. *)
Definition toISOString (d : Date) : string :=
  (if (0 <=? fullYear d) && (fullYear d <=? 9999)
   then dec 4 (fullYear d)
   else (if fullYear d <? 0 then "-" else "+") +:+ dec 6 (Z.abs (fullYear d))) +:+
  "-" +:+ dec 2 (month d) +:+ "-" +:+ dec 2 (date d) +:+ "T" +:+
  dec 2 (hours d) +:+ ":" +:+ dec 2 (minutes d) +:+ ":" +:+
  dec 2 (seconds d) +:+ "." +:+ dec 3 (milliseconds d) +:+ "Z".

(** A date of the years 0 to 9999. *)
Definition valid_date (d : Date) : bool :=
  (0 <=? fullYear d) && (fullYear d <=? 9999) &&
  (1 <=? month d) && (month d <=? 12) &&
  (1 <=? date d) && (date d <=? Time.daysIn (month d) (fullYear d)) &&
  (0 <=? hours d) && (hours d <=? 23) &&
  (0 <=? minutes d) && (minutes d <=? 59) &&
  (0 <=? seconds d) && (seconds d <=? 59) &&
  (0 <=? milliseconds d) && (milliseconds d <=? 999).

(** The Go [time.Time] of a date. *)
Definition instant_of (d : Date) : Time :=
  Time.mkTime (fullYear d) (month d) (date d) (hours d) (minutes d)
    (seconds d) (milliseconds d * 1000000) 0.

(** [JSON.stringify({type, data, timestamp: new Date().toISOString()})]. *)
Definition envelope (type data : string) (now : Date) : string :=
  object [member "type" (stringify_string type);
          member "data" (stringify_string data);
          member "timestamp" (stringify_string (toISOString now))].

(** The frame of [sendToBackend(data)] ([app.js]). *)
Definition sendToBackend (data : string) (now : Date) : string :=
  envelope "terminal_input" data now.

(** The frame of [requestInitialPrompt()] ([app.js]). *)
Definition requestInitialPrompt (now : Date) : string :=
  envelope "request_prompt" "init" now.

(** The integers a [Number] holds exactly, up to 2^53 either way.
    [JSON.stringify] writes these digit by digit; a larger integer is
    written with the digits of the nearest double, which the frames
    below do not model. *)
Definition safe_integer (n : Z) : bool := (- 2 ^ 53 <=? n) && (n <=? 2 ^ 53).

(** [JSON.stringify({ cols, rows })] for two such integers. *)
Definition geometry (cols rows : Z) : string :=
  object [member "cols" (Strconv.Itoa cols); member "rows" (Strconv.Itoa rows)].

(** The frame of [notifyTerminalResize(cols, rows)] ([terminal.js]),
    for integers [cols] and [rows] of that range. *)
Definition notifyTerminalResize (cols rows : Z) (now : Date) : string :=
  envelope "terminal_resize" (geometry cols rows) now.

(** Bytes [JSON.stringify] writes as they are. *)
Definition unescaped (c : ascii) : bool :=
  (32 <=? code c) && (code c <? 128) &&
  negb (code c =? 34) && negb (code c =? 92).

End Outgoing.

(** ** Frames and dates used in the examples *)

Module WireExamples.
Import Handler Spec Outgoing.

(** 12 August 2025, 11:00:00.12 in a zone three hours west of
    Greenwich. *)
Definition t1 : Time := Time.mkTime 2025 8 12 11 0 0 120000000 (-10800).

Definition listing : Message :=
  mkMessage MessageTypeTerminalOutput ("a.txt" +:+ CRLF) t1
    (Some (mkMetadata false (Some 0) "ls" EmptyString EmptyString EmptyString)).

Definition noon : Date := mkDate 2025 8 12 12 0 0 7.

Definition stray_frame : string := js "{'cmd':'ls','seq':7}".

End WireExamples.

(** * Proofs *)

(** * Facts about bytes and strings *)

Module BytesFacts.

Lemma sapp_nil_l (s : string) : EmptyString +:+ s = s.
Proof. reflexivity. Qed.

Lemma sapp_cons c (s t : string) : String c s +:+ t = String c (s +:+ t).
Proof. reflexivity. Qed.

Lemma sapp_nil_r (s : string) : s +:+ EmptyString = s.
Proof.
  induction s as [|c s IH]; [reflexivity|].
  now rewrite sapp_cons, IH.
Qed.

Lemma sapp_assoc (a b c : string) : (a +:+ b) +:+ c = a +:+ (b +:+ c).
Proof.
  induction a as [|x a IH]; [reflexivity|].
  now rewrite !sapp_cons, IH.
Qed.

Lemma sapp_eq_nil (a b : string) :
  a +:+ b = EmptyString -> a = EmptyString /\ b = EmptyString.
Proof. destruct a; [now rewrite sapp_nil_l | rewrite sapp_cons; discriminate]. Qed.

(** A concatenation that starts with [c]: either the left part is empty
    or it starts with [c]. *)
Lemma sapp_eq_cons (a b : string) c s :
  a +:+ b = String c s ->
  (a = EmptyString /\ b = String c s) \/
  (exists a', a = String c a' /\ s = a' +:+ b).
Proof.
  destruct a as [|x a]; [left; now rewrite sapp_nil_l in *|].
  rewrite sapp_cons. intros [= -> <-]. right. eauto.
Qed.

Lemma all_app p (a b : string) : all p (a +:+ b) = all p a && all p b.
Proof.
  induction a as [|x a IH]; [reflexivity|].
  rewrite sapp_cons. simpl. now rewrite IH, andb_assoc.
Qed.

Lemma all_ext (p q : ascii -> bool) :
  (forall c, p c = q c) -> forall s, all p s = all q s.
Proof.
  intros H s. induction s as [|c s IH]; [reflexivity|].
  simpl. now rewrite H, IH.
Qed.

Lemma chr_code c : chr (code c) = c.
Proof. unfold chr, code. rewrite N2Z.id. apply ascii_N_embedding. Qed.

Lemma code_inj c d : code c = code d -> c = d.
Proof. intros H. rewrite <- (chr_code c), <- (chr_code d). now rewrite H. Qed.

Lemma ascii_eqb_code c d : Ascii.eqb c d = (code c =? code d).
Proof.
  destruct (Ascii.eqb_spec c d) as [->|Hne].
  - now rewrite Z.eqb_refl.
  - symmetry. apply Z.eqb_neq. intros H. apply Hne, code_inj, H.
Qed.

End BytesFacts.
Import BytesFacts.

(** * Derivatives decide the language of a regular expression *)

Module RegexpFacts.
Import Regexp.

Lemma lang_void_inv w : lang Void w -> False.
Proof. inversion 1. Qed.

Lemma lang_eps_inv w : lang Eps w -> w = EmptyString.
Proof. now inversion 1. Qed.

Lemma lang_lit_inv c w : lang (Lit c) w -> w = str1 c.
Proof. now inversion 1. Qed.

Lemma lang_class_inv rs w :
  lang (Class rs) w -> exists c, w = str1 c /\ in_class rs c = true.
Proof. inversion 1; subst; eauto. Qed.

Lemma lang_cat_inv r1 r2 w :
  lang (Cat r1 r2) w ->
  exists s1 s2, w = s1 +:+ s2 /\ lang r1 s1 /\ lang r2 s2.
Proof. inversion 1; subst; eauto. Qed.

Lemma lang_alt_inv r1 r2 w : lang (Alt r1 r2) w -> lang r1 w \/ lang r2 w.
Proof. inversion 1; subst; auto. Qed.

Lemma nullable_spec r : nullable r = true <-> lang r EmptyString.
Proof.
  induction r as [| | c | rs | r1 IH1 r2 IH2 | r1 IH1 r2 IH2 | r IH]; simpl.
  - split; [discriminate | intros H; destruct (lang_void_inv _ H)].
  - split; [constructor | reflexivity].
  - split; [discriminate | intros H%lang_lit_inv; discriminate].
  - split; [discriminate | intros (c & Hc & _)%lang_class_inv; discriminate].
  - rewrite andb_true_iff, IH1, IH2. split.
    + intros [H1 H2]. change EmptyString with (EmptyString +:+ EmptyString).
      now constructor.
    + intros (s1 & s2 & Heq & H1 & H2)%lang_cat_inv. symmetry in Heq.
      apply sapp_eq_nil in Heq as [-> ->]. auto.
  - rewrite orb_true_iff, IH1, IH2. split.
    + intros [H|H]; [now apply L_alt_l | now apply L_alt_r].
    + apply lang_alt_inv.
  - split; [constructor | reflexivity].
Qed.

(** A non-empty word of a star starts with a non-empty word of the body. *)
Lemma star_cons_inv r w :
  lang (Star r) w ->
  forall c s, w = String c s ->
  exists s1 s2, s = s1 +:+ s2 /\ lang r (String c s1) /\ lang (Star r) s2.
Proof.
  intros H. remember (Star r) as r' eqn:Hr.
  induction H as [| | | | | | r0 | r0 s1 s2 H1 _ H2 IH2]; try discriminate.
  injection Hr as ->. intros c s Heq.
  apply sapp_eq_cons in Heq as [[-> ->] | (a' & -> & ->)].
  - now apply IH2.
  - exists a', s2. auto.
Qed.

Lemma deriv_spec c r s : lang (deriv c r) s <-> lang r (String c s).
Proof.
  revert s.
  induction r as [| | d | rs | r1 IH1 r2 IH2 | r1 IH1 r2 IH2 | r IH];
    intros s; simpl.
  - split; intros H; destruct (lang_void_inv _ H).
  - split; [intros H; destruct (lang_void_inv _ H)|].
    intros H%lang_eps_inv. discriminate.
  - destruct (Ascii.eqb_spec c d) as [->|Hne].
    + split; [intros ->%lang_eps_inv; constructor|].
      intros [= ->]%lang_lit_inv. constructor.
    + split; [intros H; destruct (lang_void_inv _ H)|].
      intros [= -> ->]%lang_lit_inv. congruence.
  - destruct (in_class rs c) eqn:Hc.
    + split; [intros ->%lang_eps_inv; now constructor|].
      intros (x & [= -> ->] & _)%lang_class_inv. constructor.
    + split; [intros H; destruct (lang_void_inv _ H)|].
      intros (x & [= -> ->] & Hx)%lang_class_inv. congruence.
  - assert (Hcat : lang (Cat (deriv c r1) r2) s ->
                   lang (Cat r1 r2) (String c s)).
    { intros (s1 & s2 & -> & H1 & H2)%lang_cat_inv.
      apply IH1 in H1. rewrite <- sapp_cons. now constructor. }
    destruct (nullable r1) eqn:Hn.
    + split.
      * intros [Hl | Hr]%lang_alt_inv; [now apply Hcat|].
        apply IH2 in Hr. apply nullable_spec in Hn.
        rewrite <- (sapp_nil_l (String c s)). now constructor.
      * intros (s1 & s2 & Heq & H1 & H2)%lang_cat_inv. symmetry in Heq.
        apply sapp_eq_cons in Heq as [[-> ->] | (a' & -> & ->)].
        -- apply L_alt_r. now apply IH2.
        -- apply L_alt_l. constructor; [now apply IH1 | assumption].
    + split; [apply Hcat|].
      intros (s1 & s2 & Heq & H1 & H2)%lang_cat_inv. symmetry in Heq.
      apply sapp_eq_cons in Heq as [[-> ->] | (a' & -> & ->)].
      * apply nullable_spec in H1. congruence.
      * constructor; [now apply IH1 | assumption].
  - split.
    + intros [H|H]%lang_alt_inv; [apply L_alt_l, IH1 | apply L_alt_r, IH2];
        assumption.
    + intros [H|H]%lang_alt_inv; [apply L_alt_l, IH1 | apply L_alt_r, IH2];
        assumption.
  - split.
    + intros (s1 & s2 & -> & H1 & H2)%lang_cat_inv.
      apply IH in H1. rewrite <- sapp_cons. now constructor.
    + intros H.
      destruct (star_cons_inv _ _ H c s eq_refl) as (s1 & s2 & -> & H1 & H2).
      constructor; [now apply IH | assumption].
Qed.

Lemma match_prefix_spec r s :
  match_prefix r s = true <-> exists p q, s = p +:+ q /\ lang r p.
Proof.
  revert r. induction s as [|c s IH]; intros r; simpl.
  - rewrite orb_false_r, nullable_spec. split.
    + intros H. exists EmptyString, EmptyString. auto.
    + intros (p & q & Heq & H). symmetry in Heq.
      apply sapp_eq_nil in Heq as [-> _]. assumption.
  - rewrite orb_true_iff, nullable_spec, IH. split.
    + intros [H | (p & q & -> & H)].
      * exists EmptyString, (String c s). auto.
      * exists (String c p), q. split; [reflexivity | now apply deriv_spec].
    + intros (p & q & Heq & H). symmetry in Heq.
      apply sapp_eq_cons in Heq as [[-> ->] | (a' & -> & ->)]; [now left|].
      right. exists a', q. split; [reflexivity | now apply deriv_spec].
Qed.

Lemma MatchString_nil r : MatchString r EmptyString = match_prefix r EmptyString.
Proof. unfold MatchString. now rewrite orb_false_r. Qed.

Lemma MatchString_cons r c s :
  MatchString r (String c s) = match_prefix r (String c s) || MatchString r s.
Proof. reflexivity. Qed.

(** [MatchString] holds exactly when some substring is in the language. *)
Lemma MatchString_spec r s :
  MatchString r s = true <->
  exists a p q, s = a +:+ p +:+ q /\ lang r p.
Proof.
  induction s as [|c s IH].
  - rewrite MatchString_nil, match_prefix_spec. split.
    + intros (p & q & -> & H). exists EmptyString, p, q. auto.
    + intros (a & p & q & Heq & H). symmetry in Heq.
      apply sapp_eq_nil in Heq as [-> Heq]. apply sapp_eq_nil in Heq as [-> ->].
      exists EmptyString, EmptyString. auto.
  - rewrite MatchString_cons, orb_true_iff, match_prefix_spec, IH. split.
    + intros [(p & q & -> & H) | (a & p & q & -> & H)].
      * exists EmptyString, p, q. auto.
      * exists (String c a), p, q. auto.
    + intros (a & p & q & Heq & H). symmetry in Heq.
      apply sapp_eq_cons in Heq as [[-> Heq] | (a' & -> & ->)].
      * left. exists p, q. auto.
      * right. exists a', p, q. auto.
Qed.

(** The words of a starred class are the strings over the class. *)
Lemma lang_star_class rs s :
  lang (Star (Class rs)) s <-> all (in_class rs) s = true.
Proof.
  split.
  - intros H. remember (Star (Class rs)) as r eqn:Hr.
    induction H as [| | | | | | r0 | r0 s1 s2 H1 _ H2 IH2]; try discriminate.
    + reflexivity.
    + injection Hr as ->.
      apply lang_class_inv in H1 as (c & -> & Hc).
      rewrite all_app. simpl. rewrite Hc. simpl. now apply IH2.
  - induction s as [|c s IH]; simpl; [constructor|].
    rewrite andb_true_iff. intros [Hc Hs].
    change (String c s) with (str1 c +:+ s).
    constructor; [now constructor | now apply IH].
Qed.

End RegexpFacts.

(** * ANSI detection *)

Module AnsiFacts.
Import Regexp RegexpFacts Handler Spec.

Lemma in_class_params c :
  in_class [("0", "9"); (";", ";")]%char c = csi_param c.
Proof.
  unfold in_class, csi_param, is_digit. simpl. rewrite orb_false_r.
  f_equal. rewrite ascii_eqb_code. unfold between.
  change (code ";") with 59. lia.
Qed.

Lemma in_class_final c :
  in_class [("m", "m"); ("K", "K")]%char c = true <->
  c = "m"%char \/ c = "K"%char.
Proof.
  unfold in_class. simpl. rewrite orb_false_r, orb_true_iff.
  unfold between. change (code "m") with 109. change (code "K") with 75.
  split.
  - intros [H|H]; [left | right]; apply code_inj;
      [change (code "m") with 109 | change (code "K") with 75]; lia.
  - intros [-> | ->]; [left | right]; reflexivity.
Qed.

(** The language of the pattern is the set of CSI sequences. *)
Lemma lang_ansiRegex p : lang ansiRegex p <-> csi_sequence p.
Proof.
  unfold ansiRegex, csi_sequence. split.
  - intros (s1 & t1 & -> & ->%lang_lit_inv & H)%lang_cat_inv.
    apply lang_cat_inv in H as (s2 & t2 & -> & ->%lang_lit_inv & H).
    apply lang_cat_inv in H as (params & t3 & -> & Hp & H).
    apply lang_class_inv in H as (f & -> & Hf).
    exists params, f. split; [reflexivity|]. split.
    + apply lang_star_class in Hp.
      now rewrite (all_ext _ _ in_class_params) in Hp.
    + now apply in_class_final.
  - intros (params & f & -> & Hp & Hf).
    change (String ESC (String "[" (params +:+ str1 f)))
      with (str1 ESC +:+ (str1 "[" +:+ (params +:+ str1 f))).
    repeat constructor.
    + apply lang_star_class.
      now rewrite (all_ext _ _ in_class_params).
    + now apply in_class_final.
Qed.

Lemma containsAnsiCodes_spec s : containsAnsiCodes s = true <-> has_csi s.
Proof.
  unfold containsAnsiCodes, has_csi. rewrite MatchString_spec.
  split; intros (a & p & q & Heq & H); exists a, p, q;
    (split; [assumption | now apply lang_ansiRegex]).
Qed.

End AnsiFacts.

(** * The JSON scanner reads back what the encoder writes *)

Module JsonFacts.
Import Json.

Lemma rev_app_rev_app (x y z : string) :
  String.rev_app (String.rev_app x y) z = String.rev_app y (x +:+ z).
Proof.
  revert y z. induction x as [|c x IH]; intros y z; simpl; [reflexivity|].
  now rewrite IH, sapp_cons.
Qed.

Lemma rev_rev_app (x : string) : String.rev (String.rev_app x EmptyString) = x.
Proof.
  unfold String.rev. rewrite rev_app_rev_app. simpl. apply sapp_nil_r.
Qed.

Lemma rev_app_append (x y t : string) :
  String.rev_app (x +:+ y) t = String.rev_app y (String.rev_app x t).
Proof.
  revert t. induction x as [|c x IH]; intros t; [reflexivity|].
  rewrite sapp_cons. simpl. apply IH.
Qed.

Lemma scan_app sc (a b : string) :
  scan sc (a +:+ b) =
  match scan sc a with
  | Some sc' => scan sc' b
  | None => None
  end.
Proof.
  revert sc. induction a as [|c a IH]; intros sc; [reflexivity|].
  rewrite sapp_cons. simpl. destruct (step sc c); [apply IH | reflexivity].
Qed.

Lemma reading_app x y sc : reading (x +:+ y) sc = reading y (reading x sc).
Proof. unfold reading. simpl. now rewrite rev_app_append. Qed.

Lemma scan_escape_byte sc c :
  st sc = InString -> code c < 0x80 ->
  scan sc (escape_byte c) = Some (reading (escape_byte c) sc).
Proof.
  destruct sc as [s t stk tp]. simpl. intros -> Hc.
  destruct c as [[] [] [] [] [] [] [] []];
    try (exfalso; vm_compute in Hc; discriminate Hc);
    vm_compute; reflexivity.
Qed.

Lemma scan_high sc x :
  st sc = InString -> all high x = true -> scan sc x = Some (reading x sc).
Proof.
  revert sc. induction x as [|c x IH]; intros sc Hst Hx.
  - destruct sc; simpl in *; now subst.
  - simpl in Hx. apply andb_true_iff in Hx as [Hc Hx].
    unfold high in Hc. apply Z.leb_le in Hc.
    assert (Hstep : step sc c = Some (reading (str1 c) sc)).
    { unfold step. rewrite Hst. rewrite !ascii_eqb_code.
      change (code DQUOTE) with 34. change (code BSLASH) with 92.
      replace (code c =? 34) with false by (symmetry; apply Z.eqb_neq; lia).
      replace (code c =? 92) with false by (symmetry; apply Z.eqb_neq; lia).
      replace (code c <? 32) with false by (symmetry; apply Z.ltb_ge; lia).
      reflexivity. }
    simpl. rewrite Hstep. rewrite IH by (assumption || reflexivity).
    reflexivity.
Qed.

Lemma lead_info_high b sz lo hi :
  Utf8.lead_info b = Some (sz, lo, hi) ->
  0x80 <= lo /\ (sz = 2 \/ sz = 3 \/ sz = 4)%nat.
Proof.
  unfold Utf8.lead_info. intros H.
  repeat case_match; simplify_eq; split; (lia || auto).
Qed.

(** The bytes of a rune that [DecodeRuneInString] accepts after a high
    lead byte are all high. *)
Lemma decode_high c rest r size :
  0x80 <= code c ->
  Utf8.DecodeRuneInString (String c rest) = (r, size) ->
  all high (take size (String c rest)) = true.
Proof.
  intros Hc. unfold Utf8.DecodeRuneInString.
  replace (code c <? 128) with false by (symmetry; apply Z.ltb_ge; lia).
  assert (Hh : high c = true) by (apply Z.leb_le; lia).
  destruct (Utf8.lead_info (code c)) as [[[sz lo] hi]|] eqn:Hl.
  2:{ intros [= <- <-]. simpl. now rewrite Hh. }
  apply lead_info_high in Hl as [Hlo Hsz].
  destruct rest as [|c1 rest1].
  { intros [= <- <-]. simpl. now rewrite Hh. }
  destruct ((code c1 <? lo) || (hi <? code c1)) eqn:H1.
  { intros [= <- <-]. simpl. now rewrite Hh. }
  apply orb_false_iff in H1 as [H1 _]. apply Z.ltb_ge in H1.
  assert (Hh1 : high c1 = true) by (apply Z.leb_le; lia).
  destruct (sz =? 2)%nat.
  { intros [= <- <-]. simpl. now rewrite Hh, Hh1. }
  destruct rest1 as [|c2 rest2].
  { intros [= <- <-]. simpl. now rewrite Hh. }
  destruct (Utf8.is_cont (code c2)) eqn:H2; simpl.
  2:{ intros [= <- <-]. simpl. now rewrite Hh. }
  assert (Hh2 : high c2 = true).
  { unfold Utf8.is_cont in H2. apply andb_true_iff in H2 as [H2 _].
    exact H2. }
  destruct (sz =? 3)%nat.
  { intros [= <- <-]. simpl. now rewrite Hh, Hh1, Hh2. }
  destruct rest2 as [|c3 rest3].
  { intros [= <- <-]. simpl. now rewrite Hh. }
  destruct (Utf8.is_cont (code c3)) eqn:H3; simpl.
  2:{ intros [= <- <-]. simpl. now rewrite Hh. }
  assert (Hh3 : high c3 = true).
  { unfold Utf8.is_cont in H3. apply andb_true_iff in H3 as [H3 _].
    exact H3. }
  intros [= <- <-]. simpl. now rewrite Hh, Hh1, Hh2, Hh3.
Qed.

(** The scanner stays inside the literal over everything the string
    encoder writes. *)
Lemma scan_appendString_go s :
  forall skip sc,
    st sc = InString ->
    scan sc (appendString_go skip s) = Some (reading (appendString_go skip s) sc).
Proof.
  induction s as [|c rest IH]; intros skip sc Hst.
  - destruct sc; simpl in *; now subst.
  - destruct skip as [|k]; [|apply IH, Hst].
    cbn [appendString_go].
    destruct (code c <? 128) eqn:Hc.
    + apply Z.ltb_lt in Hc.
      rewrite scan_app, scan_escape_byte by assumption. cbv beta iota.
      rewrite IH by reflexivity. now rewrite reading_app.
    + apply Z.ltb_ge in Hc.
      destruct (Utf8.DecodeRuneInString (String c rest)) as [r size] eqn:Hd.
      destruct ((r =? Utf8.RuneError) && (size =? 1)%nat).
      { rewrite scan_app.
        replace (scan sc "\ufffd") with (Some (reading "\ufffd" sc))
          by (destruct sc; simpl in Hst; subst; reflexivity).
        cbv beta iota.
        rewrite IH by reflexivity. now rewrite reading_app. }
      destruct ((r =? 8232) || (r =? 8233)) eqn:Hr.
      { assert (Hx : scan sc ("\u202" +:+ str1 (hex (Z.land r 15)))
                     = Some (reading ("\u202" +:+ str1 (hex (Z.land r 15))) sc)).
        { apply orb_true_iff in Hr as [Hr|Hr]; apply Z.eqb_eq in Hr; subst r;
            destruct sc; simpl in Hst; subst; reflexivity. }
        rewrite <- sapp_assoc, scan_app, Hx. cbv beta iota.
        rewrite IH by reflexivity. now rewrite !reading_app. }
      rewrite scan_app.
      rewrite scan_high by (assumption || (eapply decode_high; eauto)).
      cbv beta iota.
      rewrite IH by reflexivity. now rewrite reading_app.
Qed.

(** A whole string literal: the quote is already read, the body and the
    closing quote follow. *)
Lemma scan_literal stk s (rest : string) :
  scan (mkScanner InString EmptyString stk None)
    (appendString_go 0 s +:+ String DQUOTE rest) =
  match complete (Str (appendString_go 0 s)) stk with
  | Some sc' => scan sc' rest
  | None => None
  end.
Proof.
  rewrite scan_app, scan_appendString_go by reflexivity.
  unfold reading. cbn [scan step st tok stack top].
  rewrite Ascii.eqb_refl.
  fold (String.rev (String.rev_app (appendString_go 0 s) EmptyString)).
  now rewrite rev_rev_app.
Qed.

(** ** Reading back ASCII text *)

Lemma unquote_go_plain c rest :
  code c < 0x80 -> c <> BSLASH ->
  unquote_go 0 (String c rest) = String c (unquote_go 0 rest).
Proof.
  intros Hc Hb. cbn [unquote_go].
  destruct (Ascii.eqb_spec c BSLASH) as [->|_]; [congruence|].
  now replace (code c <? 128) with true by (symmetry; apply Z.ltb_lt; lia).
Qed.

Lemma unquote_go_escape e rest :
  e <> "u"%char ->
  unquote_go 0 (String BSLASH (String e rest)) =
  String (unescape e) (unquote_go 0 rest).
Proof.
  intros He. cbn [unquote_go]. rewrite Ascii.eqb_refl.
  destruct (Ascii.eqb_spec e "u") as [->|_]; [congruence|reflexivity].
Qed.

Lemma unquote_go_u4 h1 h2 h3 h4 rest :
  let rr := getu4 (String BSLASH (String "u" (String h1 (String h2
              (String h3 (String h4 EmptyString)))))) in
  isSurrogate rr = false ->
  unquote_go 0 (String BSLASH (String "u" (String h1 (String h2
                  (String h3 (String h4 rest)))))) =
  Utf8.EncodeRune rr +:+ unquote_go 0 rest.
Proof.
  intros rr Hs.
  change (unquote_go 0 (String BSLASH (String "u" (String h1 (String h2
                  (String h3 (String h4 rest)))))))
    with (if isSurrogate rr then
            let dec := utf16_DecodeRune rr (getu4 rest) in
            if dec =? Utf8.RuneError
            then Utf8.EncodeRune Utf8.RuneError +:+ unquote_go 0 rest
            else Utf8.EncodeRune dec +:+ unquote_go 11 (String "u" (String h1 (String h2
                  (String h3 (String h4 rest)))))
          else Utf8.EncodeRune rr +:+ unquote_go 0 rest).
  now rewrite Hs.
Qed.

Lemma unquote_escape_byte c (t : string) :
  code c < 0x80 ->
  unquote_go 0 (escape_byte c +:+ t) = String c (unquote_go 0 t).
Proof.
  intros Hc.
  destruct c as [[] [] [] [] [] [] [] []];
    try (exfalso; vm_compute in Hc; discriminate Hc);
    match goal with
    | |- context [escape_byte ?c] =>
        let e := eval vm_compute in (escape_byte c) in
        change (escape_byte c) with e
    end;
    rewrite ?sapp_cons, ?sapp_nil_l;
    first [ rewrite unquote_go_plain by (try discriminate; vm_compute; reflexivity);
            reflexivity
          | rewrite unquote_go_escape by discriminate; reflexivity
          | rewrite unquote_go_u4 by reflexivity; reflexivity ].
Qed.

Lemma unquote_appendString_ascii s :
  all (fun c => code c <? 0x80) s = true ->
  unquote (appendString_go 0 s) = s.
Proof.
  unfold unquote. induction s as [|c s IH]; intros Hs; [reflexivity|].
  simpl in Hs. apply andb_true_iff in Hs as [Hc Hs].
  cbn [appendString_go]. rewrite Hc. apply Z.ltb_lt in Hc.
  rewrite unquote_escape_byte by assumption. now rewrite IH.
Qed.

End JsonFacts.

(** * The world of a connection *)

Module WorldFacts.
Import Handler Spec.

Lemma advance_0_nil w : advance 0 [] w = w.
Proof.
  destruct w. unfold advance. simpl. f_equal; [lia | apply app_nil_r].
Qed.

Lemma advance_advance n m es es' w :
  advance n es (advance m es' w) = advance (m + n) (es' ++ es) w.
Proof.
  unfold advance. simpl. f_equal; [lia | now rewrite <- app_assoc].
Qed.

Lemma emit_eq e w : emit e w = (tt, advance 0 [e] w).
Proof. unfold emit, advance. do 2 f_equal. lia. Qed.

Lemma log_eq l w : log l w = (tt, advance 0 [EvLog l] w).
Proof. apply emit_eq. Qed.

Lemma time_Now_eq w : time_Now w = (clock w (ticks w), advance 1 [] w).
Proof.
  unfold time_Now, advance. do 2 f_equal; [lia | now rewrite app_nil_r].
Qed.

Lemma WriteMessage_eq data w :
  WriteMessage data w =
  (if write_fails w (length (writes (trace w))) then Some WriteError else None,
   advance 0 [EvWrite data] w).
Proof. unfold WriteMessage. now rewrite emit_eq. Qed.

Lemma NewMessage_eq t d w :
  NewMessage t d w = (mkMessage t d (clock w (ticks w)) None, advance 1 [] w).
Proof. unfold NewMessage, bind. now rewrite time_Now_eq. Qed.

Lemma ToJSON_frame_of m :
  Time.marshalable (Timestamp m) = true -> ToJSON m = inl (frame_of m).
Proof.
  unfold frame_of, ToJSON, marshal_Time. now intros ->.
Qed.

Lemma send_eq m w :
  send m w =
  (tt, advance 0 (if Time.marshalable (Timestamp m)
                  then [EvWrite (frame_of m)] else []) w).
Proof.
  unfold send, frame_of, ToJSON, marshal_Time.
  destruct (Time.marshalable (Timestamp m)).
  - unfold bind. now rewrite WriteMessage_eq.
  - unfold ret. now rewrite advance_0_nil.
Qed.

Lemma trace_advance n es w : trace (advance n es w) = trace w ++ es.
Proof. reflexivity. Qed.

End WorldFacts.

(** * Decoding what the encoder writes *)

Module DecodeFacts.
Import Json JsonFacts Handler Spec.

(** Strings in the flat form the scanner walks over. *)
Ltac flatten :=
  unfold object, member, appendString, str1;
  cbn [String.concat List.app];
  repeat (rewrite ?sapp_cons, ?sapp_nil_l, ?sapp_assoc).

Lemma parse_type_data t d :
  parse (object [member "type" (appendString t);
                 member "data" (appendString d)]) =
  Some (Object [("type"%string, Str (appendString_go 0 t));
                ("data"%string, Str (appendString_go 0 d))]).
Proof.
  unfold parse. flatten.
  simpl. rewrite scan_literal. simpl. rewrite scan_literal. simpl.
  reflexivity.
Qed.

(** An envelope with any type and payload decodes without error. *)
Lemma ParseMessage_type_data t d :
  ParseMessage (object [member "type" (appendString t);
                        member "data" (appendString d)]) =
  (mkMessage (json_text t) (json_text d) Time.zero None, None).
Proof.
  unfold ParseMessage, Unmarshal. rewrite parse_type_data. reflexivity.
Qed.

Lemma json_text_ascii s : all ascii7 s = true -> json_text s = s.
Proof. apply unquote_appendString_ascii. Qed.

Lemma parse_state state :
  parse (object [member "state" (appendString state)]) =
  Some (Object [("state"%string, Str (appendString_go 0 state))]).
Proof.
  unfold parse. flatten. simpl. rewrite scan_literal. simpl. reflexivity.
Qed.

Lemma parse_state_message state message :
  parse (object [member "state" (appendString state);
                 member "message" (appendString message)]) =
  Some (Object [("state"%string, Str (appendString_go 0 state));
                ("message"%string, Str (appendString_go 0 message))]).
Proof.
  unfold parse. flatten.
  simpl. rewrite scan_literal. simpl. rewrite scan_literal. simpl.
  reflexivity.
Qed.

(** The payload of a connection-state message, read back. *)
Lemma payload_ConnectionStateMessage state message :
  payload_members
    (marshal_ConnectionStateMessage (mkConnectionStateMessage state message)) =
  Some (("state"%string, json_text state) ::
        if nonempty message then [("message"%string, json_text message)] else []).
Proof.
  unfold payload_members, marshal_ConnectionStateMessage.
  cbn [State Message_]. destruct (nonempty message).
  - cbn [List.app]. rewrite parse_state_message. reflexivity.
  - cbn [List.app]. rewrite parse_state. reflexivity.
Qed.

End DecodeFacts.

(** * What the handlers add to the trace *)

Module HandlerFacts.
Import Handler Spec WorldFacts.

Create HintDb grows discriminated.

Lemma grows_ret {A} Q (a : A) : grows Q (ret a).
Proof. intros w. exists 0%nat, []. now rewrite advance_0_nil. Qed.

Lemma grows_bind {A B} Q (c : M A) (k : A -> M B) :
  grows Q c -> (forall a, grows Q (k a)) -> grows Q (bind c k).
Proof.
  intros Hc Hk w. unfold bind.
  destruct (Hc w) as (n & es & Hw & Hes).
  destruct (c w) as [a w1]. simpl in Hw. subst w1.
  destruct (Hk a (advance n es w)) as (m & es' & Hw' & Hes').
  exists (n + m)%nat, (es ++ es'). rewrite Hw', advance_advance.
  split; [reflexivity|]. now rewrite forallb_app, Hes, Hes'.
Qed.

Lemma grows_emit Q e : Q e = true -> grows Q (emit e).
Proof.
  intros He w. exists 0%nat, [e]. rewrite emit_eq. simpl. now rewrite He.
Qed.

Lemma grows_log Q l : Q (EvLog l) = true -> grows Q (log l).
Proof. apply grows_emit. Qed.

Lemma grows_time_Now Q : grows Q time_Now.
Proof. intros w. exists 1%nat, []. now rewrite time_Now_eq. Qed.

Lemma grows_NewMessage Q t d : grows Q (NewMessage t d).
Proof. intros w. exists 1%nat, []. now rewrite NewMessage_eq. Qed.

Lemma grows_WriteMessage Q data :
  Q (EvWrite data) = true -> grows Q (WriteMessage data).
Proof.
  intros He w. exists 0%nat, [EvWrite data]. rewrite WriteMessage_eq.
  simpl. now rewrite He.
Qed.

Lemma grows_send Q m :
  (forall f, Q (EvWrite f) = true) -> grows Q (send m).
Proof.
  intros HQ w. rewrite send_eq. eexists 0%nat, _. split; [reflexivity|].
  destruct (Time.marshalable (Timestamp m)); simpl; [now rewrite HQ | reflexivity].
Qed.

Lemma grows_NewConnectionStateMessage Q st msg :
  grows Q (NewConnectionStateMessage st msg).
Proof. apply grows_NewMessage. Qed.

#[export] Hint Resolve grows_ret grows_bind grows_emit grows_log
  grows_time_Now grows_NewMessage grows_WriteMessage grows_send
  grows_NewConnectionStateMessage : grows.

(** ** Terminal output *)

Lemma NewTerminalOutput_eq o c e w :
  NewTerminalOutput o c e w =
  (output_message o c e (clock w (ticks w)), advance 1 [] w).
Proof.
  unfold NewTerminalOutput, bind. now rewrite NewMessage_eq.
Qed.

Lemma terminal_output_send o c e w :
  bind (NewTerminalOutput o c e) send w =
  (tt, advance 1
         (if Time.marshalable (clock w (ticks w))
          then [EvWrite (frame_of (output_message o c e (clock w (ticks w))))]
          else []) w).
Proof.
  unfold bind. rewrite NewTerminalOutput_eq, send_eq.
  now rewrite advance_advance.
Qed.

Lemma prefix_app (a b : string) : String.prefix a (a +:+ b) = true.
Proof.
  induction a as [|c a IH]; [now destruct b|].
  rewrite sapp_cons. simpl. destruct (ascii_dec c c); [exact IH | congruence].
Qed.

Lemma prefix_app3 (a b c r : string) :
  String.prefix (a +:+ b +:+ c) (a +:+ b +:+ c +:+ r) = true.
Proof. rewrite <- !sapp_assoc. apply prefix_app. Qed.

(** The frame of a message opens with its type. *)
Lemma frame_of_has_type m :
  Time.marshalable (Timestamp m) = true ->
  frame_has_type (Type_ m) (frame_of m) = true.
Proof.
  intros Hm. unfold frame_has_type, frame_of, ToJSON, marshal_Time.
  rewrite Hm. unfold object. cbn [List.app String.concat].
  rewrite !sapp_assoc. apply prefix_app3.
Qed.

Lemma grows_terminal_output Q o c e :
  (forall f, frame_has_type MessageTypeTerminalOutput f = true ->
             Q (EvWrite f) = true) ->
  grows Q (bind (NewTerminalOutput o c e) send).
Proof.
  intros HQ w. rewrite terminal_output_send.
  eexists 1%nat, _. split; [reflexivity|].
  destruct (Time.marshalable (clock w (ticks w))) eqn:Hm; [|reflexivity].
  simpl. rewrite HQ; [reflexivity|].
  now apply (frame_of_has_type (output_message o c e (clock w (ticks w)))).
Qed.

Section SimulatedShell.
Variable Q : Event -> bool.
Hypothesis HQ :
  forall f, frame_has_type MessageTypeTerminalOutput f = true ->
            Q (EvWrite f) = true.

Lemma grows_sendOutput data : grows Q (sendOutput data).
Proof. now apply grows_terminal_output. Qed.

Lemma grows_showPrompt s : grows Q (showPrompt s).
Proof. now apply grows_terminal_output. Qed.

Lemma grows_executeCommand cmd : grows Q (executeCommand cmd).
Proof.
  unfold executeCommand.
  repeat case_match; auto using grows_ret, grows_terminal_output.
Qed.

Lemma grows_handleBackspace s : grows Q (handleBackspace s).
Proof.
  unfold handleBackspace. case_match; auto using grows_ret.
  apply grows_bind; auto using grows_ret, grows_sendOutput.
Qed.

Lemma grows_processCommand s : grows Q (processCommand s).
Proof.
  unfold processCommand.
  change (grows Q (bind (bind (NewTerminalOutput CRLF EmptyString None) send)
            (fun _ => bind (executeCommand (TrimSpace (currentInput s)))
               (fun _ => bind (showPrompt (mkShellSession EmptyString (prompt s)))
                  (fun _ => ret (mkShellSession EmptyString (prompt s))))))).
  apply grows_bind; [now apply grows_terminal_output | intros _].
  apply grows_bind; [apply grows_executeCommand | intros _].
  apply grows_bind; [apply grows_showPrompt | intros _].
  apply grows_ret.
Qed.

Lemma grows_HandleInput s input : grows Q (HandleInput s input).
Proof.
  unfold HandleInput.
  repeat case_match;
    auto using grows_ret, grows_processCommand, grows_handleBackspace.
  apply grows_bind; auto using grows_ret, grows_sendOutput.
Qed.

End SimulatedShell.

End HandlerFacts.

(** * The read loops *)

Module LoopFacts.
Import Handler Spec WorldFacts HandlerFacts.

Lemma frame_event_output f :
  frame_has_type MessageTypeTerminalOutput f = true ->
  frame_event (EvWrite f) = true.
Proof. reflexivity. Qed.

(** ** A frame that does not decode *)

Lemma report_invalid {A} (shell : A) e w :
  bind (log (LogInvalidFormat e))
    (fun _ => bind (NewSystemMessage "Invalid message format")
       (fun errMsg => bind (send errMsg) (fun _ => ret shell))) w =
  (shell, diagnosed e w).
Proof.
  unfold bind at 1. rewrite log_eq.
  unfold bind, NewSystemMessage. rewrite NewMessage_eq, send_eq.
  unfold ret, diagnosed, diagnostic. rewrite !advance_advance.
  cbn [clock ticks advance Timestamp].
  replace (ticks w + 0)%nat with (ticks w) by lia. reflexivity.
Qed.

Lemma Connection_serve_frame_malformed shell p w msg e :
  ParseMessage p = (msg, Some e) ->
  Connection.serve_frame shell p w = (shell, diagnosed e w).
Proof.
  intros Hp. unfold Connection.serve_frame. rewrite Hp. apply report_invalid.
Qed.


(** ** A frame of a type the handler has no case for *)

Lemma Connection_serve_frame_unhandled shell p w msg :
  ParseMessage p = (msg, None) ->
  Type_ msg <> MessageTypeConnectionRequest ->
  Connection.serve_frame shell p w = (shell, unhandled (Type_ msg) w).
Proof.
  intros Hp Ht. unfold Connection.serve_frame. rewrite Hp.
  destruct (String.eqb_spec (Type_ msg) MessageTypeConnectionRequest);
    [contradiction|].
  unfold bind. now rewrite log_eq.
Qed.

Lemma HandlerDeps_serve_frame_unhandled shell p w msg :
  ParseMessage p = (msg, None) ->
  Type_ msg <> MessageTypeTerminalInput ->
  Type_ msg <> MessageTypeRequestPrompt ->
  HandlerDeps.serve_frame shell p w = (shell, unhandled (Type_ msg) w).
Proof.
  intros Hp Ht1 Ht2. unfold HandlerDeps.serve_frame. rewrite Hp.
  destruct (String.eqb_spec (Type_ msg) MessageTypeTerminalInput);
    [contradiction|].
  destruct (String.eqb_spec (Type_ msg) MessageTypeRequestPrompt);
    [contradiction|].
  unfold bind. now rewrite log_eq.
Qed.

Lemma HandlerDeps_serve_frame_input shell p w msg :
  ParseMessage p = (msg, None) ->
  Type_ msg = MessageTypeTerminalInput ->
  HandlerDeps.serve_frame shell p w = HandleInput shell (Data msg) w.
Proof.
  intros Hp Ht. unfold HandlerDeps.serve_frame. now rewrite Hp, Ht.
Qed.

(** ** Every frame *)

Lemma grows_Connect shell md : grows frame_event (Connect shell md).
Proof.
  unfold Connect. destruct (state shell); try apply grows_ret.
  intros w. rewrite emit_eq. exists 0%nat, [EvDial md (remote w md)].
  now destruct (remote w md).
Qed.

Lemma grows_handleConnectionRequest msg shell :
  grows frame_event (Connection.handleConnectionRequest msg shell).
Proof.
  unfold Connection.handleConnectionRequest.
  destruct (Metadata msg) as [md|]; [|auto with grows].
  apply grows_bind; [apply grows_Connect|].
  intros [shell' [e|]]; [auto with grows|].
  apply grows_bind; [auto with grows | intros _].
  apply grows_bind; [auto with grows | intros m].
  destruct (ToJSON m); auto with grows.
Qed.

Lemma grows_diag {A} text (a : A) :
  grows frame_event
    (bind (NewSystemMessage text)
       (fun errMsg => bind (send errMsg) (fun _ => ret a))).
Proof. unfold NewSystemMessage. auto 6 with grows. Qed.

Lemma Connection_grows_serve_frame shell p :
  grows frame_event (Connection.serve_frame shell p).
Proof.
  unfold Connection.serve_frame. destruct (ParseMessage p) as [msg [e|]].
  - apply grows_bind; [auto with grows | intros _; apply grows_diag].
  - destruct (String.eqb (Type_ msg) MessageTypeConnectionRequest);
      [|auto with grows].
    apply grows_bind; [apply grows_handleConnectionRequest|].
    intros [shell' [e|]]; [|auto with grows].
    apply grows_bind; [auto with grows | intros _; apply grows_diag].
Qed.

Lemma HandlerDeps_grows_serve_frame shell p :
  grows frame_event (HandlerDeps.serve_frame shell p).
Proof.
  unfold HandlerDeps.serve_frame. destruct (ParseMessage p) as [msg [e|]].
  - apply grows_bind; [auto with grows | intros _; apply grows_diag].
  - destruct (String.eqb (Type_ msg) MessageTypeTerminalInput).
    { apply grows_HandleInput, frame_event_output. }
    destruct (String.eqb (Type_ msg) MessageTypeRequestPrompt);
      [|auto with grows].
    apply grows_bind; [|auto with grows].
    apply grows_showPrompt, frame_event_output.
Qed.

(** The loop ends with the read error in the log, and with nothing but
    the events of its frames before. *)
Lemma Connection_serve_trace frames :
  forall shell w, exists n es,
    snd (Connection.serve shell frames w) =
      advance n (es ++ [EvLog LogReadError]) w /\
    forallb frame_event es = true.
Proof.
  induction frames as [|p rest IH]; intros shell w.
  - exists 0%nat, []. cbn [Connection.serve]. unfold bind.
    now rewrite log_eq.
  - cbn [Connection.serve]. unfold bind.
    destruct (Connection_grows_serve_frame shell p w) as (n & es & Hw & Hes).
    destruct (Connection.serve_frame shell p w) as [shell' w1].
    simpl in Hw. subst w1.
    destruct (IH shell' (advance n es w)) as (m & es' & Hw' & Hes').
    exists (n + m)%nat, (es ++ es'). rewrite Hw', advance_advance.
    split; [now rewrite <- app_assoc|]. now rewrite forallb_app, Hes, Hes'.
Qed.

Lemma HandlerDeps_serve_trace frames :
  forall shell w, exists n es,
    snd (HandlerDeps.serve shell frames w) =
      advance n (es ++ [EvLog LogReadError]) w /\
    forallb frame_event es = true.
Proof.
  induction frames as [|p rest IH]; intros shell w.
  - exists 0%nat, []. cbn [HandlerDeps.serve]. unfold bind.
    now rewrite log_eq.
  - cbn [HandlerDeps.serve]. unfold bind.
    destruct (HandlerDeps_grows_serve_frame shell p w) as (n & es & Hw & Hes).
    destruct (HandlerDeps.serve_frame shell p w) as [shell' w1].
    simpl in Hw. subst w1.
    destruct (IH shell' (advance n es w)) as (m & es' & Hw' & Hes').
    exists (n + m)%nat, (es ++ es'). rewrite Hw', advance_advance.
    split; [now rewrite <- app_assoc|]. now rewrite forallb_app, Hes, Hes'.
Qed.

Lemma greeting_frame_event w : forallb frame_event (greeting w) = true.
Proof. unfold greeting. now destruct (Time.marshalable _). Qed.

(** The whole trace of a connection that was upgraded. *)
Lemma Connection_HandleWs_trace frames w :
  exists n es,
    snd (Connection.HandleWs true frames w) =
      advance n ([EvLog LogNewConnection; EvNewShell] ++ es ++
                 [EvLog LogReadError; EvClose]) w /\
    forallb frame_event es = true.
Proof.
  unfold Connection.HandleWs. cbn [negb].
  unfold bind at 1. rewrite log_eq.
  unfold bind at 1. unfold NewShellConnection, bind at 1.
  rewrite emit_eq. unfold ret. rewrite advance_advance.
  unfold bind at 1. unfold NewConnectionStateMessage.
  rewrite NewMessage_eq, advance_advance.
  unfold bind at 1. rewrite send_eq, advance_advance.
  unfold bind at 1. rewrite log_eq, advance_advance.
  unfold bind.
  match goal with
  | |- context [Connection.serve ?sh frames ?w1] =>
      destruct (Connection_serve_trace frames sh w1) as (n & es & Hw & Hes);
      destruct (Connection.serve sh frames w1) as [sh' w2]
  end.
  simpl in Hw. subst w2. rewrite emit_eq, advance_advance.
  eexists _, (greeting w ++ [EvLog LogShellStarted] ++ es).
  split.
  - cbn [snd Timestamp]. rewrite advance_advance.
    replace (ticks w + 0)%nat with (ticks w) by lia. fold (greeting w).
    f_equal. cbn [List.app]. rewrite <- !app_assoc. reflexivity.
  - rewrite !forallb_app, greeting_frame_event, Hes. reflexivity.
Qed.

Lemma HandlerDeps_HandleWs_trace frames w :
  exists n es,
    snd (HandlerDeps.HandleWs true frames w) =
      advance n ([EvLog LogNewConnection; EvNewShell] ++ es ++
                 [EvLog LogReadError]) w /\
    forallb frame_event es = true.
Proof.
  unfold HandlerDeps.HandleWs. cbn [negb].
  unfold bind at 1. rewrite log_eq.
  unfold bind at 1. unfold NewShellSession, bind at 1.
  rewrite emit_eq. unfold ret. rewrite advance_advance.
  unfold bind at 1. unfold NewConnectionStateMessage.
  rewrite NewMessage_eq, advance_advance.
  unfold bind at 1. rewrite send_eq, advance_advance.
  unfold bind at 1. rewrite log_eq, advance_advance.
  unfold bind.
  match goal with
  | |- context [HandlerDeps.serve ?sh frames ?w1] =>
      destruct (HandlerDeps_serve_trace frames sh w1) as (n & es & Hw & Hes);
      destruct (HandlerDeps.serve sh frames w1) as [sh' w2]
  end.
  simpl in Hw. subst w2.
  eexists _, (greeting w ++ [EvLog LogShellStarted] ++ es).
  split.
  - cbn [snd Timestamp]. rewrite advance_advance.
    replace (ticks w + 0)%nat with (ticks w) by lia. fold (greeting w).
    f_equal. cbn [List.app]. rewrite <- !app_assoc. reflexivity.
  - rewrite !forallb_app, greeting_frame_event, Hes. reflexivity.
Qed.

(** ** Counting on traces *)

Lemma sessions_app a b : sessions (a ++ b) = (sessions a + sessions b)%nat.
Proof. unfold sessions. now rewrite List.filter_app, length_app. Qed.

Lemma sessions_frame_events es :
  forallb frame_event es = true -> sessions es = 0%nat.
Proof.
  induction es as [|e es IH]; [reflexivity|]. simpl.
  intros [He Hes]%andb_true_iff. unfold sessions in *. simpl.
  destruct e as [[]| | | |]; try discriminate He; simpl; now apply IH.
Qed.

Lemma after_read_error_frame_events es tail :
  forallb frame_event es = true ->
  after_read_error (es ++ EvLog LogReadError :: tail) = tail.
Proof.
  induction es as [|e es IH]; [reflexivity|]. simpl.
  intros [He Hes]%andb_true_iff.
  destruct e as [[]| | | |]; try discriminate He; now apply IH.
Qed.

End LoopFacts.

(** * The claims of the specification *)

Module Claims.
Import Handler Spec Examples.
Import WorldFacts HandlerFacts LoopFacts DecodeFacts AnsiFacts.

(** ** Terminal output keeps the payload and only flags ANSI codes *)

(** C7.  For every output string, command and exit code,
    [NewTerminalOutput] builds a [terminal_output] message whose [Data] is
    the output, byte for byte, and whose metadata carries the command, the
    exit code and the flag [has_ansi]; the flag is [containsAnsiCodes] of
    the output alone, which holds exactly when the output contains ESC, an
    opening bracket, digits and semicolons, then [m] or [K]. *)
Theorem NewTerminalOutput_data_and_ansi
    (output command : string) (exitCode : option Z) (w : World) :
  let m := fst (NewTerminalOutput output command exitCode w) in
  Type_ m = MessageTypeTerminalOutput /\
  Data m = output /\
  Metadata m = Some (mkMetadata (containsAnsiCodes output) exitCode command
                       EmptyString EmptyString EmptyString) /\
  (containsAnsiCodes output = true <-> has_csi output).
Proof.
  rewrite NewTerminalOutput_eq. cbn [fst Type_ Data Metadata output_message].
  repeat split; try reflexivity; apply containsAnsiCodes_spec.
Qed.

(** ** The payload of a connection-state message *)

(** C8.  For every state and message string, [NewConnectionStateMessage]
    builds a [connection_state] message whose [data] is the JSON text of
    an object: its first member is [state], a [message] member follows
    exactly when the message string is not empty, and nothing else.  Read
    back, the members hold the given strings whenever these are ASCII, as
    the four states [connecting], [connected], [disconnected] and [error]
    are. *)
Theorem NewConnectionStateMessage_payload
    (state : ConnectionState) (message : string) (w : World) :
  let m := fst (NewConnectionStateMessage state message w) in
  Type_ m = MessageTypeConnectionState /\
  Data m = object
             (member "state" (Json.appendString state) ::
              if nonempty message
              then [member "message" (Json.appendString message)] else []) /\
  payload_members (Data m) =
    Some (("state"%string, json_text state) ::
          if nonempty message then [("message"%string, json_text message)]
          else []) /\
  (all ascii7 state = true -> json_text state = state) /\
  (all ascii7 message = true -> json_text message = message) /\
  Forall (fun s => all ascii7 s = true)
    [ConnectionStateConnecting; ConnectionStateConnected;
     ConnectionStateDisconnected; ConnectionStateError].
Proof.
  unfold NewConnectionStateMessage. rewrite NewMessage_eq.
  cbn [fst Type_ Data].
  split; [reflexivity|]. split; [reflexivity|].
  split; [apply payload_ConnectionStateMessage|].
  split; [apply json_text_ascii|]. split; [apply json_text_ascii|].
  repeat constructor.
Qed.

(** The greeting of both handlers, read back. *)
Lemma NewConnectionStateMessage_payload_witness :
  all ascii7 ConnectionStateConnected = true /\
  all ascii7 "WebSocket connection established" = true /\
  payload_members
    (Data (fst (NewConnectionStateMessage ConnectionStateConnected
                  "WebSocket connection established" w0))) =
  Some [("state"%string, "connected"%string);
        ("message"%string, "WebSocket connection established"%string)].
Proof.
  split; [reflexivity|]. split; [reflexivity|].
  destruct (NewConnectionStateMessage_payload ConnectionStateConnected
              "WebSocket connection established" w0)
    as (_ & _ & Hp & Hs & Hm & _).
  rewrite Hp, (Hs eq_refl), (Hm eq_refl). reflexivity.
Defined.

(** ** Malformed frames *)



(** ** Decoding checks the syntax, not the type *)

(** C1, as the code has it.  Input that is not one JSON value yields a
    syntax error and the zero message.  Whenever decoding reports an
    error — and the clock reads a time RFC 3339 can write —
    [Connection.HandleWs] sends the [system_message] "Invalid message
    format".  The type is not checked against any list: an envelope
    decodes without error whatever string its type holds, and a decoded
    frame of a type the handler has no case for (any but
    [connection_request]) is logged and nothing is sent. *)
Theorem decode_checks_syntax_not_type :
  (forall data,
      Json.parse data = None ->
      ParseMessage data = (zeroMessage, Some SyntaxError)) /\
  (forall t d,
      ParseMessage (object [member "type" (Json.appendString t);
                            member "data" (Json.appendString d)]) =
      (mkMessage (json_text t) (json_text d) Time.zero None, None)) /\
  (forall shell p w msg e,
      ParseMessage p = (msg, Some e) ->
      Time.marshalable (clock w (ticks w)) = true ->
      Connection.serve_frame shell p w =
      (shell,
       advance 1
         [EvLog (LogInvalidFormat e);
          EvWrite (frame_of (diagnostic "Invalid message format" w))] w)) /\
  (forall shell p w msg,
      ParseMessage p = (msg, None) ->
      Type_ msg <> MessageTypeConnectionRequest ->
      Connection.serve_frame shell p w =
      (shell, advance 0 [EvLog (LogUnhandled (Type_ msg))] w)).
Proof.
  split; [|split; [|split]].
  - intros data Hp. unfold ParseMessage, Unmarshal. now rewrite Hp.
  - apply ParseMessage_type_data.
  - intros shell p w msg e Hp Hclock.
    rewrite (Connection_serve_frame_malformed _ _ _ _ _ Hp).
    unfold diagnosed. now rewrite Hclock.
  - intros shell p w msg Hp Ht.
    now apply Connection_serve_frame_unhandled.
Qed.

Lemma decode_checks_syntax_not_type_witness :
  Json.parse broken_frame = None /\
  ParseMessage broken_frame = (zeroMessage, Some SyntaxError) /\
  ParseMessage bogus_frame = (mkMessage "bogus" "x" Time.zero None, None) /\
  "bogus"%string <> MessageTypeConnectionRequest /\
  Connection.serve_frame idle bogus_frame w0 =
    (idle, advance 0 [EvLog (LogUnhandled "bogus")] w0).
Proof.
  destruct decode_checks_syntax_not_type as (Hsyn & _ & _ & Hun).
  split; [reflexivity|].
  split; [exact (Hsyn broken_frame eq_refl)|].
  split; [reflexivity|].
  split; [discriminate|].
  apply (Hun idle bogus_frame w0 (mkMessage "bogus" "x" Time.zero None));
    [reflexivity | discriminate].
Defined.

(** C1, as the specification has it, fails on a frame of an unknown type:
    [bogus] is none of the wire types, yet the frame decodes without
    error, and the handler sends the client nothing for it. *)
Lemma unknown_type_accepted_silently :
  ~ In "bogus"%string wire_types /\
  ParseMessage bogus_frame = (mkMessage "bogus" "x" Time.zero None, None) /\
  snd (ParseMessage bogus_frame) = None /\
  Connection.serve_frame idle bogus_frame w0 =
    (idle, advance 0 [EvLog (LogUnhandled "bogus")] w0) /\
  writes (trace (snd (Connection.serve_frame idle bogus_frame w0))) = [].
Proof.
  split.
  - unfold wire_types. simpl. intuition discriminate.
  - repeat split; reflexivity.
Qed.

(** ** Sessions and authentication *)

(** C2, as the code has it.  A connection that was upgraded gets exactly
    one shell session: both handlers create it right after the upgrade,
    before any frame is read and without any authentication, and nothing
    they do later creates another.  A connection whose upgrade fails gets
    none. *)
Theorem session_created_on_upgrade (frames : list string) (w : World) :
  (exists n es,
      snd (Connection.HandleWs true frames w) =
        advance n ([EvLog LogNewConnection; EvNewShell] ++ es) w /\
      sessions es = 0%nat) /\
  (exists n es,
      snd (HandlerDeps.HandleWs true frames w) =
        advance n ([EvLog LogNewConnection; EvNewShell] ++ es) w /\
      sessions es = 0%nat) /\
  sessions (trace (snd (Connection.HandleWs true frames w))) =
    S (sessions (trace w)) /\
  sessions (trace (snd (HandlerDeps.HandleWs true frames w))) =
    S (sessions (trace w)) /\
  sessions (trace (snd (Connection.HandleWs false frames w))) =
    sessions (trace w) /\
  sessions (trace (snd (HandlerDeps.HandleWs false frames w))) =
    sessions (trace w).
Proof.
  destruct (Connection_HandleWs_trace frames w) as (n & es & Hw & Hes).
  destruct (HandlerDeps_HandleWs_trace frames w) as (n' & es' & Hw' & Hes').
  assert (Hz : sessions (es ++ [EvLog LogReadError; EvClose]) = 0%nat).
  { rewrite sessions_app, (sessions_frame_events _ Hes). reflexivity. }
  assert (Hz' : sessions (es' ++ [EvLog LogReadError]) = 0%nat).
  { rewrite sessions_app, (sessions_frame_events _ Hes'). reflexivity. }
  split; [eauto|]. split; [eauto|].
  split; [|split; [|split]].
  - rewrite Hw, trace_advance, sessions_app, sessions_app, Hz. cbn. lia.
  - rewrite Hw', trace_advance, sessions_app, sessions_app, Hz'. cbn. lia.
  - unfold Connection.HandleWs. cbn [negb]. rewrite log_eq. cbn [snd].
    rewrite trace_advance, sessions_app. cbn. lia.
  - unfold HandlerDeps.HandleWs. cbn [negb]. rewrite log_eq. cbn [snd].
    rewrite trace_advance, sessions_app. cbn. lia.
Qed.

(** C2, as the specification has it, fails on a client that connects and
    sends nothing: it presented no credential and authenticated nowhere,
    and each handler has created a shell session for it. *)
Lemma session_without_authentication :
  sessions (trace (snd (Connection.HandleWs true [] w0))) = 1%nat /\
  sessions (trace (snd (HandlerDeps.HandleWs true [] w0))) = 1%nat.
Proof. split; reflexivity. Qed.

(** ** Failures and what the client is told *)

(** C5, as the code has it.  When reading from the connection fails,
    [Connection.HandleWs] logs the error and closes the connection: these
    are the last two events, no close comes earlier and no frame is
    written between the read error and the close.  The failures the
    handler survives — a frame that does not decode, and every error
    [handleConnectionRequest] returns, a connection request without
    metadata among them — are answered with exactly one [system_message]
    each (the clock reading a time RFC 3339 can write); the connection
    stays open and the shell is as the failed call left it. *)
Theorem read_error_closes_silently :
  (forall frames w,
      exists n es,
        snd (Connection.HandleWs true frames w) =
          advance n (es ++ [EvLog LogReadError; EvClose]) w /\
        ~ In EvClose es /\
        ~ In (EvLog LogReadError) es /\
        writes (after_read_error (es ++ [EvLog LogReadError; EvClose])) = []) /\
  (forall shell p w msg e,
      ParseMessage p = (msg, Some e) ->
      Time.marshalable (clock w (ticks w)) = true ->
      Connection.serve_frame shell p w =
      (shell,
       advance 1
         [EvLog (LogInvalidFormat e);
          EvWrite (frame_of (diagnostic "Invalid message format" w))] w)) /\
  (forall shell p w msg,
      ParseMessage p = (msg, None) ->
      Type_ msg = MessageTypeConnectionRequest ->
      Metadata msg = None ->
      Time.marshalable (clock w (ticks w)) = true ->
      Connection.serve_frame shell p w =
      (shell,
       advance 1
         [EvLog LogMissingMetadata;
          EvLog (LogConnectionRequestFailed ErrInvalidMessageFormat);
          EvWrite (frame_of
                     (diagnostic "Failed to handle connection request" w))]
         w)) /\
  (forall shell p w msg shell' e w1,
      ParseMessage p = (msg, None) ->
      Type_ msg = MessageTypeConnectionRequest ->
      Connection.handleConnectionRequest msg shell w = ((shell', Some e), w1) ->
      Time.marshalable (clock w1 (ticks w1)) = true ->
      Connection.serve_frame shell p w =
      (shell',
       advance 1
         [EvLog (LogConnectionRequestFailed e);
          EvWrite (frame_of
                     (diagnostic "Failed to handle connection request" w1))]
         w1)).
Proof.
  split; [|split; [|split]].
  - intros frames w.
    destruct (Connection_HandleWs_trace frames w) as (n & es & Hw & Hes).
    exists n, ([EvLog LogNewConnection; EvNewShell] ++ es).
    assert (Hall : forall e, In e es -> frame_event e = true).
    { intros e He. rewrite forallb_forall in Hes. now apply Hes. }
    split; [now rewrite Hw, <- app_assoc|]. split; [|split].
    + intros [H|[H|H]]; try discriminate H. now apply Hall in H.
    + intros [H|[H|H]]; try discriminate H. now apply Hall in H.
    + cbn [List.app after_read_error].
      now rewrite (after_read_error_frame_events es [EvClose] Hes).
  - intros shell p w msg e Hp Hclock.
    rewrite (Connection_serve_frame_malformed _ _ _ _ _ Hp).
    unfold diagnosed. now rewrite Hclock.
  - intros shell p w msg Hp Ht Hmd Hclock.
    unfold Connection.serve_frame. rewrite Hp, Ht. cbn [String.eqb].
    change (String.eqb MessageTypeConnectionRequest MessageTypeConnectionRequest)
      with true. cbv iota.
    unfold Connection.handleConnectionRequest. rewrite Hmd.
    unfold bind at 1. unfold bind at 1. rewrite log_eq. unfold ret.
    unfold bind at 1. rewrite log_eq.
    unfold bind, NewSystemMessage. rewrite NewMessage_eq, send_eq.
    rewrite !advance_advance. cbn [Timestamp clock ticks advance].
    replace (ticks w + (0 + 0))%nat with (ticks w) by lia.
    rewrite Hclock. reflexivity.
  - intros shell p w msg shell' e w1 Hp Ht Hreq Hclock.
    unfold Connection.serve_frame. rewrite Hp, Ht.
    change (String.eqb MessageTypeConnectionRequest MessageTypeConnectionRequest)
      with true. cbv iota.
    unfold bind at 1. rewrite Hreq.
    unfold bind at 1. rewrite log_eq.
    unfold bind, NewSystemMessage. rewrite NewMessage_eq, send_eq.
    unfold ret, diagnostic. rewrite !advance_advance.
    cbn [Timestamp clock ticks advance].
    replace (ticks w1 + 0)%nat with (ticks w1) by lia.
    rewrite Hclock. reflexivity.
Qed.

Lemma read_error_closes_silently_witness :
  ParseMessage broken_frame = (zeroMessage, Some SyntaxError) /\
  Time.marshalable (clock w0 (ticks w0)) = true /\
  writes (trace (snd (Connection.serve_frame idle broken_frame w0))) =
    [js "{'type':'system_message','data':'Invalid message format','timestamp':'2025-08-12T14:00:00Z'}"].
Proof.
  destruct read_error_closes_silently as (_ & Hbad & _).
  split; [reflexivity|]. split; [reflexivity|].
  rewrite (Hbad idle broken_frame w0 zeroMessage SyntaxError eq_refl eq_refl).
  reflexivity.
Defined.

(** C5, as the specification has it, fails on the read error: the client
    of this connection sends nothing and goes away; after the read error
    the handler closes the connection and writes no frame, the only frame
    of the whole connection being the greeting. *)
Lemma read_error_sends_nothing :
  trace (snd (Connection.HandleWs true [] w0)) =
    [EvLog LogNewConnection; EvNewShell;
     EvWrite (js "{'type':'connection_state','data':'{\'state\':\'connected\',\'message\':\'WebSocket connection established\'}','timestamp':'2025-08-12T14:00:00Z'}");
     EvLog LogShellStarted; EvLog LogReadError; EvClose] /\
  after_read_error (trace (snd (Connection.HandleWs true [] w0))) = [EvClose] /\
  writes (after_read_error (trace (snd (Connection.HandleWs true [] w0)))) = [].
Proof. repeat split; reflexivity. Qed.

(** ** Resize messages *)

(** C6, as the code has it.  A resize message — of type [resize] or
    [terminal_resize] — is ignored in every session state, [Active] or
    not: each handler logs it as unhandled and leaves the session, and
    with it the geometry, exactly as it was; nothing is written and
    nothing is kept for later. *)
Theorem resize_ignored
    (p : string) (msg : Message) (w : World)
    (conn : ShellConnection) (sim : ShellSession) :
  ParseMessage p = (msg, None) ->
  In (Type_ msg) resize_types ->
  Connection.serve_frame conn p w =
    (conn, advance 0 [EvLog (LogUnhandled (Type_ msg))] w) /\
  HandlerDeps.serve_frame sim p w =
    (sim, advance 0 [EvLog (LogUnhandled (Type_ msg))] w).
Proof.
  intros Hp Ht. split.
  - apply Connection_serve_frame_unhandled; [assumption|].
    destruct Ht as [<-|[<-|[]]]; discriminate.
  - apply HandlerDeps_serve_frame_unhandled; [assumption| |];
      destruct Ht as [<-|[<-|[]]]; discriminate.
Qed.

Lemma resize_ignored_witness :
  ParseMessage resize_frame =
    (mkMessage "terminal_resize" (js "{'cols':132,'rows':50}") t0 None, None) /\
  In "terminal_resize"%string resize_types /\
  Connection.serve_frame (mkShellConnection Active 80 24) resize_frame w0 =
    (mkShellConnection Active 80 24,
     advance 0 [EvLog (LogUnhandled "terminal_resize")] w0).
Proof.
  split; [reflexivity|]. split; [right; left; reflexivity|].
  apply (resize_ignored resize_frame
           (mkMessage "terminal_resize" (js "{'cols':132,'rows':50}") t0 None)
           w0 (mkShellConnection Active 80 24) fresh);
    [reflexivity | right; left; reflexivity].
Defined.

(** C6, as the specification has it, fails on an active session.  The
    resize message asks for 132 columns and 50 rows; a session that is
    [Active] with 80 columns and 24 rows has 80 columns and 24 rows after
    it.  The same holds along a whole connection: after a connection
    request that the remote host accepts the session is [Active], and the
    resize message that follows leaves its geometry as it was. *)
Lemma resize_leaves_geometry :
  resize_request (fst (ParseMessage resize_frame)) = Some (132, 50) /\
  fst (Connection.serve_frame (mkShellConnection Active 80 24) resize_frame w0)
    = mkShellConnection Active 80 24 /\
  state (fst (Connection.serve idle [connect_frame] w0)) = Active /\
  fst (Connection.serve idle [connect_frame; resize_frame] w0) =
  fst (Connection.serve idle [connect_frame] w0).
Proof. repeat split; vm_compute; reflexivity. Qed.

(** ** The input buffer of the simulated shell *)

Lemma fst_bind_ret {A B} (c : M A) (b : B) w :
  fst (bind c (fun _ => ret b) w) = b.
Proof. unfold bind, ret. now destruct (c w). Qed.

Lemma fst_processCommand s w :
  fst (processCommand s w) = mkShellSession EmptyString (prompt s).
Proof.
  unfold processCommand, bind, ret.
  repeat match goal with
         | |- context [let '(_, _) := ?c in _] => destruct c
         end.
  reflexivity.
Qed.

Lemma fst_handleBackspace s w :
  fst (handleBackspace s w) =
  if (0 <? String.length (currentInput s))%nat
  then mkShellSession (drop_last (currentInput s)) (prompt s)
  else s.
Proof.
  unfold handleBackspace. destruct (0 <? _)%nat; [|reflexivity].
  apply fst_bind_ret.
Qed.

(** What one call of [HandleInput] does to the buffer. *)
Lemma HandleInput_buffer s input w :
  let s' := fst (HandleInput s input w) in
  (exists c, input = str1 c /\ printable c = true /\
             currentInput s' = currentInput s +:+ str1 c) \/
  currentInput s' = drop_last (currentInput s) \/
  currentInput s' = EmptyString \/
  currentInput s' = currentInput s.
Proof.
  unfold HandleInput.
  destruct (String.eqb input (str1 CR) || String.eqb input (str1 LF)).
  { right. right. left. now rewrite fst_processCommand. }
  destruct (String.eqb input (str1 DEL)).
  { rewrite fst_handleBackspace. destruct (0 <? _)%nat; auto. }
  destruct input as [|c [|d rest]]; auto.
  destruct (printable c) eqn:Hc; auto.
  left. exists c. rewrite fst_bind_ret. auto.
Qed.

Lemma all_drop_last p s : all p s = true -> all p (drop_last s) = true.
Proof.
  induction s as [|c s IH]; [reflexivity|]. simpl.
  intros [Hc Hs]%andb_true_iff. destruct s as [|d s']; [reflexivity|].
  cbn [all]. rewrite Hc. now apply IH.
Qed.

Lemma length_drop_last s :
  (String.length (drop_last s) <= String.length s)%nat.
Proof.
  induction s as [|c s IH]; [reflexivity|]. simpl.
  destruct s as [|d s']; simpl in *; lia.
Qed.

Lemma HandleInput_printable s input w :
  all printable (currentInput s) = true ->
  all printable (currentInput (fst (HandleInput s input w))) = true.
Proof.
  intros Hs.
  destruct (HandleInput_buffer s input w) as [(c & _ & Hc & ->)|[->|[->| ->]]].
  - rewrite all_app, Hs. simpl. now rewrite Hc.
  - now apply all_drop_last.
  - reflexivity.
  - assumption.
Qed.

Lemma HandleInputs_printable inputs :
  forall s w,
    all printable (currentInput s) = true ->
    all printable (currentInput (fst (HandleInputs s inputs w))) = true.
Proof.
  induction inputs as [|i rest IH]; intros s w Hs; [exact Hs|].
  cbn [HandleInputs]. unfold bind.
  pose proof (HandleInput_printable s i w Hs) as H1.
  destruct (HandleInput s i w) as [s1 w1]. now apply IH.
Qed.

(** C9.  Whatever inputs a fresh [ShellSession] is given, its input buffer
    holds printable ASCII bytes (0x20 to 0x7E) only; the buffer grows only
    by one printable character, the input itself; and a backspace on an
    empty buffer changes neither the session nor the world: nothing is
    written. *)
Theorem currentInput_printable :
  (forall inputs w,
      all printable
        (currentInput
           (fst (bind NewShellSession (fun s => HandleInputs s inputs) w)))
      = true) /\
  (forall s input w,
      (String.length (currentInput s) <
       String.length (currentInput (fst (HandleInput s input w))))%nat ->
      exists c, input = str1 c /\ printable c = true /\
                currentInput (fst (HandleInput s input w)) =
                currentInput s +:+ str1 c) /\
  (forall s w,
      currentInput s = EmptyString ->
      HandleInput s (str1 DEL) w = (s, w)).
Proof.
  split; [|split].
  - intros inputs w. unfold bind at 1, NewShellSession, bind at 1.
    rewrite emit_eq. unfold ret. now apply HandleInputs_printable.
  - intros s input w Hlen.
    destruct (HandleInput_buffer s input w) as [H|[H|[H|H]]];
      [exact H | exfalso..]; rewrite H in Hlen.
    + pose proof (length_drop_last (currentInput s)). lia.
    + simpl in Hlen. lia.
    + lia.
  - intros s w Hs. unfold HandleInput.
    change (String.eqb (str1 DEL) (str1 CR) || String.eqb (str1 DEL) (str1 LF))
      with false.
    change (String.eqb (str1 DEL) (str1 DEL)) with true. cbv iota.
    unfold handleBackspace. now rewrite Hs.
Qed.

Lemma currentInput_printable_witness :
  (String.length (currentInput fresh) <
   String.length (currentInput (fst (HandleInput fresh "l" w0))))%nat /\
  currentInput (fst (HandleInput fresh "l" w0)) = "l"%string /\
  HandleInput fresh (str1 DEL) w0 = (fresh, w0).
Proof.
  destruct currentInput_printable as (_ & Hgrow & Hdel).
  assert (Hlen : (String.length (currentInput fresh) <
                  String.length (currentInput (fst (HandleInput fresh "l" w0))))%nat)
    by (vm_compute; lia).
  split; [exact Hlen|]. split.
  - destruct (Hgrow fresh "l"%string w0 Hlen) as (c & Hc & _ & Heq).
    injection Hc as <-. exact Heq.
  - exact (Hdel fresh w0 eq_refl).
Defined.

(** ** Configuration *)

Import Config.

Lemma parseInt_spec value d :
  parseInt value d =
  match Strconv.Atoi value with
  | Some v => if 0 <? v then v else d
  | None => d
  end.
Proof.
  unfold parseInt. destruct (String.eqb_spec value EmptyString) as [->|_].
  - reflexivity.
  - destruct (Strconv.Atoi value) as [v|]; [|reflexivity].
    destruct (Z.leb_spec v 0), (Z.ltb_spec 0 v); (reflexivity || lia).
Qed.

Lemma parseDuration_spec PD value d :
  parseDuration PD value d =
  if String.eqb value EmptyString then d
  else match PD value with
       | Some v => if 0 <? v then v else d
       | None => d
       end.
Proof.
  unfold parseDuration. destruct (String.eqb value EmptyString); [reflexivity|].
  destruct (PD value) as [v|]; [|reflexivity].
  destruct (Z.leb_spec v 0), (Z.ltb_spec 0 v); (reflexivity || lia).
Qed.

Lemma parseInt_pos value d : 0 < d -> 0 < parseInt value d.
Proof.
  intros Hd. rewrite parseInt_spec.
  destruct (Strconv.Atoi value) as [v|]; [|exact Hd].
  destruct (Z.ltb_spec 0 v); assumption.
Qed.

Lemma parseDuration_pos PD value d : 0 < d -> 0 < parseDuration PD value d.
Proof.
  intros Hd. rewrite parseDuration_spec.
  destruct (String.eqb value EmptyString); [exact Hd|].
  destruct (PD value) as [v|]; [|exact Hd].
  destruct (Z.ltb_spec 0 v); assumption.
Qed.

(** C10.  For every input string and every positive default, [parseInt]
    and [parseDuration] return a positive number: the parsed value when
    the string parses to a number above zero, the default otherwise —
    whatever [time.ParseDuration] makes of a string.  So every
    configuration [NewServer] builds, from any environment, has positive
    timeouts, connection limit and buffer sizes. *)
Theorem config_values_positive :
  (forall value d,
      0 < d ->
      0 < parseInt value d /\
      parseInt value d =
        match Strconv.Atoi value with
        | Some v => if 0 <? v then v else d
        | None => d
        end) /\
  (forall PD value d,
      0 < d ->
      0 < parseDuration PD value d /\
      parseDuration PD value d =
        if String.eqb value EmptyString then d
        else match PD value with
             | Some v => if 0 <? v then v else d
             | None => d
             end) /\
  (forall PD env,
      let cfg := NewServer PD env in
      0 < ReadTimeout cfg /\ 0 < WriteTimeout cfg /\
      0 < MaxConnections cfg /\
      0 < ReadBufferSize cfg /\ 0 < WriteBufferSize cfg).
Proof.
  split; [|split].
  - intros value d Hd. split; [now apply parseInt_pos | apply parseInt_spec].
  - intros PD value d Hd.
    split; [now apply parseDuration_pos | apply parseDuration_spec].
  - intros PD env. cbn [NewServer ReadTimeout WriteTimeout MaxConnections
                          ReadBufferSize WriteBufferSize].
    repeat split;
      (apply parseDuration_pos || apply parseInt_pos); reflexivity.
Qed.

Lemma config_values_positive_witness :
  0 < 100 /\
  parseInt "8080" 100 = 8080 /\
  parseInt "-5" 100 = 100 /\
  parseInt "many" 100 = 100 /\
  parseDuration ParseDuration_exact "45s" DefaultReadTimeout = 45 * Second /\
  parseDuration ParseDuration_exact "0s" DefaultReadTimeout = DefaultReadTimeout /\
  ReadTimeout (NewServer ParseDuration_exact
                 {[ "WEB_SSH_READ_TIMEOUT"%string := "-3h"%string ]})
    = DefaultReadTimeout.
Proof.
  destruct config_values_positive as (Hpi & Hdur & _).
  assert (H100 : 0 < 100) by lia.
  assert (Hdef : 0 < DefaultReadTimeout) by reflexivity.
  split; [exact H100|].
  split; [rewrite (proj2 (Hpi "8080"%string 100 H100)); reflexivity|].
  split; [rewrite (proj2 (Hpi "-5"%string 100 H100)); reflexivity|].
  split; [rewrite (proj2 (Hpi "many"%string 100 H100)); reflexivity|].
  split; [rewrite (proj2 (Hdur ParseDuration_exact "45s"%string _ Hdef));
          reflexivity|].
  split; [rewrite (proj2 (Hdur ParseDuration_exact "0s"%string _ Hdef));
          reflexivity|].
  vm_compute. reflexivity.
Defined.

End Claims.

(** * Further properties: the simulated shell *)

Module ShellFacts.
Import Handler Spec ShellRuns WorldFacts HandlerFacts JsonFacts.

(** ** Strings *)

Lemma rev_app_rev (y t : string) : String.rev_app y t = String.rev y +:+ t.
Proof.
  revert t. induction y as [|c y IH]; intros t; [reflexivity|].
  unfold String.rev. simpl.
  rewrite (IH (String c t)), (IH (String c EmptyString)).
  now rewrite sapp_assoc.
Qed.

Lemma rev_sapp (a b : string) :
  String.rev (a +:+ b) = String.rev b +:+ String.rev a.
Proof.
  unfold String.rev at 1. rewrite rev_app_append.
  now rewrite rev_app_rev.
Qed.

Lemma rev_cons c (s : string) : String.rev (String c s) = String.rev s +:+ str1 c.
Proof. change (String c s) with (str1 c +:+ s). now rewrite rev_sapp. Qed.

Lemma all_rev p (s : string) : all p (String.rev s) = all p s.
Proof.
  induction s as [|c s IH]; [reflexivity|].
  rewrite rev_cons, all_app, IH. simpl. rewrite andb_true_r. apply andb_comm.
Qed.

Lemma length_sapp (a b : string) :
  String.length (a +:+ b) = (String.length a + String.length b)%nat.
Proof. induction a as [|c a IH]; [reflexivity|]. rewrite sapp_cons. simpl. now rewrite IH. Qed.

Lemma drop_last_snoc (s : string) c : drop_last (s +:+ str1 c) = s.
Proof.
  induction s as [|d s IH]; [reflexivity|].
  rewrite sapp_cons.
  destruct (s +:+ str1 c) as [|e r] eqn:He.
  { apply sapp_eq_nil in He as [_ He]. discriminate. }
  change (drop_last (String d (String e r)))
    with (String d (drop_last (String e r))).
  now rewrite IH.
Qed.

Lemma drop_last_take (s : string) :
  drop_last s = Json.take (String.length s - 1) s.
Proof.
  induction s as [|c s IH]; [reflexivity|].
  destruct s as [|d s]; [reflexivity|].
  change (drop_last (String c (String d s)))
    with (String c (drop_last (String d s))).
  rewrite IH. cbn [String.length].
  replace (S (S (String.length s)) - 1)%nat with (S (String.length s)) by lia.
  replace (S (String.length s) - 1)%nat with (String.length s) by lia.
  reflexivity.
Qed.

Lemma take_take n m (s : string) :
  Json.take n (Json.take m s) = Json.take (Nat.min n m) s.
Proof.
  revert n m. induction s as [|c s IH]; intros [|n] [|m]; try reflexivity.
  simpl. now rewrite IH.
Qed.

Lemma length_take n (s : string) :
  String.length (Json.take n s) = Nat.min n (String.length s).
Proof.
  revert n. induction s as [|c s IH]; intros [|n]; try reflexivity.
  simpl. now rewrite IH.
Qed.

Lemma take_all n (s : string) : (String.length s <= n)%nat -> Json.take n s = s.
Proof.
  revert n. induction s as [|c s IH]; intros [|n] H; try reflexivity;
    simpl in *; [lia|]. rewrite IH by lia. reflexivity.
Qed.

(** ** [strings.TrimSpace] *)

Lemma rev_rev (s : string) : String.rev (String.rev s) = s.
Proof. apply JsonFacts.rev_rev_app. Qed.

Lemma asciiSpace_low c : asciiSpace c = true -> (0x80 <=? code c) = false.
Proof. unfold asciiSpace. lia. Qed.

Lemma asciiSpace_ascii7 c : asciiSpace c = true -> ascii7 c = true.
Proof. unfold asciiSpace, ascii7. lia. Qed.

Lemma asciiSpace_IsSpace c : asciiSpace c = true -> IsSpace (code c) = true.
Proof.
  unfold asciiSpace, IsSpace. intros H.
  destruct (code c <=? 0xFF) eqn:E; lia.
Qed.

Lemma blanks_ascii7 (r : string) :
  all asciiSpace r = true -> all ascii7 r = true.
Proof.
  induction r as [|c r IH]; [reflexivity|]. cbn [all].
  intros [Hc Hr]%andb_true_iff. now rewrite (asciiSpace_ascii7 c Hc), IH.
Qed.

Lemma all_take p n (s : string) : all p s = true -> all p (Json.take n s) = true.
Proof.
  revert n. induction s as [|c s IH]; intros [|n] H; try reflexivity.
  simpl in *. apply andb_true_iff in H as [Hc H]. now rewrite Hc, IH.
Qed.

Lemma take_sapp_le n (y r : string) :
  (n <= String.length y)%nat -> Json.take n (y +:+ r) = Json.take n y.
Proof.
  revert n. induction y as [|c y IH]; intros [|n] H; simpl in H;
    try reflexivity; try lia.
  rewrite sapp_cons. cbn [Json.take]. rewrite IH by lia. reflexivity.
Qed.

Lemma drop_sapp_le n (y r : string) :
  (n <= String.length y)%nat -> Json.drop n (y +:+ r) = Json.drop n y +:+ r.
Proof.
  revert n. induction y as [|c y IH]; intros [|n] H; simpl in H;
    try reflexivity; try lia.
  rewrite sapp_cons. cbn [Json.drop]. apply IH. lia.
Qed.

Lemma length_drop n (s : string) :
  String.length (Json.drop n s) = (String.length s - n)%nat.
Proof.
  revert n. induction s as [|c s IH]; intros [|n]; try reflexivity.
  simpl. apply IH.
Qed.

Lemma get_sapp_lt n (y r : string) :
  (n < String.length y)%nat -> String.get n (y +:+ r) = String.get n y.
Proof.
  revert n. induction y as [|c y IH]; intros n H; simpl in H; [lia|].
  rewrite sapp_cons. destruct n as [|n]; [reflexivity|].
  cbn [String.get]. apply IH. lia.
Qed.

Lemma get_snoc (y : string) c :
  String.get (String.length y) (y +:+ str1 c) = Some c.
Proof. induction y as [|d y IH]; [reflexivity|]. rewrite sapp_cons. exact IH. Qed.

(** *** Runes *)

Lemma lead_info_lo b sz lo hi :
  Utf8.lead_info b = Some (sz, lo, hi) -> 0x80 <= lo.
Proof.
  unfold Utf8.lead_info.
  repeat match goal with
         | |- context [if ?t then _ else _] => destruct t
         end; intros [= <- <- <-]; lia.
Qed.

Lemma DecodeRuneInString_low c (s : string) :
  code c < 0x80 -> Utf8.DecodeRuneInString (String c s) = (code c, 1%nat).
Proof.
  intros H. unfold Utf8.DecodeRuneInString.
  destruct (Z.ltb_spec (code c) 0x80); [reflexivity | lia].
Qed.

(** ASCII bytes after a text do not change its first rune: they cannot
    complete an encoding that the text leaves open. *)
Lemma DecodeRuneInString_app (t r : string) :
  t <> EmptyString -> all ascii7 r = true ->
  Utf8.DecodeRuneInString (t +:+ r) = Utf8.DecodeRuneInString t.
Proof.
  intros Ht Hr.
  assert (Hlow : forall d r', r = String d r' -> code d < 0x80).
  { intros d r' ->. cbn [all] in Hr. apply andb_true_iff in Hr as [Hd _].
    unfold ascii7 in Hd. lia. }
  destruct t as [|c0 t]; [congruence|]. rewrite sapp_cons.
  unfold Utf8.DecodeRuneInString.
  destruct (code c0 <? 0x80); [reflexivity|].
  destruct (Utf8.lead_info (code c0)) as [[[sz lo] hi]|] eqn:Hl; [|reflexivity].
  apply lead_info_lo in Hl.
  destruct t as [|c1 t].
  { rewrite sapp_nil_l. destruct r as [|d r']; [reflexivity|].
    specialize (Hlow d r' eq_refl).
    destruct (Z.ltb_spec (code d) lo); [reflexivity | lia]. }
  rewrite sapp_cons.
  destruct ((code c1 <? lo) || (hi <? code c1)); [reflexivity|].
  destruct (sz =? 2)%nat; [reflexivity|].
  destruct t as [|c2 t].
  { rewrite sapp_nil_l. destruct r as [|d r']; [reflexivity|].
    specialize (Hlow d r' eq_refl). unfold Utf8.is_cont.
    destruct (Z.leb_spec 0x80 (code d)); [lia | reflexivity]. }
  rewrite sapp_cons.
  destruct (negb (Utf8.is_cont (code c2))); [reflexivity|].
  destruct (sz =? 3)%nat; [reflexivity|].
  destruct t as [|c3 t]; [|reflexivity].
  rewrite sapp_nil_l. destruct r as [|d r']; [reflexivity|].
  specialize (Hlow d r' eq_refl). unfold Utf8.is_cont.
  destruct (Z.leb_spec 0x80 (code d)); [lia | reflexivity].
Qed.

Lemma DecodeRuneInString_size (t : string) :
  t <> EmptyString ->
  (1 <= snd (Utf8.DecodeRuneInString t) <= String.length t)%nat.
Proof.
  intros Ht. destruct t as [|c0 t]; [congruence|].
  unfold Utf8.DecodeRuneInString. cbn [String.length].
  repeat match goal with
         | |- context [if ?b then _ else _] => destruct b
         | |- context [match ?x with Some _ => _ | None => _ end] => destruct x
         | |- context [match ?x with (_, _) => _ end] => destruct x
         | |- context [match ?x with EmptyString => _ | String _ _ => _ end] =>
             destruct x
         end; cbn [snd String.length]; lia.
Qed.

Lemma back_to_start_le n s start lim :
  Utf8.back_to_start n s start lim <= start.
Proof.
  revert start. induction n as [|n IH]; intros start; cbn [Utf8.back_to_start]; [lia|].
  destruct (start <? lim); [lia|].
  destruct (Utf8.RuneStart _); [lia|].
  specialize (IH (start - 1)). lia.
Qed.

Lemma DecodeLastRuneInString_size (s : string) :
  s <> EmptyString -> (1 <= snd (Utf8.DecodeLastRuneInString s))%nat.
Proof.
  intros Hs. unfold Utf8.DecodeLastRuneInString.
  assert (Hlen : 0 < Z.of_nat (String.length s)).
  { destruct s; [congruence|]. cbn [String.length]. lia. }
  destruct (Z.eqb_spec (Z.of_nat (String.length s)) 0); [lia|].
  destruct (_ <? 0x80); [cbn; lia|].
  set (start := Z.max 0 _).
  assert (Hstart : start < Z.of_nat (String.length s)).
  { subst start.
    pose proof (back_to_start_le 3 s (Z.of_nat (String.length s) - 2)
                  (Z.max 0 (Z.of_nat (String.length s) - 4))). lia. }
  destruct (Utf8.DecodeRuneInString _) as [r size].
  destruct (Z.eqb_spec (start + Z.of_nat size) (Z.of_nat (String.length s)));
    cbn [snd]; lia.
Qed.

Lemma DecodeLastRuneInString_low (y : string) c :
  code c < 0x80 ->
  Utf8.DecodeLastRuneInString (y +:+ str1 c) = (code c, 1%nat).
Proof.
  intros Hc. unfold Utf8.DecodeLastRuneInString.
  rewrite length_sapp. cbn [String.length str1].
  destruct (Z.eqb_spec (Z.of_nat (String.length y + 1)) 0); [lia|].
  assert (Hb : Utf8.byte (y +:+ str1 c) (Z.of_nat (String.length y + 1) - 1) = code c).
  { unfold Utf8.byte.
    replace (Z.to_nat (Z.of_nat (String.length y + 1) - 1))
      with (String.length y) by lia.
    now rewrite get_snoc. }
  rewrite Hb. destruct (Z.ltb_spec (code c) 0x80); [reflexivity | lia].
Qed.

(** *** [TrimLeftFunc] and [TrimRightFunc] *)

Lemma TrimLeftFunc_go_blanks (r : string) :
  all asciiSpace r = true -> TrimLeftFunc_go 0 r = EmptyString.
Proof.
  induction r as [|c r IH]; [reflexivity|]. cbn [all].
  intros [Hc Hr]%andb_true_iff. cbn [TrimLeftFunc_go].
  rewrite DecodeRuneInString_low
    by (apply asciiSpace_low in Hc; lia).
  rewrite (asciiSpace_IsSpace c Hc). now apply IH.
Qed.

Lemma TrimLeftFunc_go_app k (x r : string) :
  (k <= String.length x)%nat -> all asciiSpace r = true ->
  TrimLeftFunc_go k (x +:+ r) =
  match TrimLeftFunc_go k x with
  | EmptyString => EmptyString
  | t => t +:+ r
  end.
Proof.
  intros Hk Hr. revert k Hk.
  induction x as [|c x IH]; intros k Hk.
  - cbn [String.length] in Hk. replace k with 0%nat by lia.
    rewrite sapp_nil_l. now rewrite TrimLeftFunc_go_blanks.
  - cbn [String.length] in Hk. rewrite sapp_cons. cbn [TrimLeftFunc_go].
    destruct k as [|k]; [|apply IH; lia].
    rewrite <- sapp_cons.
    rewrite DecodeRuneInString_app
      by (try discriminate; now apply blanks_ascii7).
    pose proof (DecodeRuneInString_size (String c x)) as Hsz.
    destruct (Utf8.DecodeRuneInString (String c x)) as [rn size].
    cbn [snd String.length] in Hsz.
    destruct (IsSpace rn); [|reflexivity].
    apply IH. assert (String c x <> EmptyString) by discriminate.
    specialize (Hsz H). lia.
Qed.

Lemma all_TrimLeftFunc_go p k (s : string) :
  all p s = true -> all p (TrimLeftFunc_go k s) = true.
Proof.
  revert k. induction s as [|c s IH]; intros k H; [reflexivity|].
  cbn [TrimLeftFunc_go].
  assert (Hs : all p s = true) by (cbn [all] in H; now apply andb_true_iff in H).
  destruct k as [|k]; [|now apply IH].
  destruct (Utf8.DecodeRuneInString (String c s)) as [rn size].
  destruct (IsSpace rn); [now apply IH | exact H].
Qed.

Lemma take_length_sapp (y r : string) : Json.take (String.length y) (y +:+ r) = y.
Proof. rewrite take_sapp_le by lia. now apply take_all. Qed.

Lemma lastIndexFunc_snoc (y : string) c :
  asciiSpace c = true -> lastIndexFunc (y +:+ str1 c) = lastIndexFunc y.
Proof.
  intros Hc. unfold lastIndexFunc. rewrite length_sapp.
  cbn [String.length str1].
  replace (String.length y + 1)%nat with (S (String.length y)) by lia.
  cbn [lastIndexFunc_go].
  destruct (y +:+ str1 c) as [|a b] eqn:E.
  { apply sapp_eq_nil in E as [_ E]. discriminate. }
  rewrite <- E.
  rewrite DecodeLastRuneInString_low by (apply asciiSpace_low in Hc; lia).
  rewrite (asciiSpace_IsSpace c Hc), length_sapp. cbn [String.length str1].
  replace (String.length y + 1 - 1)%nat with (String.length y) by lia.
  now rewrite take_length_sapp.
Qed.

Lemma lastIndexFunc_go_bound fuel (s : string) i :
  lastIndexFunc_go fuel s = Some i -> (i < String.length s)%nat.
Proof.
  revert s. induction fuel as [|fuel IH]; intros s; [discriminate|].
  cbn [lastIndexFunc_go]. destruct s as [|a b] eqn:E; [discriminate|].
  rewrite <- E.
  pose proof (DecodeLastRuneInString_size s) as Hsz.
  destruct (Utf8.DecodeLastRuneInString s) as [r size]. cbn [snd] in Hsz.
  assert (Hs : s <> EmptyString) by (rewrite E; discriminate).
  specialize (Hsz Hs).
  assert (Hlen : (1 <= String.length s)%nat).
  { rewrite E. cbn [String.length]. lia. }
  destruct (IsSpace r).
  - intros H. apply IH in H. rewrite length_take in H. lia.
  - intros [= <-]. lia.
Qed.

Lemma TrimRightFunc_snoc (y : string) c :
  asciiSpace c = true -> TrimRightFunc (y +:+ str1 c) = TrimRightFunc y.
Proof.
  intros Hc. unfold TrimRightFunc. rewrite (lastIndexFunc_snoc y c Hc).
  destruct (lastIndexFunc y) as [i|] eqn:Hi; [|reflexivity].
  apply lastIndexFunc_go_bound in Hi.
  assert (Hb : Utf8.byte (y +:+ str1 c) (Z.of_nat i) = Utf8.byte y (Z.of_nat i)).
  { unfold Utf8.byte. rewrite Nat2Z.id. now rewrite get_sapp_lt. }
  rewrite Hb. rewrite drop_sapp_le by lia.
  assert (Hd : Json.drop i y <> EmptyString).
  { intros H. apply (f_equal String.length) in H.
    rewrite length_drop in H. cbn in H. lia. }
  rewrite DecodeRuneInString_app;
    [|exact Hd | cbn [all str1]; now rewrite (asciiSpace_ascii7 c Hc)].
  pose proof (DecodeRuneInString_size _ Hd) as Hsz. rewrite length_drop in Hsz.
  destruct (0x80 <=? Utf8.byte y (Z.of_nat i)); apply take_sapp_le; lia.
Qed.

Lemma TrimRightFunc_app (y r : string) :
  all asciiSpace r = true -> TrimRightFunc (y +:+ r) = TrimRightFunc y.
Proof.
  revert y. induction r as [|c r IH]; intros y.
  - now rewrite sapp_nil_r.
  - cbn [all]. intros [Hc Hr]%andb_true_iff.
    change (String c r) with (str1 c +:+ r). rewrite <- sapp_assoc.
    rewrite IH by assumption. now apply TrimRightFunc_snoc.
Qed.

Lemma all_TrimRightFunc p (s : string) :
  all p s = true -> all p (TrimRightFunc s) = true.
Proof.
  intros H. unfold TrimRightFunc.
  destruct (lastIndexFunc s); [|reflexivity].
  destruct (0x80 <=? _); now apply all_take.
Qed.

Lemma TrimFunc_app (x r : string) :
  all asciiSpace r = true -> TrimFunc (x +:+ r) = TrimFunc x.
Proof.
  intros Hr. unfold TrimFunc, TrimLeftFunc.
  rewrite TrimLeftFunc_go_app by (lia || assumption).
  destruct (TrimLeftFunc_go 0 x) as [|a t]; [reflexivity|].
  now apply TrimRightFunc_app.
Qed.

(** *** [TrimSpace] *)

Lemma TrimSpace_stop_blanks (b q : string) :
  all asciiSpace b = true -> TrimSpace_stop (b +:+ q) = TrimSpace_stop q.
Proof.
  induction b as [|c b IH]; [reflexivity|]. cbn [all].
  intros [Hc Hb]%andb_true_iff. rewrite sapp_cons. cbn [TrimSpace_stop].
  rewrite (asciiSpace_low c Hc), Hc. now apply IH.
Qed.

Lemma TrimSpace_blanks_l (l y : string) :
  all asciiSpace l = true -> TrimSpace (l +:+ y) = TrimSpace y.
Proof.
  induction l as [|c l IH]; [reflexivity|]. cbn [all].
  intros [Hc Hl]%andb_true_iff. rewrite sapp_cons. cbn [TrimSpace].
  rewrite (asciiSpace_low c Hc), Hc. now apply IH.
Qed.

Lemma TrimSpace_all_blank (r : string) :
  all asciiSpace r = true -> TrimSpace r = EmptyString.
Proof.
  intros H. rewrite <- (sapp_nil_r r). now rewrite TrimSpace_blanks_l.
Qed.

Lemma TrimSpace_blanks_r (x r : string) :
  all asciiSpace r = true -> TrimSpace (x +:+ r) = TrimSpace x.
Proof.
  intros Hr. induction x as [|c x IH].
  - rewrite sapp_nil_l. now apply TrimSpace_all_blank.
  - rewrite sapp_cons. cbn [TrimSpace].
    destruct (0x80 <=? code c).
    { rewrite <- sapp_cons. now apply TrimFunc_app. }
    destruct (asciiSpace c); [exact IH|].
    rewrite <- sapp_cons, rev_sapp.
    apply TrimSpace_stop_blanks. now rewrite all_rev.
Qed.

(** Blanks around a text do not change what [TrimSpace] makes of it,
    whatever bytes the text holds. *)
Lemma TrimSpace_blanks (l x r : string) :
  all asciiSpace l = true -> all asciiSpace r = true ->
  TrimSpace (l +:+ x +:+ r) = TrimSpace x.
Proof.
  intros Hl Hr. rewrite TrimSpace_blanks_l by assumption.
  now apply TrimSpace_blanks_r.
Qed.

(** A text between two ASCII bytes that are not blank is kept as it is. *)
Lemma TrimSpace_keep c (a : string) d :
  ascii7 c = true -> asciiSpace c = false ->
  ascii7 d = true -> asciiSpace d = false ->
  TrimSpace (String c (a +:+ str1 d)) = String c (a +:+ str1 d).
Proof.
  unfold ascii7. intros Hc7 Hc Hd7 Hd. cbn [TrimSpace].
  destruct (Z.leb_spec 0x80 (code c)); [lia|]. rewrite Hc.
  assert (Hr : String.rev (String c (a +:+ str1 d)) =
               String d (String.rev a +:+ str1 c)).
  { rewrite rev_cons, rev_sapp. reflexivity. }
  rewrite Hr. cbn [TrimSpace_stop].
  destruct (Z.leb_spec 0x80 (code d)); [lia|]. rewrite Hd.
  rewrite <- Hr. apply rev_rev.
Qed.

Lemma all_TrimSpace_stop p (r : string) :
  all p r = true -> all p (TrimSpace_stop r) = true.
Proof.
  induction r as [|c r IH]; [reflexivity|]. intros H. cbn [TrimSpace_stop].
  destruct (0x80 <=? code c).
  { apply all_TrimRightFunc. now rewrite all_rev. }
  destruct (asciiSpace c).
  - apply IH. cbn [all] in H. now apply andb_true_iff in H.
  - now rewrite all_rev.
Qed.

Lemma all_TrimSpace p (s : string) : all p s = true -> all p (TrimSpace s) = true.
Proof.
  induction s as [|c s IH]; [reflexivity|]. intros H. cbn [TrimSpace].
  destruct (0x80 <=? code c).
  { apply all_TrimRightFunc. now apply all_TrimLeftFunc_go. }
  destruct (asciiSpace c).
  - apply IH. cbn [all] in H. now apply andb_true_iff in H.
  - apply all_TrimSpace_stop. now rewrite all_rev.
Qed.

Lemma all_drop p n (s : string) : all p s = true -> all p (Json.drop n s) = true.
Proof.
  revert n. induction s as [|c s IH]; intros [|n] H; try assumption.
  simpl in *. apply andb_true_iff in H as [_ H]. auto.
Qed.

(** ** One output *)

Lemma output_sent o c w :
  bind (NewTerminalOutput o c None) send w =
  (tt, advance 1 (sent o c (clock w (ticks w))) w).
Proof. apply terminal_output_send. Qed.

Lemma sendOutput_eq data w :
  sendOutput data w =
  (tt, advance 1 (sent data EmptyString (clock w (ticks w))) w).
Proof. apply output_sent. Qed.

Lemma showPrompt_eq s w :
  showPrompt s w =
  (tt, advance 1 (sent (prompt s) EmptyString (clock w (ticks w))) w).
Proof. apply output_sent. Qed.

Lemma clock_advance n es w : clock (advance n es w) = clock w.
Proof. reflexivity. Qed.

Lemma ticks_advance n es w : ticks (advance n es w) = (ticks w + n)%nat.
Proof. reflexivity. Qed.

(** ** Keys *)

Lemma printable_not_control c :
  printable c = true -> c <> CR /\ c <> LF /\ c <> DEL.
Proof.
  unfold printable, between. intros H.
  repeat split; intros ->; vm_compute in H; discriminate.
Qed.

Lemma HandleInput_key s c w :
  printable c = true ->
  HandleInput s (str1 c) w =
  (mkShellSession (currentInput s +:+ str1 c) (prompt s),
   advance 1 (sent (str1 c) EmptyString (clock w (ticks w))) w).
Proof.
  intros Hp. destruct (printable_not_control c Hp) as (H1 & H2 & H3).
  unfold HandleInput, str1. cbn [String.eqb].
  destruct (Ascii.eqb_spec c CR); [contradiction|].
  destruct (Ascii.eqb_spec c LF); [contradiction|].
  destruct (Ascii.eqb_spec c DEL); [contradiction|].
  cbn [andb orb]. rewrite Hp.
  unfold bind. fold (str1 c). rewrite sendOutput_eq. reflexivity.
Qed.

Lemma HandleInput_DEL s w :
  HandleInput s (str1 DEL) w =
  if (0 <? String.length (currentInput s))%nat
  then (mkShellSession (drop_last (currentInput s)) (prompt s),
        advance 1 (sent (String BS (String SP (str1 BS))) EmptyString
                     (clock w (ticks w))) w)
  else (s, w).
Proof.
  unfold HandleInput. cbn [str1 String.eqb Ascii.eqb Bool.eqb DEL CR LF andb orb].
  unfold handleBackspace.
  destruct (0 <? String.length (currentInput s))%nat; [|reflexivity].
  unfold bind. rewrite sendOutput_eq. reflexivity.
Qed.

Lemma HandleInput_Enter s w :
  HandleInput s (str1 CR) w = processCommand s w /\
  HandleInput s (str1 LF) w = processCommand s w.
Proof. split; reflexivity. Qed.

Lemma HandleInputs_app a b : forall s w,
  HandleInputs s (a ++ b) w =
  let '(s', w') := HandleInputs s a w in HandleInputs s' b w'.
Proof.
  induction a as [|i a IH]; intros s w; [reflexivity|].
  cbn [List.app HandleInputs]. unfold bind.
  destruct (HandleInput s i w) as [s1 w1]. apply IH.
Qed.

Lemma stamped_app clock n a b :
  stamped clock n (a ++ b) =
  stamped clock n a ++ stamped clock (n + length a) b.
Proof.
  revert n. induction a as [|[o c] a IH]; intros n.
  - simpl. now replace (n + 0)%nat with n by lia.
  - cbn [List.app stamped length]. rewrite IH, <- app_assoc.
    now replace (S n + length a)%nat with (n + S (length a))%nat by lia.
Qed.

Lemma HandleInputs_keys t : forall s w,
  all printable t = true ->
  HandleInputs s (keys t) w =
  (mkShellSession (currentInput s +:+ t) (prompt s),
   advance (String.length t)
     (stamped (clock w) (ticks w) (map bare (keys t))) w).
Proof.
  induction t as [|c t IH]; intros s w Ht.
  - cbn. unfold ret. rewrite sapp_nil_r, advance_0_nil. now destruct s.
  - simpl in Ht. apply andb_true_iff in Ht as [Hc Ht].
    change (keys (String c t)) with (str1 c :: keys t).
    cbn [HandleInputs map]. unfold bind. rewrite HandleInput_key by assumption.
    rewrite IH by assumption. cbn [currentInput prompt].
    rewrite advance_advance, clock_advance, ticks_advance.
    f_equal.
    + f_equal. rewrite sapp_assoc. reflexivity.
    + cbn [stamped bare String.length].
      replace (ticks w + 1)%nat with (S (ticks w)) by lia.
      reflexivity.
Qed.

Lemma HandleInputs_dels k : forall s w,
  let j := Nat.min k (String.length (currentInput s)) in
  HandleInputs s (repeat (str1 DEL) k) w =
  (mkShellSession
     (Json.take (String.length (currentInput s) - k) (currentInput s))
     (prompt s),
   advance j
     (stamped (clock w) (ticks w)
        (repeat (bare (String BS (String SP (str1 BS)))) j)) w).
Proof.
  induction k as [|k IH]; intros s w j; subst j.
  - cbn. unfold ret. rewrite advance_0_nil.
    rewrite take_all by lia. now destruct s.
  - cbn [repeat HandleInputs]. unfold bind. rewrite HandleInput_DEL.
    destruct (currentInput s) as [|c buf] eqn:Hbuf.
    + cbn [String.length Nat.ltb Nat.leb]. rewrite IH, Hbuf.
      cbn [String.length Nat.min Nat.sub Json.take repeat stamped].
      rewrite Nat.min_0_r. reflexivity.
    + replace (0 <? String.length (String c buf))%nat with true by reflexivity.
      rewrite IH. cbn [currentInput prompt].
      rewrite advance_advance, clock_advance, ticks_advance.
      rewrite drop_last_take, take_take, length_take.
      set (n := String.length (String c buf)).
      assert (Hn : (1 <= n)%nat) by (subst n; simpl; lia).
      replace (Nat.min (n - 1) n) with (n - 1)%nat by lia.
      replace (Nat.min (n - 1 - k) (n - 1)) with (n - S k)%nat by lia.
      replace (Nat.min (S k) n) with (S (Nat.min k (n - 1))) by lia.
      f_equal. cbn [repeat stamped bare]. f_equal.
      replace (ticks w + 1)%nat with (S (ticks w)) by lia. reflexivity.
Qed.

(** ** Enter *)

Lemma processCommand_unfold s w :
  processCommand s w =
  (let w1 := advance 1 (sent CRLF EmptyString (clock w (ticks w))) w in
   let '(_, w2) := executeCommand (TrimSpace (currentInput s)) w1 in
   (mkShellSession EmptyString (prompt s),
    advance 1 (sent (prompt s) EmptyString (clock w2 (ticks w2))) w2)).
Proof.
  transitivity
    (bind (bind (NewTerminalOutput CRLF EmptyString None) send)
       (fun _ => bind (executeCommand (TrimSpace (currentInput s)))
          (fun _ => bind (showPrompt (mkShellSession EmptyString (prompt s)))
             (fun _ => ret (mkShellSession EmptyString (prompt s))))) w);
    [reflexivity|].
  unfold bind at 1. rewrite output_sent. unfold bind at 1.
  cbv zeta.
  destruct (executeCommand _ _) as [[] w2].
  unfold bind. rewrite showPrompt_eq. reflexivity.
Qed.

(** What [executeCommand] does for a command that has an answer. *)
Lemma executeCommand_answer cmd out w :
  (if String.eqb cmd EmptyString then None
   else if String.eqb cmd "ls"
   then Some ("Desktop  Documents  Downloads  Pictures  Videos" +:+ CRLF)
   else if String.eqb cmd "pwd" then Some ("/home/user" +:+ CRLF)
   else if HasPrefix cmd "echo "
   then Some (TrimPrefix cmd "echo " +:+ CRLF)
   else if String.eqb cmd "date"
   then Some ("Mon Aug 12 14:00:00 UTC 2025" +:+ CRLF)
   else if String.eqb cmd "whoami" then Some ("user" +:+ CRLF)
   else if String.eqb cmd "clear"
   then Some (String ESC "[2J" +:+ String ESC "[H")
   else Some (cmd +:+ ": command not found" +:+ CRLF)) = Some out ->
  nonempty out = true ->
  executeCommand cmd w = (tt, advance 1 (sent out cmd (clock w (ticks w))) w).
Proof.
  intros Hout Hne. unfold executeCommand. rewrite Hout, Hne.
  apply output_sent.
Qed.

Lemma drop_sapp (pre x : string) : Json.drop (String.length pre) (pre +:+ x) = x.
Proof. induction pre as [|c pre IH]; [now destruct x | exact IH]. Qed.

Lemma TrimPrefix_sapp (pre x : string) : TrimPrefix (pre +:+ x) pre = x.
Proof. unfold TrimPrefix, HasPrefix. now rewrite prefix_app, drop_sapp. Qed.

Lemma executeCommand_echo x w :
  executeCommand ("echo " +:+ x) w =
  (tt, advance 1 (sent (x +:+ CRLF) ("echo " +:+ x) (clock w (ticks w))) w).
Proof.
  apply executeCommand_answer.
  - replace (String.eqb ("echo " +:+ x) EmptyString) with false by reflexivity.
    replace (String.eqb ("echo " +:+ x) "ls") with false by reflexivity.
    replace (String.eqb ("echo " +:+ x) "pwd") with false by reflexivity.
    unfold HasPrefix at 1. now rewrite prefix_app, TrimPrefix_sapp.
  - destruct x; reflexivity.
Qed.

End ShellFacts.

(** * Further properties: ANSI detection *)

Module EscapeFacts.
Import Regexp RegexpFacts Handler Spec ShellRuns Frontend AnsiFacts.

(** The language of one alternative: the CSI sequences with a final byte
    of the class. *)
Lemma lang_csi final p :
  lang (csi final) p <->
  exists params f,
    p = String ESC (String "[" (params +:+ str1 f)) /\
    all csi_param params = true /\ in_class final f = true.
Proof.
  unfold csi. split.
  - intros (s1 & t1 & -> & ->%lang_lit_inv & H)%lang_cat_inv.
    apply lang_cat_inv in H as (s2 & t2 & -> & ->%lang_lit_inv & H).
    apply lang_cat_inv in H as (params & t3 & -> & Hp & H).
    apply lang_class_inv in H as (f & -> & Hf).
    exists params, f. split; [reflexivity|]. split; [|assumption].
    apply lang_star_class in Hp.
    now rewrite (all_ext _ _ in_class_params) in Hp.
  - intros (params & f & -> & Hp & Hf).
    change (String ESC (String "[" (params +:+ str1 f)))
      with (str1 ESC +:+ (str1 "[" +:+ (params +:+ str1 f))).
    repeat constructor; [|assumption].
    apply lang_star_class. now rewrite (all_ext _ _ in_class_params).
Qed.

(** A match at the very start needs ESC and the bracket there. *)
Lemma match_prefix_csi_head final c s :
  match_prefix (csi final) (String c s) = true ->
  c = ESC /\ exists s', s = String "[" s'.
Proof.
  intros (p & q & Heq & Hp)%match_prefix_spec.
  apply lang_csi in Hp as (params & f & -> & _ & _).
  rewrite !sapp_cons in Heq. injection Heq as -> ->. eauto.
Qed.

Lemma has_esc_bracket_cons c s :
  has_esc_bracket s = true -> has_esc_bracket (String c s) = true.
Proof.
  destruct s as [|d r]; [discriminate|]. intros H.
  change (has_esc_bracket (String c (String d r)))
    with ((Ascii.eqb c ESC && Ascii.eqb d "[") || has_esc_bracket (String d r)).
  rewrite H. apply orb_true_r.
Qed.

Lemma MatchString_csi_has_esc_bracket final s :
  MatchString (csi final) s = true -> has_esc_bracket s = true.
Proof.
  induction s as [|c s IH]; [discriminate|].
  rewrite MatchString_cons. intros [H|H]%orb_true_iff.
  - apply match_prefix_csi_head in H as (-> & s' & ->). reflexivity.
  - now apply has_esc_bracket_cons, IH.
Qed.

Lemma no_esc_no_bracket s : all not_esc s = true -> has_esc_bracket s = false.
Proof.
  induction s as [|c s IH]; [reflexivity|]. cbn [all].
  intros [Hc Hs]%andb_true_iff. destruct s as [|d r]; [reflexivity|].
  change (has_esc_bracket (String c (String d r)))
    with ((Ascii.eqb c ESC && Ascii.eqb d "[") || has_esc_bracket (String d r)).
  rewrite (IH Hs). unfold not_esc in Hc.
  now destruct (Ascii.eqb c ESC).
Qed.

Lemma no_esc_unflagged s : all not_esc s = true -> containsAnsiCodes s = false.
Proof.
  intros H. apply no_esc_no_bracket in H.
  destruct (containsAnsiCodes s) eqn:Hc; [|reflexivity].
  apply (MatchString_csi_has_esc_bracket [("m", "m"); ("K", "K")]%char) in Hc.
  congruence.
Qed.

Lemma printable_not_esc c : printable c = true -> not_esc c = true.
Proof.
  unfold printable, between, not_esc. intros H.
  destruct (Ascii.eqb_spec c ESC) as [->|]; [vm_compute in H; discriminate|reflexivity].
Qed.

Lemma all_impl (p q : ascii -> bool) s :
  (forall c, p c = true -> q c = true) -> all p s = true -> all q s = true.
Proof.
  intros Hpq. induction s as [|c s IH]; [reflexivity|]. cbn [all].
  intros [Hc Hs]%andb_true_iff. now rewrite (Hpq c Hc), IH.
Qed.

Lemma csi_param_not_esc c : csi_param c = true -> not_esc c = true.
Proof.
  unfold csi_param, is_digit, between, not_esc. intros H.
  destruct (Ascii.eqb_spec c ESC) as [->|]; [vm_compute in H; discriminate|reflexivity].
Qed.

(** Parameters, then a byte that is not one: the split is unique. *)
Lemma csi_split params : forall ps f g q,
  params +:+ str1 f = ps +:+ String g q ->
  all csi_param params = true -> all csi_param ps = true ->
  csi_param g = false -> f = g.
Proof.
  induction params as [|c params IH]; intros ps f g q Heq Hp Hps Hg.
  - destruct ps as [|d ps].
    + now injection Heq.
    + rewrite sapp_nil_l, sapp_cons in Heq. injection Heq as _ Heq.
      symmetry in Heq. apply sapp_eq_nil in Heq as [_ Heq]. discriminate.
  - cbn [all] in Hp. apply andb_true_iff in Hp as [Hc Hp].
    destruct ps as [|d ps].
    + rewrite sapp_nil_l, sapp_cons in Heq. injection Heq as -> _. congruence.
    + cbn [all] in Hps. apply andb_true_iff in Hps as [_ Hps].
      rewrite !sapp_cons in Heq. injection Heq as _ Heq. eauto.
Qed.

Lemma no_bracket_after_params params f :
  all csi_param params = true ->
  has_esc_bracket (String "[" (params +:+ str1 f)) = false.
Proof.
  intros Hp.
  assert (H : has_esc_bracket (params +:+ str1 f) = false).
  { induction params as [|c params IH]; [reflexivity|].
    cbn [all] in Hp. apply andb_true_iff in Hp as [Hc Hp].
    rewrite sapp_cons. destruct (params +:+ str1 f) as [|d r] eqn:He.
    { reflexivity. }
    change (has_esc_bracket (String c (String d r)))
      with ((Ascii.eqb c ESC && Ascii.eqb d "[") || has_esc_bracket (String d r)).
    rewrite (IH Hp). apply csi_param_not_esc in Hc. unfold not_esc in Hc.
    now destruct (Ascii.eqb c ESC). }
  destruct (params +:+ str1 f) as [|d r] eqn:He; [reflexivity|].
  change (has_esc_bracket (String "[" (String d r)))
    with ((Ascii.eqb "[" ESC && Ascii.eqb d "[") || has_esc_bracket (String d r)).
  now rewrite H.
Qed.

(** A sequence whose final byte is not in the class is not matched. *)
Lemma csi_other_final final params f :
  all csi_param params = true ->
  in_class final f = false ->
  (forall g, in_class final g = true -> csi_param g = false) ->
  MatchString (csi final) (String ESC (String "[" (params +:+ str1 f))) = false.
Proof.
  intros Hp Hf Hfinal.
  destruct (MatchString _ _) eqn:Hm; [exfalso|reflexivity].
  rewrite MatchString_cons in Hm. apply orb_true_iff in Hm as [Hm|Hm].
  - apply match_prefix_spec in Hm as (p & q & Heq & Hl).
    apply lang_csi in Hl as (ps & g & -> & Hps & Hg).
    rewrite !sapp_cons in Heq. injection Heq as Heq.
    rewrite sapp_assoc in Heq. change (str1 g +:+ q) with (String g q) in Heq.
    apply csi_split in Heq; auto. congruence.
  - apply MatchString_csi_has_esc_bracket in Hm.
    rewrite no_bracket_after_params in Hm by assumption. discriminate.
Qed.

Lemma final_mK_not_param g :
  in_class [("m", "m"); ("K", "K")]%char g = true -> csi_param g = false.
Proof. intros [-> | ->]%in_class_final; reflexivity. Qed.

Lemma MatchString_alt_l r1 r2 s :
  MatchString r1 s = true -> MatchString (Alt r1 r2) s = true.
Proof.
  rewrite !MatchString_spec. intros (a & p & q & Heq & H).
  exists a, p, q. split; [assumption | now apply L_alt_l].
Qed.

Lemma MatchString_alt_r r1 r2 s :
  MatchString r2 s = true -> MatchString (Alt r1 r2) s = true.
Proof.
  rewrite !MatchString_spec. intros (a & p & q & Heq & H).
  exists a, p, q. split; [assumption | now apply L_alt_r].
Qed.

Lemma MatchString_csi_whole final params f :
  all csi_param params = true -> in_class final f = true ->
  MatchString (csi final) (String ESC (String "[" (params +:+ str1 f))) = true.
Proof.
  intros Hp Hf. apply MatchString_spec.
  exists EmptyString, (String ESC (String "[" (params +:+ str1 f))), EmptyString.
  split; [now rewrite sapp_nil_l, sapp_nil_r|].
  apply lang_csi. eauto.
Qed.

End EscapeFacts.

Module AnsiProps.
Import Regexp RegexpFacts Handler Spec ShellRuns Frontend AnsiFacts EscapeFacts.

(** X7.  [containsAnsiCodes] needs the ESC byte: a text without it is
    never flagged, whatever else it holds. *)
Theorem text_without_escape_not_flagged (s : string) :
  all (fun c => negb (Ascii.eqb c ESC)) s = true ->
  containsAnsiCodes s = false.
Proof. apply no_esc_unflagged. Qed.

Lemma text_without_escape_not_flagged_witness :
  all (fun c => negb (Ascii.eqb c ESC)) "[31m looks like a colour" = true /\
  containsAnsiCodes "[31m looks like a colour" = false.
Proof.
  split; [reflexivity|].
  exact (text_without_escape_not_flagged "[31m looks like a colour" eq_refl).
Defined.

(** X8.  [containsAnsiCodes] knows the final bytes [m] and [K] only: a
    CSI sequence that ends in any other byte (cursor movement, clearing
    the screen) is not flagged. *)
Theorem other_csi_sequences_not_flagged (params : string) (f : ascii) :
  all csi_param params = true ->
  f <> "m"%char -> f <> "K"%char ->
  containsAnsiCodes (String ESC (String "[" (params +:+ str1 f))) = false.
Proof.
  intros Hp Hm HK. apply csi_other_final; [assumption| |apply final_mK_not_param].
  destruct (in_class _ f) eqn:Hf; [|reflexivity].
  apply in_class_final in Hf as [-> | ->]; congruence.
Qed.

Lemma other_csi_sequences_not_flagged_witness :
  all csi_param "2" = true /\ "J"%char <> "m"%char /\ "J"%char <> "K"%char /\
  containsAnsiCodes (String ESC "[2J") = false.
Proof.
  assert (H1 : "J"%char <> "m"%char) by discriminate.
  assert (H2 : "J"%char <> "K"%char) by discriminate.
  split; [reflexivity|]. split; [exact H1|]. split; [exact H2|].
  exact (other_csi_sequences_not_flagged "2" "J" eq_refl H1 H2).
Defined.

(** X9.  The detection of the frontend ([containsAnsiEscapeCodes]) covers
    that of the backend: whatever [containsAnsiCodes] flags, it flags
    too; and it flags the cursor and erase sequences (final byte [A],
    [B], [C], [D], [J] or [H]) that the backend lets pass unflagged. *)
Theorem frontend_detection_covers_backend :
  (forall s, containsAnsiCodes s = true -> containsAnsiEscapeCodes s = true) /\
  (forall params f,
      all csi_param params = true ->
      In f ["A"; "B"; "C"; "D"; "J"; "H"]%char ->
      let s := String ESC (String "[" (params +:+ str1 f)) in
      containsAnsiEscapeCodes s = true /\ containsAnsiCodes s = false).
Proof.
  split.
  - intros s H. now apply MatchString_alt_l.
  - intros params f Hp Hf s. subst s. split.
    + unfold containsAnsiEscapeCodes, ansiRegex_js.
      apply MatchString_alt_r.
      cbn [In] in Hf.
      destruct Hf as [<-|[<-|[<-|[<-|[<-|[<-|[]]]]]]];
        first [ apply MatchString_alt_l, MatchString_csi_whole;
                [assumption | reflexivity]
              | apply MatchString_alt_r, MatchString_csi_whole;
                [assumption | reflexivity] ].
    + apply csi_other_final; [assumption| |apply final_mK_not_param].
      cbn [In] in Hf.
      destruct Hf as [<-|[<-|[<-|[<-|[<-|[<-|[]]]]]]]; reflexivity.
Qed.

Lemma frontend_detection_covers_backend_witness :
  all csi_param EmptyString = true /\
  In "H"%char ["A"; "B"; "C"; "D"; "J"; "H"]%char /\
  containsAnsiEscapeCodes (String ESC "[H") = true /\
  containsAnsiCodes (String ESC "[H") = false /\
  containsAnsiCodes (String ESC "[1;31m") = true /\
  containsAnsiEscapeCodes (String ESC "[1;31m") = true.
Proof.
  destruct frontend_detection_covers_backend as [Hcov Hmore].
  assert (Hin : In "H"%char ["A"; "B"; "C"; "D"; "J"; "H"]%char)
    by (cbn; tauto).
  assert (Hflag : containsAnsiCodes (String ESC "[1;31m") = true) by reflexivity.
  split; [reflexivity|]. split; [exact Hin|].
  destruct (Hmore EmptyString "H"%char eq_refl Hin) as [Hf Hb].
  split; [exact Hf|]. split; [exact Hb|]. split; [exact Hflag|].
  exact (Hcov _ Hflag).
Defined.

End AnsiProps.

Module ShellProps.
Import Handler Spec ShellRuns Examples.
Import WorldFacts HandlerFacts ShellFacts EscapeFacts.

(** X1.  Typing a printable text, one byte per input, appends the text
    to the input buffer and echoes every byte in a terminal-output frame
    of its own, in order, each stamped with the next reading of the
    clock. *)
Theorem typed_text_buffered_and_echoed
    (t : string) (s : ShellSession) (w : World) :
  all printable t = true ->
  HandleInputs s (keys t) w =
  (mkShellSession (currentInput s +:+ t) (prompt s),
   advance (String.length t)
     (stamped (clock w) (ticks w) (map bare (keys t))) w).
Proof. intros Ht. now apply HandleInputs_keys. Qed.

Lemma typed_text_buffered_and_echoed_witness :
  all printable "ls" = true /\
  fst (HandleInputs fresh (keys "ls") w0) =
    mkShellSession "ls" "user@webssh:~$ " /\
  writes (trace (snd (HandleInputs fresh (keys "ls") w0))) =
    [js "{'type':'terminal_output','data':'l','timestamp':'2025-08-12T14:00:00Z','metadata':{}}";
     js "{'type':'terminal_output','data':'s','timestamp':'2025-08-12T14:00:00Z','metadata':{}}"].
Proof.
  split; [reflexivity|].
  rewrite (typed_text_buffered_and_echoed "ls" fresh w0 eq_refl).
  split; vm_compute; reflexivity.
Defined.

(** X2.  [k] backspaces (DEL) remove the last [k] bytes of the buffer,
    or all of it when it is shorter; only the backspaces that removed a
    byte are answered, each with one frame carrying backspace, space,
    backspace. *)
Theorem backspaces_erase_from_the_end
    (k : nat) (s : ShellSession) (w : World) :
  let j := Nat.min k (String.length (currentInput s)) in
  HandleInputs s (repeat (str1 DEL) k) w =
  (mkShellSession
     (Json.take (String.length (currentInput s) - k) (currentInput s))
     (prompt s),
   advance j
     (stamped (clock w) (ticks w)
        (repeat (bare (String BS (String SP (str1 BS)))) j)) w).
Proof. apply HandleInputs_dels. Qed.

(** X3.  Typing a printable text and then as many backspaces as it has
    bytes gives the session back as it was. *)
Theorem typing_then_erasing_restores
    (t : string) (s : ShellSession) (w : World) :
  all printable t = true ->
  fst (HandleInputs s (keys t ++ repeat (str1 DEL) (String.length t)) w) = s.
Proof.
  intros Ht. rewrite HandleInputs_app, HandleInputs_keys by assumption.
  rewrite HandleInputs_dels. cbn [fst currentInput prompt].
  rewrite length_sapp.
  replace (String.length (currentInput s) + String.length t - String.length t)%nat
    with (String.length (currentInput s)) by lia.
  destruct s as [buf p]. cbn [currentInput prompt]. f_equal.
  clear. induction buf as [|c buf IH]; [reflexivity|].
  rewrite sapp_cons. simpl. now rewrite IH.
Qed.

Lemma typing_then_erasing_restores_witness :
  all printable "pwd" = true /\
  fst (HandleInputs (mkShellSession "ls " "$ ")
         (keys "pwd" ++ repeat (str1 DEL) 3) w0) =
  mkShellSession "ls " "$ ".
Proof.
  split; [reflexivity|].
  exact (typing_then_erasing_restores "pwd" (mkShellSession "ls " "$ ") w0 eq_refl).
Defined.

(** X4.  Enter runs the buffer without the white space around it: blanks
    before and after a command line change nothing of what
    [processCommand] does. *)
Theorem surrounding_blanks_ignored
    (l x r p : string) (w : World) :
  all asciiSpace l = true -> all asciiSpace r = true ->
  processCommand (mkShellSession (l +:+ x +:+ r) p) w =
  processCommand (mkShellSession x p) w.
Proof.
  intros Hl Hr. rewrite !processCommand_unfold. cbn [currentInput prompt].
  now rewrite TrimSpace_blanks.
Qed.

Lemma surrounding_blanks_ignored_witness :
  all asciiSpace "  " = true /\ all asciiSpace " " = true /\
  processCommand (mkShellSession "  whoami " "$ ") w0 =
  processCommand (mkShellSession "whoami" "$ ") w0.
Proof.
  split; [reflexivity|]. split; [reflexivity|].
  exact (surrounding_blanks_ignored "  " "whoami" " " "$ " w0 eq_refl eq_refl).
Defined.

(** X5.  [echo]: a line [echo ] followed by a text that ends in an
    ASCII byte other than a blank is answered with that text (only the
    one blank after [echo] is dropped) and a line end, between the
    newline and the prompt; [echo] followed by nothing but ASCII blanks
    is not the echo command and is answered with [echo: command not
    found]. *)
Theorem echo_needs_an_argument :
  (forall (a : string) (c : ascii) (p : string) (w : World),
      ascii7 c = true -> asciiSpace c = false ->
      let line := "echo " +:+ a +:+ str1 c in
      processCommand (mkShellSession line p) w =
      (mkShellSession EmptyString p,
       advance 3
         (stamped (clock w) (ticks w)
            [bare CRLF; ((a +:+ str1 c) +:+ CRLF, line); bare p]) w)) /\
  (forall (blanks p : string) (w : World),
      all asciiSpace blanks = true ->
      processCommand (mkShellSession ("echo" +:+ blanks) p) w =
      (mkShellSession EmptyString p,
       advance 3
         (stamped (clock w) (ticks w)
            [bare CRLF;
             ("echo: command not found" +:+ CRLF, "echo"%string);
             bare p]) w)).
Proof.
  split.
  - intros a c p w Hc7 Hc line. subst line.
    rewrite processCommand_unfold. cbn [currentInput prompt].
    assert (Ht : TrimSpace ("echo " +:+ a +:+ str1 c) = "echo " +:+ a +:+ str1 c).
    { change ("echo " +:+ a +:+ str1 c)
        with (String "e" (("cho " +:+ a) +:+ str1 c)).
      now apply TrimSpace_keep. }
    rewrite Ht. cbv zeta.
    rewrite executeCommand_echo.
    rewrite !advance_advance, !clock_advance, !ticks_advance.
    cbn [stamped bare List.app]. rewrite app_nil_r.
    replace (ticks w + 1)%nat with (S (ticks w)) by lia.
    replace (ticks w + (1 + 1))%nat with (S (S (ticks w))) by lia.
    reflexivity.
  - intros blanks p w Hb.
    rewrite processCommand_unfold. cbn [currentInput prompt].
    assert (Ht : TrimSpace ("echo" +:+ blanks) = "echo"%string).
    { rewrite <- (sapp_nil_l ("echo" +:+ blanks)).
      now rewrite (TrimSpace_blanks EmptyString "echo" blanks). }
    rewrite Ht. cbv zeta.
    rewrite (executeCommand_answer _ ("echo: command not found" +:+ CRLF));
      [|reflexivity|reflexivity].
    rewrite !advance_advance, !clock_advance, !ticks_advance.
    cbn [stamped bare List.app]. rewrite app_nil_r.
    replace (ticks w + 1)%nat with (S (ticks w)) by lia.
    replace (ticks w + (1 + 1))%nat with (S (S (ticks w))) by lia.
    reflexivity.
Qed.

Lemma echo_needs_an_argument_witness :
  ascii7 "i" = true /\ asciiSpace "i" = false /\ all asciiSpace "  " = true /\
  writes (trace (snd (processCommand (mkShellSession "echo  hi" "$ ") w0))) =
    [js "{'type':'terminal_output','data':'\r\n','timestamp':'2025-08-12T14:00:00Z','metadata':{}}";
     js "{'type':'terminal_output','data':' hi\r\n','timestamp':'2025-08-12T14:00:00Z','metadata':{'command':'echo  hi'}}";
     js "{'type':'terminal_output','data':'$ ','timestamp':'2025-08-12T14:00:00Z','metadata':{}}"] /\
  writes (trace (snd (processCommand (mkShellSession "echo  " "$ ") w0))) =
    [js "{'type':'terminal_output','data':'\r\n','timestamp':'2025-08-12T14:00:00Z','metadata':{}}";
     js "{'type':'terminal_output','data':'echo: command not found\r\n','timestamp':'2025-08-12T14:00:00Z','metadata':{'command':'echo'}}";
     js "{'type':'terminal_output','data':'$ ','timestamp':'2025-08-12T14:00:00Z','metadata':{}}"].
Proof.
  destruct echo_needs_an_argument as [Harg Hnone].
  split; [reflexivity|]. split; [reflexivity|]. split; [reflexivity|]. split.
  - change "echo  hi"%string with ("echo " +:+ " h" +:+ str1 "i"%char).
    rewrite (Harg " h"%string "i"%char "$ "%string w0 eq_refl eq_refl).
    vm_compute. reflexivity.
  - change "echo  "%string with ("echo" +:+ "  ").
    rewrite (Hnone "  "%string "$ "%string w0 eq_refl).
    vm_compute. reflexivity.
Defined.

(** ** No output of the simulated shell is flagged *)

Lemma sent_unflagged o c now :
  containsAnsiCodes o = false -> Forall unflagged (sent o c now).
Proof.
  intros H. unfold sent. destruct (Time.marshalable now); constructor; [|constructor].
  exists o, c, now. auto.
Qed.

Lemma all_not_esc_literal (a b : string) :
  all not_esc a = true -> all not_esc b = true -> all not_esc (a +:+ b) = true.
Proof. intros Ha Hb. now rewrite all_app, Ha, Hb. Qed.

Lemma executeCommand_unflagged cmd w :
  all printable cmd = true ->
  exists n es,
    executeCommand cmd w = (tt, advance n es w) /\ Forall unflagged es.
Proof.
  intros Hp.
  assert (Hne : all not_esc cmd = true)
    by (eapply all_impl; [apply printable_not_esc | exact Hp]).
  assert (Hsend : forall out,
             containsAnsiCodes out = false ->
             exists n es,
               bind (NewTerminalOutput out cmd None) send w = (tt, advance n es w) /\
               Forall unflagged es).
  { intros out Hout. exists 1%nat, (sent out cmd (clock w (ticks w))).
    split; [apply output_sent | now apply sent_unflagged]. }
  assert (Hnone : exists n es,
             ret tt w = (tt, advance n es w) /\ Forall unflagged es).
  { exists 0%nat, []. split; [now rewrite advance_0_nil | constructor]. }
  unfold executeCommand.
  destruct (String.eqb cmd EmptyString); [exact Hnone|].
  destruct (String.eqb cmd "ls"); [apply Hsend; reflexivity|].
  destruct (String.eqb cmd "pwd"); [apply Hsend; reflexivity|].
  destruct (HasPrefix cmd "echo ") eqn:He.
  { assert (Hout : containsAnsiCodes (TrimPrefix cmd "echo " +:+ CRLF) = false).
    { apply no_esc_unflagged, all_not_esc_literal; [|reflexivity].
      unfold TrimPrefix. rewrite He. now apply all_drop. }
    destruct (nonempty _); [now apply Hsend | exact Hnone]. }
  destruct (String.eqb cmd "date"); [apply Hsend; reflexivity|].
  destruct (String.eqb cmd "whoami"); [apply Hsend; reflexivity|].
  destruct (String.eqb cmd "clear"); [apply Hsend; reflexivity|].
  assert (Hout : containsAnsiCodes (cmd +:+ ": command not found" +:+ CRLF) = false).
  { apply no_esc_unflagged.
    apply all_not_esc_literal; [assumption | reflexivity]. }
  destruct (nonempty _); [now apply Hsend | exact Hnone].
Qed.

Lemma HandleInput_long s c d r w :
  HandleInput s (String c (String d r)) w = (s, w).
Proof.
  unfold HandleInput, str1. cbn [String.eqb].
  destruct (Ascii.eqb c CR), (Ascii.eqb c LF), (Ascii.eqb c DEL); reflexivity.
Qed.

Lemma HandleInput_empty s w : HandleInput s EmptyString w = (s, w).
Proof. reflexivity. Qed.

Lemma HandleInput_unflagged s input w :
  all printable (currentInput s) = true ->
  containsAnsiCodes (prompt s) = false ->
  exists n es,
    snd (HandleInput s input w) = advance n es w /\
    Forall unflagged es /\
    all printable (currentInput (fst (HandleInput s input w))) = true /\
    prompt (fst (HandleInput s input w)) = prompt s.
Proof.
  intros Hbuf Hprompt.
  assert (Hsame : exists n es,
             snd (s, w) = advance n es w /\ Forall unflagged es /\
             all printable (currentInput (fst (s, w))) = true /\
             prompt (fst (s, w)) = prompt s).
  { exists 0%nat, []. cbn [fst snd]. rewrite advance_0_nil.
    repeat split; (assumption || constructor). }
  destruct input as [|c [|d r]];
    [exact Hsame | | rewrite HandleInput_long; exact Hsame].
  fold (str1 c).
  destruct (Ascii.eqb_spec c CR) as [->|Hcr];
    [|destruct (Ascii.eqb_spec c LF) as [->|Hlf]].
  1,2: (replace (HandleInput s _ w) with (processCommand s w) by reflexivity;
        rewrite processCommand_unfold; cbv zeta;
        match goal with
        | |- context [executeCommand ?cmd ?w1] =>
            destruct (executeCommand_unflagged cmd w1
                        (all_TrimSpace _ _ Hbuf)) as (n & es & -> & Hes)
        end;
        rewrite !advance_advance; eexists _, _; cbn [fst snd currentInput prompt];
        split; [reflexivity|]; split; [|split; reflexivity];
        repeat apply Forall_app_2; try assumption;
        apply sent_unflagged; (reflexivity || assumption)).
  destruct (Ascii.eqb_spec c DEL) as [->|Hdel].
  - rewrite HandleInput_DEL.
    destruct (0 <? String.length (currentInput s))%nat; [|exact Hsame].
    eexists _, _. cbn [fst snd currentInput prompt].
    split; [reflexivity|]. split; [apply sent_unflagged; reflexivity|].
    split; [|reflexivity].
    rewrite drop_last_take. clear -Hbuf.
    generalize (String.length (currentInput s) - 1)%nat as n.
    revert Hbuf. generalize (currentInput s) as b.
    induction b as [|x b IH]; intros Hb [|n]; try reflexivity.
    cbn [all] in Hb. apply andb_true_iff in Hb as [Hx Hb].
    cbn [Json.take all]. now rewrite Hx, IH.
  - destruct (printable c) eqn:Hp.
    + rewrite HandleInput_key by assumption.
      eexists _, _. cbn [fst snd currentInput prompt].
      split; [reflexivity|]. split.
      * apply sent_unflagged, no_esc_unflagged. cbn [str1 all].
        now rewrite printable_not_esc.
      * split; [|reflexivity]. rewrite all_app, Hbuf. cbn [str1 all].
        now rewrite Hp.
    + replace (HandleInput s (str1 c) w) with (s, w); [exact Hsame|].
      unfold HandleInput, str1. cbn [String.eqb].
      destruct (Ascii.eqb_spec c CR); [contradiction|].
      destruct (Ascii.eqb_spec c LF); [contradiction|].
      destruct (Ascii.eqb_spec c DEL); [contradiction|].
      cbn [andb orb]. now rewrite Hp.
Qed.

Lemma HandleInputs_unflagged inputs : forall s w,
  all printable (currentInput s) = true ->
  containsAnsiCodes (prompt s) = false ->
  exists n es,
    snd (HandleInputs s inputs w) = advance n es w /\ Forall unflagged es.
Proof.
  induction inputs as [|i rest IH]; intros s w Hbuf Hprompt.
  - exists 0%nat, []. cbn. now rewrite advance_0_nil.
  - cbn [HandleInputs]. unfold bind.
    destruct (HandleInput_unflagged s i w Hbuf Hprompt)
      as (n & es & Hw & Hes & Hbuf' & Hprompt').
    destruct (HandleInput s i w) as [s1 w1]. cbn [fst snd] in *. subst w1.
    rewrite <- Hprompt' in Hprompt.
    destruct (IH s1 (advance n es w) Hbuf' Hprompt) as (m & es' & Hw' & Hes').
    exists (n + m)%nat, (es ++ es'). rewrite Hw', advance_advance.
    split; [reflexivity | now apply Forall_app_2].
Qed.

(** X6.  The simulated shell never sets [has_ansi]: from a new session
    and whatever the client sends, every frame the shell writes is
    terminal output whose text [containsAnsiCodes] does not flag (the
    answer to [clear], two CSI sequences that end in [J] and [H], is
    among them). *)
Theorem shell_never_flags_ansi (inputs : list string) (w : World) :
  exists n es,
    snd (bind NewShellSession (fun s => HandleInputs s inputs) w) =
      advance n (EvNewShell :: es) w /\
    Forall unflagged es.
Proof.
  unfold NewShellSession, bind. rewrite emit_eq. unfold ret.
  match goal with
  | |- context [HandleInputs ?s inputs ?w1] =>
      destruct (HandleInputs_unflagged inputs s w1 eq_refl eq_refl)
        as (n & es & Hw & Hes)
  end.
  rewrite Hw, advance_advance. exists n, es. auto.
Qed.

End ShellProps.

(** * Further properties: the configuration at start-up *)

Module StartupFacts.
Import Json JsonFacts Handler Config ConfigValidate.

Lemma digits_value_digits (s : string) : forall (acc v : Z),
  Strconv.digits_value acc s = Some v -> all is_digit s = true.
Proof.
  induction s as [|c s IH]; intros acc v H; [reflexivity|].
  cbn [Strconv.digits_value] in H. cbn [all].
  destruct (is_digit c); [|discriminate]. simpl. eauto.
Qed.

Lemma sign_split (s : string) :
  match s with
  | String "+" r => (false, r)
  | String "-" r => (true, r)
  | _ => (false, s)
  end =
  match s with
  | String c r =>
      if Ascii.eqb c "+" then (false, r)
      else if Ascii.eqb c "-" then (true, r) else (false, s)
  | EmptyString => (false, s)
  end.
Proof.
  destruct s as [|c r]; [reflexivity|].
  destruct c as [[] [] [] [] [] [] [] []]; reflexivity.
Qed.

Lemma Atoi_numeric s n : Strconv.Atoi s = Some n -> all numeric s = true.
Proof.
  unfold Strconv.Atoi. rewrite sign_split. intros H.
  assert (Hbody : forall (neg : bool) (body : string),
             match body with
             | EmptyString => None
             | _ =>
                 match Strconv.digits_value 0 body with
                 | None => None
                 | Some v =>
                     let z := if neg then - v else v in
                     if (Strconv.minInt <=? z) && (z <=? Strconv.maxInt)
                     then Some z else None
                 end
             end = Some n -> all numeric body = true).
  { intros neg body Hb. destruct body as [|c b]; [discriminate|].
    destruct (Strconv.digits_value 0 (String c b)) as [v|] eqn:Hv; [|discriminate].
    apply digits_value_digits in Hv.
    eapply EscapeFacts.all_impl; [|exact Hv].
    intros x Hx. unfold numeric. now rewrite Hx. }
  destruct s as [|c r]; [discriminate|].
  destruct (Ascii.eqb_spec c "+") as [->|Hp].
  { cbn [all]. now rewrite (Hbody false r H). }
  destruct (Ascii.eqb_spec c "-") as [->|Hm].
  { cbn [all]. now rewrite (Hbody true r H). }
  exact (Hbody false (String c r) H).
Qed.

Lemma numeric_htmlSafe c : numeric c = true -> htmlSafe (code c) = true.
Proof.
  unfold numeric, is_digit, between, htmlSafe. rewrite !ascii_eqb_code.
  change (code "+") with 43. change (code "-") with 45.
  intros H. apply orb_true_iff in H as [H|H];
    [apply orb_true_iff in H as [H|H]|].
  - apply andb_true_iff in H as [H1 H2].
    apply Z.leb_le in H1, H2.
    replace (32 <=? code c) with true by (symmetry; apply Z.leb_le; lia).
    replace (code c <? 128) with true by (symmetry; apply Z.ltb_lt; lia).
    repeat match goal with
           | |- context [code c =? ?k] =>
               replace (code c =? k) with false by (symmetry; apply Z.eqb_neq; lia)
           end.
    reflexivity.
  - apply Z.eqb_eq in H. now rewrite H.
  - apply Z.eqb_eq in H. now rewrite H.
Qed.

(** Text of bytes that the string encoder writes as they are. *)
Lemma appendString_go_safe s :
  all (fun c => htmlSafe (code c)) s = true -> appendString_go 0 s = s.
Proof.
  induction s as [|c s IH]; [reflexivity|]. cbn [all].
  intros [Hc Hs]%andb_true_iff. cbn [appendString_go].
  assert (Hlt : (code c <? 128) = true).
  { unfold htmlSafe in Hc. apply andb_true_iff in Hc as [Hc _].
    now apply andb_true_iff in Hc as [_ Hc]. }
  rewrite Hlt. unfold escape_byte. rewrite Hc.
  now rewrite IH.
Qed.

Lemma parse_health_body port :
  all (fun c => htmlSafe (code c)) port = true ->
  parse (Server.health_body port) =
  Some (Object [("status"%string, Str "healthy"); ("port"%string, Str port)]).
Proof.
  intros Hp. unfold parse.
  set (pre := ("{" +:+ String DQUOTE "status" +:+ String DQUOTE ": " +:+
               String DQUOTE "healthy" +:+ String DQUOTE ", " +:+
               String DQUOTE "port" +:+ String DQUOTE ": " +:+
               str1 DQUOTE)%string).
  replace (Server.health_body port)
    with (pre +:+ (appendString_go 0 port +:+ String DQUOTE "}"))
    by (rewrite (appendString_go_safe port Hp); reflexivity).
  rewrite scan_app.
  let v := eval vm_compute in (scan start pre) in
  change (scan start pre) with v.
  cbv beta iota. rewrite scan_literal.
  rewrite (appendString_go_safe port Hp). reflexivity.
Qed.

Section Validate.
Variable Join : list string -> string.
Variable fs : FileSystem.

Lemma Build_no_error f d e : Build Join fs f = Returns (d, Some e) -> False.
Proof. unfold Build. repeat case_match; congruence. Qed.

(** A configuration that passes. *)
Lemma Validate_passes s s' :
  Validate Join fs s = Returns (s', None) ->
  (exists port, Strconv.Atoi (Port s) = Some port /\ 0 < port) /\
  0 < ReadTimeout s /\ 0 < WriteTimeout s /\ 0 < MaxConnections s /\
  FrontendDir s <> EmptyString /\
  Build Join fs (FrontendDir s) = Returns (FrontendDir s', None) /\
  s' = with_FrontendDir s (FrontendDir s').
Proof.
  unfold Validate. intros H.
  destruct (Strconv.Atoi (Port s)) as [port|]; [|discriminate].
  destruct (Z.leb_spec port 0); [discriminate|].
  destruct (Z.leb_spec (ReadTimeout s) 0); [discriminate|].
  destruct (Z.leb_spec (WriteTimeout s) 0); [discriminate|].
  destruct (Z.leb_spec (MaxConnections s) 0); [discriminate|].
  destruct (String.eqb_spec (FrontendDir s) EmptyString); [discriminate|].
  destruct (Build Join fs (FrontendDir s)) as [[f [e|]]|]; try discriminate.
  injection H as <-. cbn [with_FrontendDir FrontendDir].
  repeat split; eauto.
Qed.

Lemma Validate_port_fails s :
  (forall port, Strconv.Atoi (Port s) = Some port -> port <= 0) ->
  Validate Join fs s = Returns (s, Some ErrInvalidPort).
Proof.
  intros H. unfold Validate.
  destruct (Strconv.Atoi (Port s)) as [port|]; [|reflexivity].
  specialize (H port eq_refl).
  now replace (port <=? 0) with true by (symmetry; apply Z.leb_le; lia).
Qed.

End Validate.

Lemma or_default_nonempty v d : d <> EmptyString -> or_default v d <> EmptyString.
Proof.
  unfold or_default. destruct (String.eqb_spec v EmptyString); congruence.
Qed.

End StartupFacts.

Module StartupProps.
Import Json Handler Config ConfigValidate StartupFacts StartupExamples.

Lemma parseInt_positive value d : 0 < d -> 0 < parseInt value d.
Proof.
  intros Hd. unfold parseInt.
  destruct (String.eqb value EmptyString); [assumption|].
  destruct (Strconv.Atoi value) as [v|]; [|assumption].
  destruct (Z.leb_spec v 0); lia.
Qed.

Lemma parseDuration_positive PD value d : 0 < d -> 0 < parseDuration PD value d.
Proof.
  intros Hd. unfold parseDuration.
  destruct (String.eqb value EmptyString); [assumption|].
  destruct (PD value) as [v|]; [|assumption].
  destruct (Z.leb_spec v 0); lia.
Qed.

(** X10.  [NewServer] and [SetDefaults] agree on the defaults: when the
    seven variables are unset or empty, the configuration read from the
    environment is the one [SetDefaults] installs. *)
Theorem unset_variables_give_defaults
    (PD : string -> option Duration) (env : gmap string string) (s : Server) :
  PD "30s"%string = Some (30 * Second) ->
  Forall (fun k => Getenv env k = EmptyString) variables ->
  NewServer PD env = SetDefaults s.
Proof.
  intros HPD Hvars. unfold variables in Hvars.
  repeat match goal with
         | H : Forall _ (_ :: _) |- _ => apply Forall_cons in H as [? H]
         end.
  unfold NewServer, SetDefaults.
  repeat match goal with
         | H : Getenv env _ = EmptyString |- _ => rewrite H; clear H
         end.
  cbn [or_default String.eqb]. unfold parseDuration. cbn [String.eqb Ascii.eqb Bool.eqb].
  rewrite HPD. reflexivity.
Qed.

Lemma unset_variables_give_defaults_witness :
  ParseDuration_exact "30s" = Some (30 * Second) /\
  NewServer ParseDuration_exact {[ "WEB_SSH_PORT"%string := EmptyString ]} =
  mkServer "3000" "frontend" (30 * Second) (30 * Second) 100 1024 1024.
Proof.
  assert (HPD : ParseDuration_exact "30s" = Some (30 * Second)) by reflexivity.
  split; [exact HPD|].
  apply (unset_variables_give_defaults ParseDuration_exact _
           (mkServer EmptyString EmptyString 0 0 0 0 0) HPD).
  repeat constructor.
Defined.

(** X11.  A configuration read by [NewServer] can fail [Validate] on the
    port only: the time-outs, the number of connections and the
    directory name always pass, so an error means that [WEB_SSH_PORT] is
    not a positive decimal number, and the configuration is left as it
    was read. *)
Theorem environment_fails_on_port_only
    (PD : string -> option Duration) (env : gmap string string)
    (Join : list string -> string) (fs : FileSystem)
    (cfg : Server) (e : error) :
  Validate Join fs (NewServer PD env) = Returns (cfg, Some e) ->
  e = ErrInvalidPort /\
  cfg = NewServer PD env /\
  forall port,
    Strconv.Atoi (or_default (Getenv env "WEB_SSH_PORT") DefaultPort) = Some port ->
    port <= 0.
Proof.
  intros H. unfold Validate in H.
  change (Port (NewServer PD env))
    with (or_default (Getenv env "WEB_SSH_PORT") DefaultPort) in H.
  destruct (Strconv.Atoi _) as [port|].
  2:{ injection H as <- <-. repeat split. discriminate. }
  destruct (Z.leb_spec port 0).
  { injection H as <- <-. repeat split. now intros ? [= <-]. }
  exfalso.
  assert (H1 : 0 < ReadTimeout (NewServer PD env))
    by (apply parseDuration_positive; reflexivity).
  assert (H2 : 0 < WriteTimeout (NewServer PD env))
    by (apply parseDuration_positive; reflexivity).
  assert (H3 : 0 < MaxConnections (NewServer PD env))
    by (apply parseInt_positive; reflexivity).
  assert (H4 : FrontendDir (NewServer PD env) <> EmptyString)
    by (apply or_default_nonempty; discriminate).
  destruct (Z.leb_spec (ReadTimeout (NewServer PD env)) 0); [lia|].
  destruct (Z.leb_spec (WriteTimeout (NewServer PD env)) 0); [lia|].
  destruct (Z.leb_spec (MaxConnections (NewServer PD env)) 0); [lia|].
  destruct (String.eqb_spec (FrontendDir (NewServer PD env)) EmptyString);
    [contradiction|].
  destruct (Build Join fs _) as [[f [e'|]]|] eqn:Hb; try discriminate.
  eapply Build_no_error, Hb.
Qed.

Lemma environment_fails_on_port_only_witness :
  Validate join_raw barren
    (NewServer ParseDuration_exact
       {[ "WEB_SSH_PORT"%string := "0"%string ]}) =
  Returns (mkServer "0" "frontend" (30 * Second) (30 * Second) 100 1024 1024,
           Some ErrInvalidPort) /\
  (ErrInvalidPort = ErrInvalidPort /\
   mkServer "0" "frontend" (30 * Second) (30 * Second) 100 1024 1024 =
   NewServer ParseDuration_exact {[ "WEB_SSH_PORT"%string := "0"%string ]} /\
   forall port,
     Strconv.Atoi
       (or_default (Getenv {[ "WEB_SSH_PORT"%string := "0"%string ]} "WEB_SSH_PORT")
          DefaultPort) = Some port ->
     port <= 0).
Proof.
  assert (Hv : Validate join_raw barren
                 (NewServer ParseDuration_exact
                    {[ "WEB_SSH_PORT"%string := "0"%string ]}) =
               Returns (mkServer "0" "frontend" (30 * Second) (30 * Second)
                          100 1024 1024, Some ErrInvalidPort))
    by (vm_compute; reflexivity).
  split; [exact Hv|].
  exact (environment_fails_on_port_only _ _ _ _ _ _ Hv).
Defined.

(** X12.  A port that is not a positive number costs every other
    setting: [server.New] then runs on the defaults throughout (port
    3000, the relative directory [frontend], buffers of 1024 bytes),
    whatever else the environment set, and without looking at the file
    system. *)
Theorem invalid_port_resets_every_setting
    (PD : string -> option Duration) (env : gmap string string)
    (Join : list string -> string) (fs : FileSystem) :
  (forall port,
      Strconv.Atoi (or_default (Getenv env "WEB_SSH_PORT") DefaultPort) = Some port ->
      port <= 0) ->
  Server.New Join fs (NewServer PD env) = Returns default_server.
Proof.
  intros Hport. unfold Server.New.
  now rewrite Validate_port_fails.
Qed.

Lemma invalid_port_resets_every_setting_witness :
  (forall port,
      Strconv.Atoi
        (or_default
           (Getenv {[ "WEB_SSH_PORT"%string := "0"%string;
                      "WEB_SSH_READ_BUFFER_SIZE"%string := "4096"%string;
                      "WEB_SSH_FRONTEND_DIR"%string := "/srv/www"%string ]}
              "WEB_SSH_PORT") DefaultPort) = Some port ->
      port <= 0) /\
  Server.New join_raw barren
    (NewServer ParseDuration_exact
       {[ "WEB_SSH_PORT"%string := "0"%string;
          "WEB_SSH_READ_BUFFER_SIZE"%string := "4096"%string;
          "WEB_SSH_FRONTEND_DIR"%string := "/srv/www"%string ]}) =
  Returns default_server.
Proof.
  assert (Hport : forall port,
      Strconv.Atoi
        (or_default
           (Getenv {[ "WEB_SSH_PORT"%string := "0"%string;
                      "WEB_SSH_READ_BUFFER_SIZE"%string := "4096"%string;
                      "WEB_SSH_FRONTEND_DIR"%string := "/srv/www"%string ]}
              "WEB_SSH_PORT") DefaultPort) = Some port ->
      port <= 0).
  { intros port Hp. vm_compute in Hp. injection Hp as <-. lia. }
  split; [exact Hport|].
  exact (invalid_port_resets_every_setting ParseDuration_exact _ join_raw barren
           Hport).
Defined.

Lemma unquote_safe s :
  all (fun c => htmlSafe (code c)) s = true -> unquote s = s.
Proof.
  intros Hs. rewrite <- (appendString_go_safe s Hs) at 1.
  apply JsonFacts.unquote_appendString_ascii.
  eapply EscapeFacts.all_impl; [|exact Hs].
  intros c Hc. unfold htmlSafe in Hc.
  apply andb_true_iff in Hc as [Hc _]. now apply andb_true_iff in Hc as [_ Hc].
Qed.

(** X13.  The server [New] returns always listens on a positive decimal
    port: the address is a colon and that port, and the body of the
    health endpoint is well-formed JSON whose [port] member reads back
    as the port. *)
Theorem served_port_is_positive_and_health_is_json
    (Join : list string -> string) (fs : FileSystem)
    (cfg : Server) (srv : Server.Server) :
  Server.New Join fs cfg = Returns srv ->
  (exists port, Strconv.Atoi (Server.Port srv) = Some port /\ 0 < port) /\
  Server.Addr srv = ":" +:+ Server.Port srv /\
  parse (Server.health srv) =
    Some (Object [("status"%string, Str "healthy");
                  ("port"%string, Str (Server.Port srv))]) /\
  unquote (Server.Port srv) = Server.Port srv.
Proof.
  unfold Server.New. intros H.
  destruct (Validate Join fs cfg) as [[cfg1 err]|] eqn:Hv; [|discriminate].
  injection H as <-. cbn [Server.Port Server.Addr Server.health].
  assert (Hport : exists port,
             Strconv.Atoi (Port match err with
                                | Some _ => SetDefaults cfg1
                                | None => cfg1
                                end) = Some port /\ 0 < port).
  { destruct err as [e|].
    - exists 3000. split; reflexivity.
    - apply Validate_passes in Hv as ((port & Hp & Hpos) & _ & _ & _ & _ & _ & ->).
      exists port. auto. }
  destruct Hport as (port & Hp & Hpos).
  assert (Hsafe : all (fun c => htmlSafe (code c))
                    (Port match err with
                          | Some _ => SetDefaults cfg1
                          | None => cfg1
                          end) = true).
  { eapply EscapeFacts.all_impl; [apply numeric_htmlSafe|].
    eapply Atoi_numeric, Hp. }
  split; [eauto|]. split; [reflexivity|]. split.
  - now apply parse_health_body.
  - now apply unquote_safe.
Qed.

Lemma served_port_is_positive_and_health_is_json_witness :
  Server.New join_raw plentiful
    (mkServer "8080" "/srv/www" (30 * Second) (30 * Second) 100 1024 1024) =
  Returns (Server.mkServer "8080" "/srv/www" (Server.mkUpgrader 1024 1024)
             ":8080" "/srv/www" (Server.health_body "8080")) /\
  parse (Server.health_body "8080") =
    Some (Object [("status"%string, Str "healthy"); ("port"%string, Str "8080")]).
Proof.
  assert (Hn : Server.New join_raw plentiful
                 (mkServer "8080" "/srv/www" (30 * Second) (30 * Second)
                    100 1024 1024) =
               Returns (Server.mkServer "8080" "/srv/www"
                          (Server.mkUpgrader 1024 1024)
                          ":8080" "/srv/www" (Server.health_body "8080")))
    by reflexivity.
  split; [exact Hn|].
  destruct (served_port_is_positive_and_health_is_json _ _ _ _ Hn)
    as (_ & _ & Hparse & _).
  exact Hparse.
Defined.

End StartupProps.

(** * Further properties: the frontend *)

Module FrontendProps.
Import Handler Spec ShellRuns Frontend Examples ShellProps.

Lemma HandleInput_control s c w :
  code c < 32 -> c <> CR -> c <> LF -> HandleInput s (str1 c) w = (s, w).
Proof.
  intros Hc Hcr Hlf. unfold HandleInput, str1. cbn [String.eqb].
  destruct (Ascii.eqb_spec c CR); [contradiction|].
  destruct (Ascii.eqb_spec c LF); [contradiction|].
  destruct (Ascii.eqb_spec c DEL) as [->|]; [vm_compute in Hc; discriminate|].
  cbn [andb orb]. unfold printable, between.
  now replace (32 <=? code c) with false by lia.
Qed.

(** X14.  The keys the terminal of the frontend filters out
    ([isNavigationKey]: the arrow keys, Ctrl+A, Ctrl+E, Ctrl+L) are keys
    the simulated shell ignores anyway: sent to [HandleInput], they
    change neither the session nor the connection. *)
Theorem filtered_keys_are_ignored_by_the_shell
    (input : string) (s : ShellSession) (w : World) :
  all ascii7 input = true ->
  isNavigationKey (units input) = true ->
  HandleInput s input w = (s, w).
Proof.
  intros _ Hnav.
  destruct input as [|c [|d r]].
  - discriminate.
  - apply HandleInput_control.
    + unfold isNavigationKey, units, is1 in Hnav. cbn in Hnav. lia.
    + intros ->. discriminate.
    + intros ->. discriminate.
  - apply HandleInput_long.
Qed.

Lemma filtered_keys_are_ignored_by_the_shell_witness :
  all ascii7 (String ESC "[A") = true /\
  isNavigationKey (units (String ESC "[A")) = true /\
  HandleInput (mkShellSession "ls" "$ ") (String ESC "[A") w0 =
    (mkShellSession "ls" "$ ", w0).
Proof.
  split; [reflexivity|]. split; [reflexivity|].
  exact (filtered_keys_are_ignored_by_the_shell (String ESC "[A")
           (mkShellSession "ls" "$ ") w0 eq_refl eq_refl).
Defined.

(** ** The API key of the login form *)

Lemma white_not_kept u : isWhiteSpace u = true -> kept u = false.
Proof. unfold isWhiteSpace, kept, isWord. lia. Qed.

Lemma filter_trimStart s : List.filter kept (trimStart s) = List.filter kept s.
Proof.
  induction s as [|u s IH]; [reflexivity|]. cbn [trimStart List.filter].
  destruct (isWhiteSpace u) eqn:Hu; [|reflexivity].
  now rewrite (white_not_kept u Hu).
Qed.

Lemma filter_rev {A} (p : A -> bool) (l : list A) :
  List.filter p (rev l) = rev (List.filter p l).
Proof.
  induction l as [|x l IH]; [reflexivity|]. cbn [rev List.filter].
  rewrite List.filter_app, IH. cbn [List.filter].
  destruct (p x); [reflexivity | now rewrite app_nil_r].
Qed.

Lemma filter_trim s : List.filter kept (trim s) = List.filter kept s.
Proof.
  unfold trim.
  now rewrite filter_rev, filter_trimStart, filter_rev, rev_involutive,
    filter_trimStart.
Qed.

Lemma forallb_filter {A} (p : A -> bool) (l : list A) :
  forallb p (List.filter p l) = true.
Proof.
  induction l as [|x l IH]; [reflexivity|]. cbn [List.filter].
  destruct (p x) eqn:Hx; [|assumption]. cbn [forallb]. now rewrite Hx.
Qed.

Lemma filter_filter {A} (p : A -> bool) (l : list A) :
  List.filter p (List.filter p l) = List.filter p l.
Proof.
  induction l as [|x l IH]; [reflexivity|]. cbn [List.filter].
  destruct (p x) eqn:Hx; [|assumption]. cbn [List.filter]. now rewrite Hx, IH.
Qed.

(** X15.  [sanitizeInput] keeps exactly the letters, digits, underscores
    and hyphens of its input, in order: trimming first changes nothing,
    white space is dropped wherever it stands, and sanitizing twice is
    sanitizing once. *)
Theorem sanitizeInput_keeps_key_characters (s : JsString) :
  sanitizeInput (Some s) = List.filter kept s /\
  forallb kept (sanitizeInput (Some s)) = true /\
  sanitizeInput (Some (sanitizeInput (Some s))) = sanitizeInput (Some s).
Proof.
  unfold sanitizeInput. rewrite !filter_trim.
  split; [reflexivity|]. split; [apply forallb_filter | apply filter_filter].
Qed.

Lemma keyPattern_kept key :
  keyPattern_test key = negb (Nat.eqb (length key) 0) && forallb kept key.
Proof.
  unfold keyPattern_test. destruct key as [|u key]; [reflexivity|].
  cbn [length Nat.eqb negb andb].
  generalize (u :: key) as l. intros l.
  induction l as [|x l IH]; [reflexivity|]. cbn [forallb]. rewrite IH.
  f_equal. unfold kept, isWord. lia.
Qed.

(** X16.  After [sanitizeInput] the pattern of [validateAPIKey] can no
    longer reject a key: a sanitized key is accepted exactly when it has
    between 8 and 256 characters. *)
Theorem sanitized_key_is_judged_by_length (input : option JsString) :
  let key := sanitizeInput input in
  validateAPIKey key =
  (minKeyLength <=? Z.of_nat (length key)) &&
  (Z.of_nat (length key) <=? maxKeyLength).
Proof.
  intros key. unfold validateAPIKey. rewrite keyPattern_kept.
  assert (Hk : forallb kept key = true).
  { subst key. destruct input as [s|]; [|reflexivity].
    unfold sanitizeInput. apply forallb_filter. }
  rewrite Hk. unfold minKeyLength.
  destruct (length key) as [|n]; [reflexivity|].
  cbn [Nat.eqb negb]. now rewrite !andb_true_r.
Qed.

End FrontendProps.

(** * Further properties: decimal numbers *)

Module DecimalFacts.
Import Decimal ShellFacts StartupFacts.

Lemma code_chr z : 0 <= z < 256 -> code (chr z) = z.
Proof. intros H. unfold code, chr. rewrite N_ascii_embedding; lia. Qed.

Lemma pow10_S k : 10 ^ Z.of_nat (S k) = 10 * 10 ^ Z.of_nat k.
Proof. rewrite Nat2Z.inj_succ, Z.pow_succ_r; lia. Qed.

Lemma pow10_pos k : 0 < 10 ^ Z.of_nat k.
Proof. apply Z.pow_pos_nonneg; lia. Qed.

Lemma pow10_mono j k : (j <= k)%nat -> 10 ^ Z.of_nat j <= 10 ^ Z.of_nat k.
Proof. intros H. apply Z.pow_le_mono_r; lia. Qed.

Lemma digit_code x : code (chr (48 + x mod 10)) = 48 + x mod 10.
Proof.
  pose proof (Z.mod_pos_bound x 10 ltac:(lia)). apply code_chr. lia.
Qed.

Lemma digit_is_digit x : is_digit (chr (48 + x mod 10)) = true.
Proof.
  unfold is_digit, between. rewrite digit_code.
  pose proof (Z.mod_pos_bound x 10 ltac:(lia)). lia.
Qed.

Lemma length_dec w n : String.length (dec w n) = w.
Proof. induction w as [|w IH]; [reflexivity|]. simpl. now rewrite IH. Qed.

Lemma dec_digits w n : all is_digit (dec w n) = true.
Proof.
  induction w as [|w IH]; [reflexivity|]. cbn [dec all].
  now rewrite digit_is_digit, IH.
Qed.

(** The value of the digits. *)
Lemma dec_value w : forall n a (r : string),
  Strconv.digits_value a (dec w n +:+ r) =
  Strconv.digits_value (a * 10 ^ Z.of_nat w + n mod 10 ^ Z.of_nat w) r.
Proof.
  induction w as [|w IH]; intros n a r.
  - cbn [dec]. rewrite sapp_nil_l. f_equal.
    change (10 ^ Z.of_nat 0) with 1. rewrite Z.mod_1_r. lia.
  - cbn [dec]. rewrite sapp_cons. cbn [Strconv.digits_value].
    rewrite digit_is_digit, digit_code, IH. f_equal.
    rewrite pow10_S.
    rewrite (Z.mul_comm 10 (10 ^ Z.of_nat w)).
    rewrite (Z.rem_mul_r n (10 ^ Z.of_nat w) 10)
      by (pose proof (pow10_pos w); lia).
    lia.
Qed.

Lemma dec_value_small w n :
  0 <= n < 10 ^ Z.of_nat w -> Strconv.digits_value 0 (dec w n) = Some n.
Proof.
  intros H. rewrite <- (sapp_nil_r (dec w n)), dec_value.
  cbn [Strconv.digits_value]. f_equal. rewrite Z.mod_small; lia.
Qed.

Lemma dec_snoc w : forall n,
  dec (S w) n = dec w (n / 10) +:+ str1 (chr (48 + n mod 10)).
Proof.
  induction w as [|w IH]; intros n.
  - cbn [dec]. change (10 ^ Z.of_nat 0) with 1. now rewrite Z.div_1_r.
  - change (dec (S (S w)) n)
      with (String (chr (48 + (n / 10 ^ Z.of_nat (S w)) mod 10)) (dec (S w) n)).
    rewrite IH.
    change (dec (S w) (n / 10))
      with (String (chr (48 + (n / 10 / 10 ^ Z.of_nat w) mod 10)) (dec w (n / 10))).
    rewrite sapp_cons. f_equal. f_equal. f_equal. f_equal.
    rewrite pow10_S. rewrite Z.div_div; [reflexivity | lia | apply pow10_pos].
Qed.

Lemma zeros_S k : zeros (S k) = String "0" (zeros k).
Proof. destruct k; reflexivity. Qed.

(** Leading zeros. *)
Lemma dec_pad j k n :
  0 <= n < 10 ^ Z.of_nat k -> dec (j + k) n = zeros j +:+ dec k n.
Proof.
  intros H. induction j as [|j IH]; [reflexivity|].
  change (S j + k)%nat with (S (j + k)). cbn [dec].
  rewrite IH, zeros_S, sapp_cons. f_equal.
  rewrite Z.div_small; [reflexivity|].
  pose proof (pow10_mono k (j + k) ltac:(lia)). lia.
Qed.

Lemma digits_go_S f n (acc : string) :
  Strconv.digits_go (S f) n acc =
  if n <? 10 then String (chr (48 + n mod 10)) acc
  else Strconv.digits_go f (n / 10) (String (chr (48 + n mod 10)) acc).
Proof. reflexivity. Qed.

(** The loop of [utoa] writes the digits of [n], with no leading zero. *)
Lemma digits_go_dec f : forall n (acc : string),
  0 <= n < 2 ^ Z.of_nat (S f) ->
  exists k,
    (1 <= k)%nat /\ n < 10 ^ Z.of_nat k /\
    (k = 1%nat \/ 10 ^ Z.of_nat (k - 1) <= n) /\
    Strconv.digits_go (S f) n acc = dec k n +:+ acc.
Proof.
  induction f as [|f IH]; intros n acc Hn.
  - exists 1%nat. change (2 ^ Z.of_nat 1) with 2 in Hn.
    change (10 ^ Z.of_nat 1) with 10.
    repeat split; [lia | lia | now left |].
    rewrite digits_go_S. cbn [dec]. replace (n <? 10) with true by lia.
    change (10 ^ Z.of_nat 0) with 1. now rewrite Z.div_1_r.
  - rewrite digits_go_S. destruct (Z.ltb_spec n 10) as [Hlt|Hge].
    + exists 1%nat. change (10 ^ Z.of_nat 1) with 10.
      repeat split; [lia | lia | now left |].
      cbn [dec]. change (10 ^ Z.of_nat 0) with 1. now rewrite Z.div_1_r.
    + assert (Hdiv : 0 <= n / 10 < 2 ^ Z.of_nat (S f)).
      { split; [apply Z.div_pos; lia|].
        apply Z.div_lt_upper_bound; [lia|].
        rewrite (Nat2Z.inj_succ (S f)), Z.pow_succ_r in Hn by lia. lia. }
      destruct (IH (n / 10) (String (chr (48 + n mod 10)) acc) Hdiv)
        as (k & Hk & Hlt & Hmin & Heq).
      pose proof (Z.div_mod n 10 ltac:(lia)) as Hdm.
      pose proof (Z.mod_pos_bound n 10 ltac:(lia)) as Hmod.
      exists (S k). repeat split.
      * lia.
      * rewrite pow10_S. lia.
      * right. replace (S k - 1)%nat with k by lia.
        destruct Hmin as [-> | Hmin]; [change (10 ^ Z.of_nat 1) with 10; lia|].
        replace k with (S (k - 1)) at 1 by lia. rewrite pow10_S. lia.
      * rewrite Heq, dec_snoc, sapp_assoc. reflexivity.
Qed.

Lemma utoa_dec n :
  0 <= n ->
  exists k,
    (1 <= k)%nat /\ n < 10 ^ Z.of_nat k /\
    (k = 1%nat \/ 10 ^ Z.of_nat (k - 1) <= n) /\
    Strconv.utoa n = dec k n.
Proof.
  intros Hn. unfold Strconv.utoa.
  destruct (digits_go_dec (Z.to_nat (Z.log2 n)) n EmptyString)
    as (k & H1 & H2 & H3 & H4).
  { split; [assumption|].
    rewrite Nat2Z.inj_succ, Z2Nat.id by apply Z.log2_nonneg.
    destruct (Z.eq_dec n 0) as [->|Hne]; [reflexivity|].
    apply Z.log2_spec. lia. }
  exists k. rewrite H4, sapp_nil_r. auto.
Qed.

Lemma utoa_value n : 0 <= n -> Strconv.digits_value 0 (Strconv.utoa n) = Some n.
Proof.
  intros Hn. destruct (utoa_dec n Hn) as (k & _ & Hlt & _ & ->).
  apply dec_value_small. lia.
Qed.

Lemma utoa_digits n : 0 <= n -> all is_digit (Strconv.utoa n) = true.
Proof.
  intros Hn. destruct (utoa_dec n Hn) as (k & _ & _ & _ & ->).
  apply dec_digits.
Qed.

Lemma digit_not_sign c : is_digit c = true ->
  Ascii.eqb c "+" = false /\ Ascii.eqb c "-" = false.
Proof.
  unfold is_digit, between. rewrite !ascii_eqb_code.
  change (code "+") with 43. change (code "-") with 45. lia.
Qed.

(** [strconv.Atoi] reads back what [strconv.Itoa] writes. *)
Lemma Atoi_Itoa n : is_int n = true -> Strconv.Atoi (Strconv.Itoa n) = Some n.
Proof.
  unfold is_int. intros Hr. unfold Strconv.Atoi, Strconv.Itoa.
  rewrite sign_split.
  destruct (Z.ltb_spec n 0) as [Hneg|Hpos].
  - cbn [Ascii.eqb Bool.eqb].
    destruct (utoa_dec (- n) ltac:(lia)) as (k & Hk & _ & _ & Hu).
    pose proof (utoa_value (- n) ltac:(lia)) as Hv.
    destruct k as [|k]; [lia|].
    rewrite Hu in *. cbn [dec] in *. rewrite Hv.
    cbv zeta. replace (- - n) with n by lia. now rewrite Hr.
  - destruct (utoa_dec n Hpos) as (k & Hk & _ & _ & Hu).
    pose proof (utoa_value n Hpos) as Hv.
    destruct k as [|k]; [lia|].
    rewrite Hu in *. cbn [dec] in *.
    destruct (digit_not_sign _ (digit_is_digit (n / 10 ^ Z.of_nat k))) as [-> ->].
    rewrite Hv. cbv zeta. now rewrite Hr.
Qed.

(** [appendInt] of a number that fits the width: just the digits. *)
Lemma appendInt_dec x w :
  (1 <= w)%nat -> 0 <= x < 10 ^ Z.of_nat w -> Time.appendInt x w = dec w x.
Proof.
  intros Hw Hx. unfold Time.appendInt.
  replace (x <? 0) with false by lia. rewrite sapp_nil_l.
  rewrite Z.abs_eq by lia.
  destruct (utoa_dec x ltac:(lia)) as (k & Hk & Hlt & Hmin & ->).
  rewrite length_dec.
  assert (Hkw : (k <= w)%nat).
  { destruct (Nat.le_gt_cases k w) as [|Hgt]; [assumption|exfalso].
    destruct Hmin as [-> | Hmin]; [lia|].
    pose proof (pow10_mono w (k - 1) ltac:(lia)). lia. }
  fold (zeros (w - k)).
  replace w with ((w - k) + k)%nat at 2 by lia.
  symmetry. apply dec_pad. lia.
Qed.

End DecimalFacts.

(** * Further properties: RFC 3339 *)

Module TimeFacts.
Import Decimal DecimalFacts ShellFacts Instant.

Lemma parseUint_dec w n lo hi :
  0 <= n < 10 ^ Z.of_nat w -> lo <= n <= hi ->
  Time.parseUint (dec w n) lo hi = Some n.
Proof.
  intros Hn Hr. unfold Time.parseUint. rewrite dec_value_small by assumption.
  now replace ((lo <=? n) && (n <=? hi)) with true by lia.
Qed.

Lemma substring_0_all (s : string) : String.substring 0 (String.length s) s = s.
Proof. induction s as [|c s IH]; [reflexivity|]. simpl. now rewrite IH. Qed.

Lemma substring_0_0 (s : string) : String.substring 0 0 s = EmptyString.
Proof. now destruct s. Qed.

Lemma parseRFC3339_shape y1 y2 y3 y4 m1 m2 d1 d2 h1 h2 i1 i2 s1 s2 tail :
  Time.parseRFC3339
    (String y1 (String y2 (String y3 (String y4 (String "-"
    (String m1 (String m2 (String "-"
    (String d1 (String d2 (String "T"
    (String h1 (String h2 (String ":"
    (String i1 (String i2 (String ":"
    (String s1 (String s2 tail))))))))))))))))))) =
  match Time.parseUint (String y1 (String y2 (String y3 (String y4 EmptyString)))) 0 9999,
        Time.parseUint (String m1 (String m2 EmptyString)) 1 12 with
  | Some y, Some mo =>
      match Time.parseUint (String d1 (String d2 EmptyString)) 1 (Time.daysIn mo y),
            Time.parseUint (String h1 (String h2 EmptyString)) 0 23,
            Time.parseUint (String i1 (String i2 EmptyString)) 0 59,
            Time.parseUint (String s1 (String s2 EmptyString)) 0 59 with
      | Some d, Some h, Some mi, Some sec =>
          let '(ns, rest') := fraction tail in
          match Time.parseZone rest' with
          | Some off => Some (Time.mkTime y mo d h mi sec ns off)
          | None => None
          end
      | _, _, _, _ => None
      end
  | _, _ => None
  end.
Proof.
  unfold Time.parseRFC3339.
  cbn [Time.sub String.substring String.length Nat.sub Nat.ltb Nat.leb
       Time.byte_at String.get Ascii.eqb Bool.eqb andb].
  rewrite !substring_0_0, !Nat.sub_0_r, !substring_0_all. reflexivity.
Qed.

(** ** Zeros *)

Lemma zeros_app a b : zeros (a + b) = zeros a +:+ zeros b.
Proof.
  induction a as [|a IH]; [reflexivity|].
  change (S a + b)%nat with (S (a + b)). now rewrite !zeros_S, IH.
Qed.

Lemma zeros_snoc k : zeros k +:+ "0" = String "0" (zeros k).
Proof.
  induction k as [|k IH]; [reflexivity|].
  now rewrite zeros_S, sapp_cons, IH.
Qed.

Lemma rev_zeros k : String.rev (zeros k) = zeros k.
Proof.
  induction k as [|k IH]; [reflexivity|].
  rewrite zeros_S, rev_cons, IH. apply zeros_snoc.
Qed.

Lemma length_zeros k : String.length (zeros k) = k.
Proof.
  induction k as [|k IH]; [reflexivity|]. rewrite zeros_S. simpl. now rewrite IH.
Qed.

Lemma digits_value_zeros k : Strconv.digits_value 0 (zeros k) = Some 0.
Proof.
  induction k as [|k IH]; [reflexivity|]. rewrite zeros_S. exact IH.
Qed.

Lemma length_rev (s : string) : String.length (String.rev s) = String.length s.
Proof.
  induction s as [|c s IH]; [reflexivity|].
  rewrite rev_cons, length_sapp, IH. simpl. lia.
Qed.

Lemma substring_0_app (a b : string) :
  String.substring 0 (String.length a) (a +:+ b) = a.
Proof.
  induction a as [|c a IH]; [apply substring_0_0|].
  rewrite sapp_cons. simpl. now rewrite IH.
Qed.

(** ** The fraction of a second *)

Lemma strip_cons c (s : string) :
  Time.strip_zeros_rev (String c s) =
  if Ascii.eqb c "0" then Time.strip_zeros_rev s else String c s.
Proof. destruct c as [[] [] [] [] [] [] [] []]; reflexivity. Qed.

Lemma strip_spec (s : string) :
  exists k,
    s = zeros k +:+ Time.strip_zeros_rev s /\
    (Time.strip_zeros_rev s = EmptyString \/
     exists c r, Time.strip_zeros_rev s = String c r).
Proof.
  induction s as [|c s (k & Hk & Hs)].
  - exists 0%nat. split; [reflexivity | now left].
  - rewrite strip_cons. destruct (Ascii.eqb_spec c "0") as [->|Hc].
    + exists (S k). rewrite zeros_S, sapp_cons, <- Hk. auto.
    + exists 0%nat. split; [reflexivity|]. right. eauto.
Qed.

Lemma fraction_split (rest : string) :
  fraction rest =
  match rest with
  | String d (String c r) =>
      if Ascii.eqb d "."
      then if is_digit c
           then let '(ds, r') := Time.span_digits (String c r) in
                (Time.parseNanoseconds ds, r')
           else (0, rest)
      else (0, rest)
  | _ => (0, rest)
  end.
Proof.
  destruct rest as [|d [|c r]]; [reflexivity| |];
    destruct d as [[] [] [] [] [] [] [] []]; reflexivity.
Qed.

Lemma span_digits_app (a : string) c (z : string) :
  all is_digit a = true -> is_digit c = false ->
  Time.span_digits (a +:+ String c z) = (a, String c z).
Proof.
  intros Ha Hc. induction a as [|x a IH].
  - rewrite sapp_nil_l. cbn [Time.span_digits]. now rewrite Hc.
  - cbn [all] in Ha. apply andb_true_iff in Ha as [Hx Ha].
    rewrite sapp_cons. cbn [Time.span_digits]. now rewrite Hx, (IH Ha).
Qed.

(** What [appendNano] writes: nothing for a whole second, otherwise a
    dot and the nine digits without their trailing zeros. *)
Lemma appendNano_cases ns :
  0 <= ns <= 999999999 ->
  (ns = 0 /\ Time.appendNano ns = EmptyString) \/
  (exists c body k,
      Time.appendNano ns = String "." (String c body) /\
      all is_digit (String c body) = true /\
      String c body +:+ zeros k = dec 9 ns /\
      (String.length (String c body) + k = 9)%nat).
Proof.
  intros Hns. unfold Time.appendNano.
  rewrite appendInt_dec by (change (10 ^ Z.of_nat 9) with 1000000000; lia).
  destruct (strip_spec (String.rev (dec 9 ns))) as (k & Hk & Hs).
  assert (Hd : dec 9 ns =
               String.rev (Time.strip_zeros_rev (String.rev (dec 9 ns))) +:+ zeros k).
  { rewrite <- (rev_rev (dec 9 ns)) at 1. rewrite Hk at 1.
    now rewrite rev_sapp, rev_zeros. }
  destruct Hs as [Hs | (c & r & Hs)].
  - left. rewrite Hs in *. split; [|reflexivity].
    change (String.rev EmptyString +:+ zeros k) with (zeros k) in Hd.
    pose proof (dec_value_small 9 ns
                  ltac:(change (10 ^ Z.of_nat 9) with 1000000000; lia)) as Hv.
    rewrite Hd, digits_value_zeros in Hv. congruence.
  - right. rewrite Hs in *.
    destruct (String.rev (String c r)) as [|c0 body] eqn:Hr.
    { apply (f_equal String.length) in Hr. rewrite length_rev in Hr.
      discriminate. }
    exists c0, body, k. split; [reflexivity|].
    pose proof (dec_digits 9 ns) as Hall.
    pose proof (length_dec 9 ns) as Hlen.
    rewrite Hd in Hall, Hlen. rewrite all_app in Hall.
    apply andb_true_iff in Hall as [Hall _].
    rewrite length_sapp, length_zeros in Hlen. auto.
Qed.

Lemma fraction_appendNano ns c (z : string) :
  0 <= ns <= 999999999 ->
  is_digit c = false -> c <> "."%char ->
  fraction (Time.appendNano ns +:+ String c z) = (ns, String c z).
Proof.
  intros Hns Hc Hdot.
  destruct (appendNano_cases ns Hns)
    as [[-> ->] | (c0 & body & k & -> & Hall & Hd & Hlen)].
  - rewrite sapp_nil_l, fraction_split.
    destruct z as [|d z]; [reflexivity|].
    destruct (Ascii.eqb_spec c "."); [contradiction | reflexivity].
  - rewrite !sapp_cons, fraction_split.
    cbn [Ascii.eqb Bool.eqb].
    assert (Hc0 : is_digit c0 = true).
    { cbn [all] in Hall. now apply andb_true_iff in Hall as [H _]. }
    rewrite Hc0. rewrite <- sapp_cons, span_digits_app by assumption.
    f_equal. unfold Time.parseNanoseconds.
    replace "000000000"%string with (zeros (k + (9 - k)))
      by (replace (k + (9 - k))%nat with 9%nat by (cbn [String.length] in Hlen; lia);
          reflexivity).
    rewrite zeros_app, <- sapp_assoc, Hd.
    rewrite <- (length_dec 9 ns) at 1. rewrite substring_0_app.
    rewrite dec_value_small; [reflexivity|].
    change (10 ^ Z.of_nat 9) with 1000000000. lia.
Qed.

(** ** The zone *)

Lemma dec2_chars n : exists a b, dec 2 n = String a (String b EmptyString).
Proof. eexists _, _. reflexivity. Qed.

Lemma dec4_chars n :
  exists a b c d, dec 4 n = String a (String b (String c (String d EmptyString))).
Proof. eexists _, _, _, _. reflexivity. Qed.

Lemma zone_text_head o :
  exists c z, zone_text o = String c z /\ is_digit c = false /\ c <> "."%char.
Proof.
  unfold zone_text. destruct (o =? 0).
  - exists "Z"%char, EmptyString. repeat split. discriminate.
  - destruct (Z.quot o 60 <? 0); eexists _, _;
      (split; [reflexivity | split; [reflexivity | discriminate]]).
Qed.

Lemma parseZone_zone_text o :
  Z.rem o 60 = 0 -> Z.abs (Z.quot o 60) / 60 < 24 ->
  Time.parseZone (zone_text o) = Some o.
Proof.
  intros Hrem Hhr. unfold zone_text.
  destruct (Z.eqb_spec o 0) as [->|Hne]; [reflexivity|].
  pose proof (Z.quot_rem' o 60) as Hq. rewrite Hrem in Hq.
  set (zone := Z.quot o 60) in *.
  assert (Hmm : 0 <= Z.abs zone mod 60 < 60) by (apply Z.mod_pos_bound; lia).
  assert (Hhh : 0 <= Z.abs zone / 60) by (apply Z.div_pos; lia).
  pose proof (Z.div_mod (Z.abs zone) 60 ltac:(lia)) as Hdm.
  rewrite !appendInt_dec
    by (try lia; change (10 ^ Z.of_nat 2) with 100; lia).
  pose proof (parseUint_dec 2 (Z.abs zone / 60) 0 23
                ltac:(change (10 ^ Z.of_nat 2) with 100; lia) ltac:(lia)) as Hp1.
  pose proof (parseUint_dec 2 (Z.abs zone mod 60) 0 59
                ltac:(change (10 ^ Z.of_nat 2) with 100; lia) ltac:(lia)) as Hp2.
  destruct (dec2_chars (Z.abs zone / 60)) as (a & b & Hab).
  destruct (dec2_chars (Z.abs zone mod 60)) as (c & d & Hcd).
  rewrite Hab, Hcd in *.
  destruct (Z.ltb_spec zone 0) as [Hneg|Hpos];
    repeat (rewrite ?sapp_cons, ?sapp_nil_l);
    unfold Time.parseZone;
    cbn [String.eqb Ascii.eqb Bool.eqb String.length Nat.eqb negb
         Time.sub String.substring Nat.sub Time.byte_at String.get andb orb];
    rewrite Hp1, Hp2; f_equal; lia.
Qed.

(** ** Reading back a timestamp *)

Lemma wellformed_fields t :
  wellformed t = true ->
  1 <= Time.month t <= 12 /\
  1 <= Time.day t <= Time.daysIn (Time.month t) (Time.year t) /\
  0 <= Time.hour t <= 23 /\ 0 <= Time.minute t <= 59 /\
  0 <= Time.second t <= 59 /\ 0 <= Time.nanosecond t <= 999999999 /\
  Z.rem (Time.offset t) 60 = 0.
Proof. unfold wellformed. lia. Qed.

Lemma daysIn_le m y : Time.daysIn m y <= 31.
Proof. unfold Time.daysIn. repeat case_match; lia. Qed.

Lemma format_zone t :
  Time.formatRFC3339Nano t =
  Time.appendInt (Time.year t) 4 +:+ "-" +:+ Time.appendInt (Time.month t) 2 +:+
  "-" +:+ Time.appendInt (Time.day t) 2 +:+ "T" +:+
  Time.appendInt (Time.hour t) 2 +:+ ":" +:+ Time.appendInt (Time.minute t) 2 +:+
  ":" +:+ Time.appendInt (Time.second t) 2 +:+
  Time.appendNano (Time.nanosecond t) +:+ zone_text (Time.offset t).
Proof. reflexivity. Qed.

Lemma parse_format t :
  wellformed t = true -> Time.marshalable t = true ->
  Time.parseRFC3339 (Time.formatRFC3339Nano t) = Some t.
Proof.
  intros Hwf Hm.
  apply wellformed_fields in Hwf as (Hmo & Hd & Hh & Hmi & Hs & Hns & Hoff).
  unfold Time.marshalable in Hm.
  assert (Hy : 0 <= Time.year t <= 9999) by lia.
  assert (Hz : Z.abs (Z.quot (Time.offset t) 60) / 60 < 24) by lia.
  pose proof (daysIn_le (Time.month t) (Time.year t)) as Hdi.
  rewrite format_zone.
  rewrite !appendInt_dec
    by (try lia;
        first [ change (10 ^ Z.of_nat 2) with 100
              | change (10 ^ Z.of_nat 4) with 10000 ]; lia).
  pose proof (parseUint_dec 4 (Time.year t) 0 9999
                ltac:(change (10 ^ Z.of_nat 4) with 10000; lia) Hy) as Py.
  pose proof (parseUint_dec 2 (Time.month t) 1 12
                ltac:(change (10 ^ Z.of_nat 2) with 100; lia) Hmo) as Pmo.
  pose proof (parseUint_dec 2 (Time.day t) 1 _
                ltac:(change (10 ^ Z.of_nat 2) with 100; lia) Hd) as Pd.
  pose proof (parseUint_dec 2 (Time.hour t) 0 23
                ltac:(change (10 ^ Z.of_nat 2) with 100; lia) Hh) as Ph.
  pose proof (parseUint_dec 2 (Time.minute t) 0 59
                ltac:(change (10 ^ Z.of_nat 2) with 100; lia) Hmi) as Pmi.
  pose proof (parseUint_dec 2 (Time.second t) 0 59
                ltac:(change (10 ^ Z.of_nat 2) with 100; lia) Hs) as Ps.
  destruct (dec4_chars (Time.year t)) as (y1 & y2 & y3 & y4 & Ey).
  destruct (dec2_chars (Time.month t)) as (m1 & m2 & Emo).
  destruct (dec2_chars (Time.day t)) as (d1 & d2 & Ed).
  destruct (dec2_chars (Time.hour t)) as (h1 & h2 & Eh).
  destruct (dec2_chars (Time.minute t)) as (i1 & i2 & Emi).
  destruct (dec2_chars (Time.second t)) as (s1 & s2 & Es).
  rewrite Ey, Emo, Ed, Eh, Emi, Es in *.
  repeat (rewrite ?sapp_cons, ?sapp_nil_l).
  rewrite parseRFC3339_shape, Py, Pmo, Pd, Ph, Pmi, Ps.
  destruct (zone_text_head (Time.offset t)) as (c & z & Ez & Hc & Hdot).
  rewrite Ez, fraction_appendNano by assumption.
  rewrite <- Ez, parseZone_zone_text by assumption.
  now destruct t.
Qed.

(** What the strict reader accepts, [Time.UnmarshalJSON] accepts with
    the same result: the fall-back is not reached. *)
Lemma parseStrictRFC3339_strict (s : string) (t : Time) :
  Time.parseRFC3339 s = Some t -> Time.parseStrictRFC3339 s = Some t.
Proof. intros H. unfold Time.parseStrictRFC3339. now rewrite H. Qed.

Lemma parseStrictRFC3339_format (t : Time) :
  wellformed t = true -> Time.marshalable t = true ->
  Time.parseStrictRFC3339 (Time.formatRFC3339Nano t) = Some t.
Proof. intros Hw Hm. now apply parseStrictRFC3339_strict, parse_format. Qed.

(** The forms only the fall-back reads: an hour of one digit, a comma
    before the fraction, a zone of 24 hours; a zone of 25 hours is an
    error for both readers. *)
Lemma lenient_forms_are_read :
  Time.parseRFC3339 "2025-08-12T4:00:00Z" = None /\
  Time.parseStrictRFC3339 "2025-08-12T4:00:00Z" =
    Some (Time.mkTime 2025 8 12 4 0 0 0 0) /\
  Time.parseStrictRFC3339 "2025-08-12T14:00:00,5Z" =
    Some (Time.mkTime 2025 8 12 14 0 0 500000000 0) /\
  Time.parseStrictRFC3339 "2025-08-12T14:00:00+24:00" =
    Some (Time.mkTime 2025 8 12 14 0 0 0 86400) /\
  Time.parseStrictRFC3339 "2025-08-12T14:00:00+25:00" = None.
Proof. repeat split; vm_compute; reflexivity. Qed.

End TimeFacts.

(** * Further properties: frames read back *)

Module ScanFacts.
Import Json JsonFacts Handler Spec Decimal DecimalFacts StartupFacts Wire.

Lemma complete_ends v stk sc c :
  complete v stk = Some sc -> step sc c = endValue sc c.
Proof.
  unfold complete. intros H.
  repeat case_match; simplify_eq; reflexivity.
Qed.

Lemma closes_cases delim :
  closes delim = true -> delim = ","%char \/ delim = "}"%char.
Proof.
  unfold closes. intros [H|H]%orb_true_iff; apply Ascii.eqb_eq in H; auto.
Qed.

Lemma scan_cons sc c (r : string) :
  scan sc (String c r) =
  match step sc c with
  | Some sc' => scan sc' r
  | None => None
  end.
Proof. reflexivity. Qed.

(** ** Strings *)

Lemma prints_string d s :
  prints d (appendString s) (Str (appendString_go 0 s)).
Proof.
  intros stk delim rest _ _. unfold appendString.
  rewrite sapp_cons, scan_cons.
  change (step (mkScanner BeginValue EmptyString stk None) DQUOTE)
    with (Some (mkScanner InString EmptyString stk None)).
  cbv iota. rewrite sapp_assoc.
  change (str1 DQUOTE +:+ String delim rest)
    with (String DQUOTE (String delim rest)).
  rewrite scan_literal.
  destruct (complete (Str (appendString_go 0 s)) stk) as [sc|] eqn:Hc;
    [|reflexivity].
  rewrite scan_cons. now rewrite (complete_ends _ _ _ delim Hc).
Qed.

(** ** [true] *)

Lemma prints_true d : prints d "true" (Bool true).
Proof.
  intros stk delim rest _ _.
  change (scan (mkScanner BeginValue EmptyString stk None)
            ("true" +:+ String delim rest))
    with (match complete (Bool true) stk with
          | Some sc => scan sc (String delim rest)
          | None => None
          end).
  destruct (complete (Bool true) stk) as [sc|] eqn:Hc; [|reflexivity].
  rewrite scan_cons. now rewrite (complete_ends _ _ _ delim Hc).
Qed.

(** ** Numbers *)

Ltac not_this_byte c :=
  repeat match goal with
         | |- context [Ascii.eqb c ?k] =>
             replace (Ascii.eqb c k) with false
               by (rewrite ascii_eqb_code;
                   let v := eval vm_compute in (code k) in
                   change (code k) with v; lia)
         end.

Lemma beginValue_nonzero sc c :
  between 49 57 c = true -> beginValue sc c = goto Num1 sc c.
Proof.
  intros Hc. unfold beginValue. rewrite Hc.
  unfold between in Hc.
  replace (isSpace c) with false by (unfold isSpace; lia).
  not_this_byte c. reflexivity.
Qed.

Lemma step_Neg_nonzero t stk c :
  between 49 57 c = true ->
  step (mkScanner Neg t stk None) c = Some (mkScanner Num1 (String c t) stk None).
Proof.
  intros Hc. unfold step. cbn [st]. rewrite Hc. unfold between in Hc.
  not_this_byte c. reflexivity.
Qed.

Lemma step_Num1_digit t stk c :
  is_digit c = true ->
  step (mkScanner Num1 t stk None) c = Some (mkScanner Num1 (String c t) stk None).
Proof. intros Hc. unfold step. cbn [st]. now rewrite Hc. Qed.

Lemma step_Num1_closes t stk delim :
  closes delim = true ->
  step (mkScanner Num1 t stk None) delim =
  endNumber (mkScanner Num1 t stk None) delim.
Proof. intros [-> | ->]%closes_cases; reflexivity. Qed.

Lemma step_Num0_closes t stk delim :
  closes delim = true ->
  step (mkScanner Num0 t stk None) delim =
  endNumber (mkScanner Num0 t stk None) delim.
Proof. intros [-> | ->]%closes_cases; reflexivity. Qed.

Lemma scan_Num1 stk delim rest (ds : string) : forall t,
  all is_digit ds = true -> closes delim = true ->
  scan (mkScanner Num1 t stk None) (ds +:+ String delim rest) =
  match endNumber (mkScanner Num1 (String.rev_app ds t) stk None) delim with
  | Some sc' => scan sc' rest
  | None => None
  end.
Proof.
  induction ds as [|c ds IH]; intros t Hds Hdelim.
  - rewrite sapp_nil_l, scan_cons, step_Num1_closes by assumption. reflexivity.
  - cbn [all] in Hds. apply andb_true_iff in Hds as [Hc Hds].
    rewrite sapp_cons, scan_cons, step_Num1_digit by assumption.
    now rewrite IH.
Qed.

(** The leading digit of a positive number is not zero. *)
Lemma leading_digit k m :
  0 < m -> m < 10 ^ Z.of_nat (S k) ->
  (S k = 1%nat \/ 10 ^ Z.of_nat (S k - 1) <= m) ->
  between 49 57 (chr (48 + (m / 10 ^ Z.of_nat k) mod 10)) = true.
Proof.
  intros Hpos Hlt Hmin.
  assert (Hq : 1 <= m / 10 ^ Z.of_nat k < 10).
  { pose proof (pow10_pos k) as Hp. rewrite pow10_S in Hlt. split.
    - apply Z.div_le_lower_bound; [lia|].
      destruct Hmin as [Hk | Hmin].
      + assert (k = 0%nat) as -> by lia. change (10 ^ Z.of_nat 0) with 1. lia.
      + replace (S k - 1)%nat with k in Hmin by lia. lia.
    - apply Z.div_lt_upper_bound; lia. }
  unfold between. rewrite Z.mod_small by lia.
  rewrite code_chr by lia. lia.
Qed.

Lemma rev_rev_app_tok (ds t : string) :
  String.rev (String.rev_app ds t) = String.rev t +:+ ds.
Proof.
  unfold String.rev at 1. rewrite rev_app_rev_app.
  now rewrite ShellFacts.rev_app_rev, sapp_nil_r.
Qed.

Lemma prints_int d n : prints d (Strconv.Itoa n) (Number (Strconv.Itoa n)).
Proof.
  intros stk delim rest _ Hdelim. unfold Strconv.Itoa.
  assert (Hend : forall t lit,
             String.rev t = lit ->
             endNumber (mkScanner Num1 t stk None) delim =
             match complete (Number lit) stk with
             | Some sc => endValue sc delim
             | None => None
             end).
  { intros t lit <-. reflexivity. }
  destruct (Z.ltb_spec n 0) as [Hneg|Hpos].
  - destruct (utoa_dec (- n) ltac:(lia)) as (k & Hk & Hlt & Hmin & ->).
    destruct k as [|k]; [lia|].
    pose proof (leading_digit k (- n) ltac:(lia) Hlt Hmin) as Hlead.
    cbn [dec] in *.
    rewrite !sapp_cons, scan_cons.
    change (step (mkScanner BeginValue EmptyString stk None) "-")
      with (Some (mkScanner Neg (String "-" EmptyString) stk None)).
    cbv iota. rewrite scan_cons, step_Neg_nonzero by assumption.
    rewrite scan_Num1 by (apply dec_digits || assumption).
    rewrite (Hend _ (String "-" (String (chr (48 + (- n / 10 ^ Z.of_nat k) mod 10))
                                   (dec k (- n))))).
    + destruct (complete _ stk); reflexivity.
    + now rewrite rev_rev_app_tok.
  - destruct (utoa_dec n Hpos) as (k & Hk & Hlt & Hmin & ->).
    destruct k as [|k]; [lia|].
    destruct (Z.eq_dec n 0) as [->|Hnz].
    + assert (k = 0%nat) as ->.
      { destruct Hmin as [Hk1 | Hmin]; [lia|].
        pose proof (pow10_pos (S k - 1)). lia. }
      change (dec 1 0) with "0"%string.
      rewrite sapp_cons, sapp_nil_l, scan_cons.
      change (step (mkScanner BeginValue EmptyString stk None) "0")
        with (Some (mkScanner Num0 (String "0" EmptyString) stk None)).
      cbv iota. rewrite scan_cons, step_Num0_closes by assumption.
      unfold endNumber. cbn [tok stack]. change (String.rev "0") with "0"%string.
      destruct (complete _ stk); reflexivity.
    + pose proof (leading_digit k n ltac:(lia) Hlt Hmin) as Hlead.
      cbn [dec] in *.
      rewrite sapp_cons, scan_cons.
      change (step (mkScanner BeginValue EmptyString stk None) ?c)
        with (beginValue (mkScanner BeginValue EmptyString stk None) c).
      rewrite beginValue_nonzero by assumption. unfold goto. cbn [tok stack top].
      rewrite scan_Num1 by (apply dec_digits || assumption).
      rewrite (Hend _ (String (chr (48 + (n / 10 ^ Z.of_nat k) mod 10)) (dec k n))).
      * destruct (complete _ stk); reflexivity.
      * now rewrite rev_rev_app_tok.
Qed.

(** ** Objects *)

Lemma scan_key st0 ms stk k (rest : string) :
  st0 = BeginString \/ st0 = BeginStringOrEmpty ->
  safe k = true ->
  scan (mkScanner st0 EmptyString (FObjKey ms None :: stk) None)
    (String DQUOTE k +:+ String DQUOTE (String ":" rest)) =
  scan (mkScanner BeginValue EmptyString (FObjValue ms k :: stk) None) rest.
Proof.
  intros Hst Hk. rewrite sapp_cons, scan_cons.
  replace (step (mkScanner st0 EmptyString (FObjKey ms None :: stk) None) DQUOTE)
    with (Some (mkScanner InString EmptyString (FObjKey ms None :: stk) None))
    by (destruct Hst as [-> | ->]; reflexivity).
  cbv iota. rewrite <- (appendString_go_safe k Hk) at 1.
  rewrite scan_literal. rewrite (appendString_go_safe k Hk). reflexivity.
Qed.

Lemma scan_fields d stk rest (fs : list field) : forall st0 ms,
  st0 = BeginString \/ st0 = BeginStringOrEmpty ->
  fs <> [] -> Forall (well_printed (S d)) fs -> (length stk <= d)%nat ->
  scan (mkScanner st0 EmptyString (FObjKey ms None :: stk) None)
    (String.concat "," (map member_of fs) +:+ String "}" rest) =
  match complete (Object (rev ms ++ map entry_of fs)) stk with
  | Some sc => scan sc rest
  | None => None
  end.
Proof.
  induction fs as [|[[k text] v] fs IH]; intros st0 ms Hst Hne Hfs Hlen;
    [congruence|].
  apply Forall_cons in Hfs as [[Hk Hp] Hfs].
  assert (Hcomp : complete v (FObjValue ms k :: stk) =
                  Some (mkScanner EndValue EmptyString
                          (FObjNext ((k, v) :: ms) :: stk) None))
    by reflexivity.
  destruct fs as [|f fs].
  - cbn [map String.concat member_of].
    unfold member. rewrite !sapp_assoc. change (String DQUOTE (String ":" text) +:+ String "}" rest)
      with (String DQUOTE (String ":" (text +:+ String "}" rest))).
    rewrite scan_key by assumption.
    rewrite Hp by (cbn [length]; lia || reflexivity).
    rewrite Hcomp. cbn [endValue stack isSpace]. cbn [entry_of map rev].
    change (isSpace "}") with false. cbv iota.
    cbn [Ascii.eqb Bool.eqb]. reflexivity.
  - change (String.concat "," (map member_of ((k, text, v) :: f :: fs)))
      with (member k text +:+ "," +:+ String.concat "," (map member_of (f :: fs))).
    unfold member at 1. rewrite !sapp_assoc.
    change (String DQUOTE (String ":" text) +:+
            "," +:+ String.concat "," (map member_of (f :: fs)) +:+ String "}" rest)
      with (String DQUOTE (String ":" (text +:+ String ","
              (String.concat "," (map member_of (f :: fs)) +:+ String "}" rest)))).
    rewrite scan_key by assumption.
    rewrite Hp by (cbn [length]; lia || reflexivity).
    rewrite Hcomp.
    change (endValue (mkScanner EndValue EmptyString
                        (FObjNext ((k, v) :: ms) :: stk) None) ",")
      with (Some (mkScanner BeginString EmptyString
                    (FObjKey ((k, v) :: ms) None :: stk) None)).
    cbv iota. rewrite IH by (auto || discriminate).
    cbn [rev map entry_of]. now rewrite <- app_assoc.
Qed.

Lemma scan_object d stk rest (fs : list field) :
  (length stk <= d)%nat -> Z.of_nat d < 9999 ->
  Forall (well_printed (S d)) fs ->
  scan (mkScanner BeginValue EmptyString stk None)
    (object (map member_of fs) +:+ rest) =
  match complete (Object (map entry_of fs)) stk with
  | Some sc => scan sc rest
  | None => None
  end.
Proof.
  intros Hlen Hd Hfs. unfold object. rewrite !sapp_assoc.
  change ("}" +:+ rest) with (String "}" rest).
  change ("{" +:+ String.concat "," (map member_of fs) +:+ String "}" rest)
    with (String "{" (String.concat "," (map member_of fs) +:+ String "}" rest)).
  rewrite scan_cons.
  assert (Hpush : step (mkScanner BeginValue EmptyString stk None) "{" =
                  Some (mkScanner BeginStringOrEmpty EmptyString
                          (FObjKey [] None :: stk) None)).
  { unfold step. cbn [st]. unfold beginValue.
    change (isSpace "{") with false. cbv iota. cbn [Ascii.eqb Bool.eqb].
    unfold push. cbn [stack].
    assert (Hdepth : (maxNestingDepth <? Z.of_nat (S (length stk))) = false).
    { apply Z.ltb_ge. unfold maxNestingDepth.
      rewrite Nat2Z.inj_succ. apply Nat2Z.inj_le in Hlen. lia. }
    rewrite Hdepth. reflexivity. }
  rewrite Hpush. cbv iota.
  destruct fs as [|f fs].
  - reflexivity.
  - rewrite (scan_fields d) by (auto || discriminate). reflexivity.
Qed.

Lemma prints_object d (fs : list field) :
  Z.of_nat d < 9999 -> Forall (well_printed (S d)) fs ->
  prints d (object (map member_of fs)) (Object (map entry_of fs)).
Proof.
  intros Hd Hfs stk delim rest Hlen _.
  rewrite (scan_object d) by assumption.
  destruct (complete _ stk) as [sc|] eqn:Hc; [|reflexivity].
  rewrite scan_cons. now rewrite (complete_ends _ _ _ delim Hc).
Qed.

(** A whole text that is one encoded object. *)
Lemma parse_object (fs : list field) :
  Forall (well_printed 1) fs ->
  parse (object (map member_of fs)) = Some (Object (map entry_of fs)).
Proof.
  intros Hfs. unfold parse, start.
  rewrite <- (sapp_nil_r (object _)).
  rewrite (scan_object 0) by (assumption || (cbn [length]; lia)).
  reflexivity.
Qed.

End ScanFacts.

Module RoundTripFacts.
Import Json JsonFacts Handler Spec Decimal DecimalFacts StartupFacts Wire.
Import ScanFacts TimeFacts Instant WorldFacts.

(** ** The text of a timestamp is written as it is *)

Lemma safe_app (a b : string) : safe (a +:+ b) = safe a && safe b.
Proof. apply all_app. Qed.

Lemma digits_safe (s : string) : all is_digit s = true -> safe s = true.
Proof.
  apply EscapeFacts.all_impl. intros c Hc. apply numeric_htmlSafe.
  unfold ConfigValidate.numeric. now rewrite Hc.
Qed.

Lemma zeros_digits k : all is_digit (zeros k) = true.
Proof.
  induction k as [|k IH]; [reflexivity|]. rewrite zeros_S. exact IH.
Qed.

Lemma appendInt_safe x w : safe (Time.appendInt x w) = true.
Proof.
  unfold Time.appendInt. rewrite !safe_app.
  fold (zeros (w - String.length (Strconv.utoa (Z.abs x)))).
  rewrite (digits_safe (zeros _)) by apply zeros_digits.
  rewrite (digits_safe (Strconv.utoa _)) by (apply utoa_digits; lia).
  now destruct (x <? 0).
Qed.

Lemma strip_all p (s : string) :
  all p s = true -> all p (Time.strip_zeros_rev s) = true.
Proof.
  induction s as [|c s IH]; [reflexivity|]. rewrite strip_cons.
  destruct (Ascii.eqb c "0"); [|auto]. cbn [all].
  intros [_ H]%andb_true_iff. auto.
Qed.

Lemma appendNano_safe ns : safe (Time.appendNano ns) = true.
Proof.
  unfold Time.appendNano.
  assert (H : safe (Time.strip_zeros_rev (String.rev (Time.appendInt ns 9))) = true).
  { apply strip_all. unfold safe. rewrite ShellFacts.all_rev. apply appendInt_safe. }
  destruct (Time.strip_zeros_rev _) as [|c r]; [reflexivity|].
  change (safe (String "." (String.rev (String c r))))
    with (safe (String.rev (String c r))).
  unfold safe in *. now rewrite ShellFacts.all_rev.
Qed.

Lemma formatRFC3339Nano_safe t : safe (Time.formatRFC3339Nano t) = true.
Proof.
  rewrite format_zone. rewrite !safe_app, !appendInt_safe, appendNano_safe.
  unfold zone_text. destruct (Time.offset t =? 0); [reflexivity|].
  rewrite !safe_app, !appendInt_safe. now destruct (_ <? 0).
Qed.

(** ** [ToJSON] writes the members of the message *)

Lemma marshal_Metadata_fields md :
  marshal_Metadata md = object (map member_of (metadata_fields_of md)).
Proof.
  destruct md as [[] [n|] [|? ?] [|? ?] [|? ?] [|? ?]]; reflexivity.
Qed.

Lemma ToJSON_fields m :
  Time.marshalable (Timestamp m) = true ->
  ToJSON m = inl (object (map member_of (message_fields_of m))).
Proof.
  intros Hm. unfold ToJSON, marshal_Time. rewrite Hm.
  assert (Hts : String DQUOTE (Time.formatRFC3339Nano (Timestamp m) +:+ str1 DQUOTE)
                = appendString (Time.formatRFC3339Nano (Timestamp m))).
  { unfold appendString.
    now rewrite (appendString_go_safe _ (formatRFC3339Nano_safe (Timestamp m))). }
  rewrite Hts. unfold message_fields_of, string_field.
  destruct (Metadata m); reflexivity.
Qed.

(** ** The members read as their trees *)

Lemma well_printed_string d name s :
  safe name = true -> well_printed d (string_field name s).
Proof. intros H. split; [assumption | apply prints_string]. Qed.

Lemma well_printed_metadata d md :
  Forall (well_printed d) (metadata_fields_of md).
Proof.
  unfold metadata_fields_of, optional.
  repeat apply Forall_app_2;
    repeat case_match; repeat constructor;
    first [ reflexivity | apply prints_true | apply prints_int
          | apply prints_string ].
Qed.

Lemma well_printed_message m :
  Forall (well_printed 1) (message_fields_of m).
Proof.
  unfold message_fields_of. apply Forall_app_2.
  - repeat constructor; apply prints_string.
  - destruct (Metadata m) as [md|]; [|constructor].
    repeat constructor. rewrite marshal_Metadata_fields.
    apply prints_object; [lia | apply well_printed_metadata].
Qed.

Lemma parse_frame m :
  Time.marshalable (Timestamp m) = true ->
  parse (frame_of m) = Some (Object (map entry_of (message_fields_of m))).
Proof.
  intros Hm. unfold frame_of. rewrite ToJSON_fields by assumption.
  apply parse_object, well_printed_message.
Qed.

(** ** Decoding the trees *)

Lemma into_Message_type v ms msg saved :
  object_into_Message (("type"%string, v) :: ms) msg saved =
  let '(x, e) := store_string "type" v (Type_ msg) in
  object_into_Message ms
    (mkMessage x (Data msg) (Timestamp msg) (Metadata msg)) (saveError saved e).
Proof. reflexivity. Qed.

Lemma into_Message_data v ms msg saved :
  object_into_Message (("data"%string, v) :: ms) msg saved =
  let '(x, e) := store_string "data" v (Data msg) in
  object_into_Message ms
    (mkMessage (Type_ msg) x (Timestamp msg) (Metadata msg)) (saveError saved e).
Proof. reflexivity. Qed.

Lemma into_Message_timestamp v ms msg saved :
  object_into_Message (("timestamp"%string, v) :: ms) msg saved =
  match unmarshal_Time v (Timestamp msg) with
  | inl t =>
      object_into_Message ms
        (mkMessage (Type_ msg) (Data msg) t (Metadata msg)) saved
  | inr e => (msg, saved, Some e)
  end.
Proof. reflexivity. Qed.

Lemma into_Message_metadata v ms msg saved :
  object_into_Message (("metadata"%string, v) :: ms) msg saved =
  let '(x, saved') := store_metadata v (Metadata msg) saved in
  object_into_Message ms
    (mkMessage (Type_ msg) (Data msg) (Timestamp msg) x) saved'.
Proof. reflexivity. Qed.

Lemma into_Metadata_step name v ms md saved :
  In name metadata_fields ->
  object_into_Metadata ((name, v) :: ms) md saved =
  let '(md', e) := store_metadata_field name v md in
  object_into_Metadata ms md' (saveError saved e).
Proof.
  unfold metadata_fields. cbn [In].
  intros [<-|[<-|[<-|[<-|[<-|[<-|[]]]]]]]; reflexivity.
Qed.

Lemma into_Metadata_fields md :
  match ExitCode md with Some n => is_int n = true | None => True end ->
  object_into_Metadata (map entry_of (metadata_fields_of md)) zeroMetadata None =
  (reread_metadata md, None).
Proof.
  intros Hint.
  destruct md as [ha ec cmd host user sid]. cbn [ExitCode] in Hint.
  unfold metadata_fields_of, optional, string_field, reread_metadata.
  cbn [HasAnsi ExitCode Command SSHHost SSHUser SessionID].
  destruct ha, ec as [n|], cmd as [|c1 cmd], host as [|c2 host],
    user as [|c3 user], sid as [|c4 sid];
    cbn [nonempty List.app map entry_of];
    repeat (rewrite into_Metadata_step by (cbn; tauto);
            unfold store_metadata_field;
            cbn [String.eqb Ascii.eqb Bool.eqb store_bool store_string
                 store_intptr HasAnsi ExitCode Command SSHHost SSHUser
                 SessionID zeroMetadata saveError];
            rewrite ?Atoi_Itoa by assumption);
    reflexivity.
Qed.

Lemma into_Message_fields m :
  sendable m = true ->
  object_into_Message (map entry_of (message_fields_of m)) zeroMessage None =
  (reread m, None, None).
Proof.
  unfold sendable. intros Hs.
  apply andb_true_iff in Hs as [Hs Hint]. apply andb_true_iff in Hs as [Hwf Hm].
  unfold message_fields_of, string_field. cbn [List.app map entry_of].
  rewrite into_Message_type. cbn [store_string saveError].
  rewrite into_Message_data. cbn [store_string saveError].
  rewrite into_Message_timestamp. cbn [unmarshal_Time].
  rewrite (appendString_go_safe _ (formatRFC3339Nano_safe (Timestamp m))).
  rewrite parseStrictRFC3339_format by assumption.
  unfold reread. destruct (Metadata m) as [md|]; [|reflexivity].
  cbn [map entry_of]. rewrite into_Message_metadata.
  cbn [store_metadata Metadata zeroMessage default].
  rewrite into_Metadata_fields by (destruct (ExitCode md); auto).
  reflexivity.
Qed.

(** What [ParseMessage] makes of a frame [ToJSON] wrote. *)
Lemma ParseMessage_frame m :
  sendable m = true -> ParseMessage (frame_of m) = (reread m, None).
Proof.
  intros Hs. unfold ParseMessage, Unmarshal.
  rewrite parse_frame
    by (unfold sendable in Hs; apply andb_true_iff in Hs as [Hs _];
        now apply andb_true_iff in Hs as [_ Hs]).
  now rewrite into_Message_fields.
Qed.

Lemma reread_ascii m : ascii_message m = true -> reread m = m.
Proof.
  unfold ascii_message, reread. destruct m as [t d ts md].
  cbn [Type_ Data Timestamp Metadata].
  intros Hs.
  apply andb_true_iff in Hs as [Hs Hmd]. apply andb_true_iff in Hs as [Ht Hd].
  rewrite !DecodeFacts.json_text_ascii by assumption.
  destruct md as [[ha ec cmd host user sid]|]; [|reflexivity].
  cbn [Command SSHHost SSHUser SessionID] in Hmd.
  apply andb_true_iff in Hmd as [Hmd H4]. apply andb_true_iff in Hmd as [Hmd H3].
  apply andb_true_iff in Hmd as [H1 H2].
  unfold option_map, reread_metadata.
  cbn [HasAnsi ExitCode Command SSHHost SSHUser SessionID].
  now rewrite !DecodeFacts.json_text_ascii by assumption.
Qed.

End RoundTripFacts.

(** * Further properties: the frames of the frontend *)

Module OutgoingFacts.
Import Json JsonFacts Handler Spec Decimal DecimalFacts StartupFacts Wire.
Import ScanFacts TimeFacts Instant WorldFacts Outgoing.

Lemma scan_quote_unit sc c :
  st sc = InString -> code c < 0x80 ->
  scan sc (quote_unit c) = Some (reading (quote_unit c) sc).
Proof.
  destruct sc as [s t stk tp]. simpl. intros -> Hc.
  destruct c as [[] [] [] [] [] [] [] []];
    try (exfalso; vm_compute in Hc; discriminate Hc);
    vm_compute; reflexivity.
Qed.

Lemma scan_quote_go s : forall sc,
  st sc = InString -> all ascii7 s = true ->
  scan sc (quote_go s) = Some (reading (quote_go s) sc).
Proof.
  induction s as [|c s IH]; intros sc Hst Hs.
  - destruct sc; simpl in *; now subst.
  - cbn [all] in Hs. apply andb_true_iff in Hs as [Hc Hs].
    unfold ascii7 in Hc. cbn [quote_go].
    rewrite scan_app, scan_quote_unit by (assumption || lia).
    cbv beta iota. rewrite IH by (assumption || reflexivity).
    now rewrite reading_app.
Qed.

Lemma prints_stringify d s :
  all ascii7 s = true -> prints d (stringify_string s) (Str (quote_go s)).
Proof.
  intros Hs stk delim rest _ _. unfold stringify_string.
  rewrite sapp_cons, scan_cons.
  change (step (mkScanner BeginValue EmptyString stk None) DQUOTE)
    with (Some (mkScanner InString EmptyString stk None)).
  cbv iota. rewrite sapp_assoc, scan_app.
  rewrite scan_quote_go by (assumption || reflexivity).
  cbv beta iota. change (str1 DQUOTE +:+ String delim rest)
    with (String DQUOTE (String delim rest)).
  rewrite scan_cons. unfold reading. cbn [step st tok stack].
  rewrite Ascii.eqb_refl.
  fold (String.rev (String.rev_app (quote_go s) EmptyString)).
  rewrite rev_rev_app.
  destruct (complete (Str (quote_go s)) stk) as [sc|] eqn:Hc; [|reflexivity].
  rewrite scan_cons. now rewrite (complete_ends _ _ _ delim Hc).
Qed.

Lemma unquote_quote_unit c (t : string) :
  code c < 0x80 ->
  unquote_go 0 (quote_unit c +:+ t) = String c (unquote_go 0 t).
Proof.
  intros Hc.
  destruct c as [[] [] [] [] [] [] [] []];
    try (exfalso; vm_compute in Hc; discriminate Hc);
    match goal with
    | |- context [quote_unit ?c] =>
        let e := eval vm_compute in (quote_unit c) in
        change (quote_unit c) with e
    end;
    rewrite ?sapp_cons, ?sapp_nil_l;
    first [ rewrite unquote_go_plain by (try discriminate; vm_compute; reflexivity);
            reflexivity
          | rewrite unquote_go_escape by discriminate; reflexivity
          | rewrite unquote_go_u4 by reflexivity; reflexivity ].
Qed.

Lemma unquote_quote_go s : all ascii7 s = true -> unquote (quote_go s) = s.
Proof.
  unfold unquote. induction s as [|c s IH]; intros Hs; [reflexivity|].
  cbn [all] in Hs. apply andb_true_iff in Hs as [Hc Hs].
  unfold ascii7 in Hc. cbn [quote_go].
  rewrite unquote_quote_unit by lia. now rewrite IH.
Qed.

Lemma quote_go_unescaped s : all unescaped s = true -> quote_go s = s.
Proof.
  induction s as [|c s IH]; [reflexivity|]. cbn [all].
  intros [Hc Hs]%andb_true_iff. cbn [quote_go]. rewrite (IH Hs).
  unfold unescaped in Hc. unfold quote_unit.
  repeat match goal with
         | |- context [code c =? ?k] =>
             replace (code c =? k) with false by lia
         end.
  now replace (code c <? 32) with false by lia.
Qed.

(** ** The timestamp *)

Lemma digits_unescaped (s : string) : all is_digit s = true -> all unescaped s = true.
Proof.
  apply EscapeFacts.all_impl. intros c. unfold is_digit, between, unescaped. lia.
Qed.

Lemma unescaped_ascii7 (s : string) : all unescaped s = true -> all ascii7 s = true.
Proof.
  apply EscapeFacts.all_impl. intros c. unfold unescaped, ascii7. lia.
Qed.

Lemma toISOString_valid d :
  valid_date d = true ->
  toISOString d =
  dec 4 (fullYear d) +:+ "-" +:+ dec 2 (month d) +:+ "-" +:+ dec 2 (date d) +:+
  "T" +:+ dec 2 (hours d) +:+ ":" +:+ dec 2 (minutes d) +:+ ":" +:+
  dec 2 (seconds d) +:+ "." +:+ dec 3 (milliseconds d) +:+ "Z".
Proof.
  unfold valid_date, toISOString. intros H.
  now replace ((0 <=? fullYear d) && (fullYear d <=? 9999)) with true by lia.
Qed.

Lemma toISOString_unescaped d :
  valid_date d = true -> all unescaped (toISOString d) = true.
Proof.
  intros H. rewrite toISOString_valid by assumption.
  rewrite !all_app, !(digits_unescaped (dec _ _)) by apply dec_digits.
  reflexivity.
Qed.

Lemma dec3_chars n :
  exists a b c, dec 3 n = String a (String b (String c EmptyString)).
Proof. eexists _, _, _. reflexivity. Qed.

Lemma parse_toISOString d :
  valid_date d = true ->
  Time.parseRFC3339 (toISOString d) = Some (instant_of d).
Proof.
  intros Hv. rewrite toISOString_valid by assumption.
  unfold valid_date in Hv.
  pose proof (daysIn_le (month d) (fullYear d)) as Hdi.
  pose proof (parseUint_dec 4 (fullYear d) 0 9999
                ltac:(change (10 ^ Z.of_nat 4) with 10000; lia) ltac:(lia)) as Py.
  pose proof (parseUint_dec 2 (month d) 1 12
                ltac:(change (10 ^ Z.of_nat 2) with 100; lia) ltac:(lia)) as Pmo.
  pose proof (parseUint_dec 2 (date d) 1 (Time.daysIn (month d) (fullYear d))
                ltac:(change (10 ^ Z.of_nat 2) with 100; lia) ltac:(lia)) as Pd.
  pose proof (parseUint_dec 2 (hours d) 0 23
                ltac:(change (10 ^ Z.of_nat 2) with 100; lia) ltac:(lia)) as Ph.
  pose proof (parseUint_dec 2 (minutes d) 0 59
                ltac:(change (10 ^ Z.of_nat 2) with 100; lia) ltac:(lia)) as Pmi.
  pose proof (parseUint_dec 2 (seconds d) 0 59
                ltac:(change (10 ^ Z.of_nat 2) with 100; lia) ltac:(lia)) as Ps.
  pose proof (dec_digits 3 (milliseconds d)) as Hms.
  pose proof (dec_value 3 (milliseconds d) 0 "000000") as Hval.
  destruct (dec4_chars (fullYear d)) as (y1 & y2 & y3 & y4 & Ey).
  destruct (dec2_chars (month d)) as (m1 & m2 & Emo).
  destruct (dec2_chars (date d)) as (d1 & d2 & Ed).
  destruct (dec2_chars (hours d)) as (h1 & h2 & Eh).
  destruct (dec2_chars (minutes d)) as (i1 & i2 & Emi).
  destruct (dec2_chars (seconds d)) as (s1 & s2 & Es).
  destruct (dec3_chars (milliseconds d)) as (f1 & f2 & f3 & Ems).
  rewrite Ey, Emo, Ed, Eh, Emi, Es, Ems in *.
  repeat (rewrite ?sapp_cons, ?sapp_nil_l).
  rewrite parseRFC3339_shape, Py, Pmo, Pd, Ph, Pmi, Ps.
  rewrite fraction_split. cbn [Ascii.eqb Bool.eqb].
  cbn [all] in Hms. apply andb_true_iff in Hms as [Hf1 Hms].
  apply andb_true_iff in Hms as [Hf2 Hms].
  apply andb_true_iff in Hms as [Hf3 _].
  rewrite Hf1. cbn [Time.span_digits]. rewrite Hf1, Hf2, Hf3.
  change (is_digit "Z") with false. cbv iota beta.
  unfold Time.parseNanoseconds.
  repeat (rewrite ?sapp_cons, ?sapp_nil_l).
  cbn [String.substring].
  repeat (rewrite ?sapp_cons, ?sapp_nil_l in Hval).
  rewrite Hval.
  change (Time.parseZone "Z") with (Some 0).
  cbn [Strconv.digits_value]. change (is_digit "0") with true. cbv iota.
  cbn [default]. unfold instant_of. f_equal. f_equal.
  change (code "0" - 48) with 0. change (10 ^ Z.of_nat 3) with 1000.
  unfold id. rewrite Z.mod_small by lia. lia.
Qed.

(** ** The envelope *)

Lemma parse_envelope type data now :
  all ascii7 type = true -> all ascii7 data = true -> valid_date now = true ->
  parse (envelope type data now) =
  Some (Object [("type"%string, Str (quote_go type));
                ("data"%string, Str (quote_go data));
                ("timestamp"%string, Str (toISOString now))]).
Proof.
  intros Ht Hd Hv.
  pose proof (toISOString_unescaped now Hv) as Hu.
  change (envelope type data now)
    with (object (map member_of
            [("type"%string, stringify_string type, Str (quote_go type));
             ("data"%string, stringify_string data, Str (quote_go data));
             ("timestamp"%string, stringify_string (toISOString now),
              Str (quote_go (toISOString now)))])).
  rewrite parse_object.
  - cbn [map entry_of]. now rewrite (quote_go_unescaped _ Hu).
  - repeat constructor; apply prints_stringify;
      (assumption || now apply unescaped_ascii7).
Qed.

(** What the backend makes of a frame of the frontend. *)
Lemma ParseMessage_envelope type data now :
  all ascii7 type = true -> all ascii7 data = true -> valid_date now = true ->
  ParseMessage (envelope type data now) =
  (mkMessage type data (instant_of now) None, None).
Proof.
  intros Ht Hd Hv. unfold ParseMessage, Unmarshal.
  rewrite parse_envelope by assumption.
  rewrite RoundTripFacts.into_Message_type. cbn [store_string saveError].
  rewrite RoundTripFacts.into_Message_data. cbn [store_string saveError].
  rewrite RoundTripFacts.into_Message_timestamp. cbn [unmarshal_Time].
  rewrite (TimeFacts.parseStrictRFC3339_strict _ _ (parse_toISOString now Hv)).
  cbn [object_into_Message Type_ Data Timestamp Metadata zeroMessage saveError].
  now rewrite !unquote_quote_go by assumption.
Qed.

End OutgoingFacts.

Module CodecProps.
Import Json JsonFacts Handler Spec Decimal DecimalFacts StartupFacts Wire.
Import ScanFacts TimeFacts Instant WorldFacts Outgoing OutgoingFacts.
Import RoundTripFacts ShellRuns ShellFacts LoopFacts Examples WireExamples.

(** X17.  [ParseMessage] reads back every frame [ToJSON] writes: for a
    message with a well-formed timestamp (and an exit code in the range
    of [int]) [ToJSON] succeeds and [ParseMessage] returns, without
    error, the same type, payload, timestamp and metadata as JSON
    carries them; a message whose text is ASCII comes back identical. *)
Theorem frames_read_back (m : Message) :
  sendable m = true ->
  ToJSON m = inl (frame_of m) /\
  ParseMessage (frame_of m) = (reread m, None) /\
  (ascii_message m = true -> ParseMessage (frame_of m) = (m, None)).
Proof.
  intros Hs. split; [|split].
  - apply ToJSON_frame_of. unfold sendable in Hs.
    apply andb_true_iff in Hs as [Hs _]. now apply andb_true_iff in Hs as [_ Hs].
  - now apply ParseMessage_frame.
  - intros Ha. rewrite ParseMessage_frame by assumption.
    now rewrite reread_ascii.
Qed.

Lemma frames_read_back_witness :
  sendable listing = true /\ ascii_message listing = true /\
  frame_of listing =
    js "{'type':'terminal_output','data':'a.txt\r\n','timestamp':'2025-08-12T11:00:00.12-03:00','metadata':{'exit_code':0,'command':'ls'}}" /\
  ParseMessage (frame_of listing) = (listing, None).
Proof.
  assert (Hs : sendable listing = true) by reflexivity.
  assert (Ha : ascii_message listing = true) by reflexivity.
  split; [exact Hs|]. split; [exact Ha|]. split; [reflexivity|].
  exact (proj2 (proj2 (frames_read_back listing Hs)) Ha).
Defined.

(** ** Members are optional *)

Lemma into_Message_unknown ms : forall msg saved,
  Forall (fun kv => find_field message_fields (unquote (fst kv)) = None) ms ->
  object_into_Message ms msg saved = (msg, saved, None).
Proof.
  induction ms as [|[k v] ms IH]; intros msg saved Hms; [reflexivity|].
  apply Forall_cons in Hms as [Hk Hms]. cbn [fst] in Hk.
  cbn [object_into_Message]. rewrite Hk. now apply IH.
Qed.

(** X18.  [ParseMessage] asks for no member: an object that holds none
    of [type], [data], [timestamp] and [metadata] decodes without error
    to the zero message, and both handlers then treat the frame as one
    of the unhandled type with the empty name. *)
Theorem members_are_optional
    (p : string) (ms : list (string * value))
    (conn : ShellConnection) (sim : ShellSession) (w : World) :
  parse p = Some (Object ms) ->
  Forall (fun kv => find_field message_fields (unquote (fst kv)) = None) ms ->
  ParseMessage p = (zeroMessage, None) /\
  Connection.serve_frame conn p w =
    (conn, advance 0 [EvLog (LogUnhandled EmptyString)] w) /\
  HandlerDeps.serve_frame sim p w =
    (sim, advance 0 [EvLog (LogUnhandled EmptyString)] w).
Proof.
  intros Hp Hms.
  assert (Hz : ParseMessage p = (zeroMessage, None)).
  { unfold ParseMessage, Unmarshal. rewrite Hp.
    now rewrite into_Message_unknown. }
  split; [exact Hz|]. split.
  - now rewrite (Connection_serve_frame_unhandled conn p w zeroMessage Hz).
  - now rewrite (HandlerDeps_serve_frame_unhandled sim p w zeroMessage Hz).
Qed.

Lemma members_are_optional_witness :
  parse stray_frame =
    Some (Object [("cmd"%string, Str "ls"); ("seq"%string, Number "7")]) /\
  ParseMessage stray_frame = (zeroMessage, None) /\
  HandlerDeps.serve_frame fresh stray_frame w0 =
    (fresh, advance 0 [EvLog (LogUnhandled EmptyString)] w0).
Proof.
  assert (Hp : parse stray_frame =
               Some (Object [("cmd"%string, Str "ls"); ("seq"%string, Number "7")]))
    by reflexivity.
  assert (Hms : Forall (fun kv => find_field message_fields (unquote (fst kv)) = None)
                  [("cmd"%string, Str "ls"); ("seq"%string, Number "7")])
    by (repeat constructor).
  destruct (members_are_optional stray_frame _ idle fresh w0 Hp Hms)
    as (Hz & _ & Hsim).
  split; [exact Hp|]. split; [exact Hz | exact Hsim].
Defined.

(** X19.  A keystroke arrives as it was typed: for ASCII input,
    [ParseMessage] decodes the frame [sendToBackend] builds to a
    [terminal_input] message with exactly that input as payload, and
    the handler of the simulated shell passes it to [HandleInput]. *)
Theorem keystrokes_reach_the_shell
    (data : string) (now : Date) (shell : ShellSession) (w : World) :
  all ascii7 data = true -> valid_date now = true ->
  ParseMessage (sendToBackend data now) =
    (mkMessage MessageTypeTerminalInput data (instant_of now) None, None) /\
  HandlerDeps.serve_frame shell (sendToBackend data now) w =
    HandleInput shell data w.
Proof.
  intros Hd Hv.
  assert (Hp : ParseMessage (sendToBackend data now) =
               (mkMessage MessageTypeTerminalInput data (instant_of now) None, None))
    by (apply ParseMessage_envelope; (reflexivity || assumption)).
  split; [exact Hp|].
  now rewrite (HandlerDeps_serve_frame_input shell _ w _ Hp).
Qed.

Lemma keystrokes_reach_the_shell_witness :
  all ascii7 (str1 DQUOTE) = true /\ valid_date noon = true /\
  sendToBackend (str1 DQUOTE) noon =
    js "{'type':'terminal_input','data':'\'','timestamp':'2025-08-12T12:00:00.007Z'}" /\
  currentInput (fst (HandlerDeps.serve_frame fresh (sendToBackend (str1 DQUOTE) noon) w0)) =
    str1 DQUOTE.
Proof.
  split; [reflexivity|]. split; [reflexivity|]. split; [reflexivity|].
  rewrite (proj2 (keystrokes_reach_the_shell (str1 DQUOTE) noon fresh w0
                    eq_refl eq_refl)).
  reflexivity.
Defined.

(** X20.  The request the frontend sends once the terminal is ready
    ([requestInitialPrompt]) is answered with the prompt: the handler of
    the simulated shell writes one terminal-output frame that carries
    the prompt and leaves the session as it is. *)
Theorem prompt_request_is_answered
    (now : Date) (shell : ShellSession) (w : World) :
  valid_date now = true ->
  HandlerDeps.serve_frame shell (requestInitialPrompt now) w =
  (shell, advance 1 (sent (prompt shell) EmptyString (clock w (ticks w))) w).
Proof.
  intros Hv.
  assert (Hp : ParseMessage (requestInitialPrompt now) =
               (mkMessage MessageTypeRequestPrompt "init" (instant_of now) None, None))
    by (apply ParseMessage_envelope; (reflexivity || assumption)).
  unfold HandlerDeps.serve_frame. rewrite Hp. cbn [Type_].
  change (String.eqb MessageTypeRequestPrompt MessageTypeTerminalInput) with false.
  change (String.eqb MessageTypeRequestPrompt MessageTypeRequestPrompt) with true.
  cbv iota. unfold handleRequestPrompt, bind. now rewrite showPrompt_eq.
Qed.

Lemma prompt_request_is_answered_witness :
  valid_date noon = true /\
  writes (trace (snd (HandlerDeps.serve_frame fresh (requestInitialPrompt noon) w0))) =
  [js "{'type':'terminal_output','data':'user@webssh:~$ ','timestamp':'2025-08-12T14:00:00Z','metadata':{}}"].
Proof.
  split; [reflexivity|].
  rewrite (prompt_request_is_answered noon fresh w0 eq_refl). reflexivity.
Defined.

(** ** Resize frames *)

Lemma Itoa_ascii n : all ascii7 (Strconv.Itoa n) = true.
Proof.
  unfold Strconv.Itoa.
  assert (H : forall m, 0 <= m -> all ascii7 (Strconv.utoa m) = true).
  { intros m Hm. eapply EscapeFacts.all_impl; [|apply utoa_digits, Hm].
    intros c. unfold is_digit, between, ascii7. lia. }
  destruct (Z.ltb_spec n 0); [cbn [all]|]; rewrite H by lia; reflexivity.
Qed.

Lemma geometry_ascii cols rows : all ascii7 (geometry cols rows) = true.
Proof.
  unfold geometry, object, member. cbn [String.concat].
  repeat (rewrite ?sapp_cons, ?sapp_nil_l, ?sapp_assoc).
  repeat (cbn [all]; rewrite ?all_app, ?Itoa_ascii). reflexivity.
Qed.

Lemma parse_geometry cols rows :
  parse (geometry cols rows) =
  Some (Object [("cols"%string, Number (Strconv.Itoa cols));
                ("rows"%string, Number (Strconv.Itoa rows))]).
Proof.
  change (geometry cols rows)
    with (object (map member_of
            [("cols"%string, Strconv.Itoa cols, Number (Strconv.Itoa cols));
             ("rows"%string, Strconv.Itoa rows, Number (Strconv.Itoa rows))])).
  rewrite parse_object; [reflexivity|].
  repeat constructor; apply prints_int.
Qed.

Lemma safe_integer_is_int n : safe_integer n = true -> is_int n = true.
Proof.
  unfold safe_integer, is_int, Strconv.minInt, Strconv.maxInt, Strconv.intSize.
  lia.
Qed.

(** X21.  A resize frame of the frontend ([notifyTerminalResize]) for
    columns and rows that are integers up to 2^53 either way (those a
    [Number] holds exactly) decodes to a message of type
    [terminal_resize] whose payload holds the columns and rows it was
    sent with, and both handlers drop it: they log an unhandled type and
    change nothing. *)
Theorem resize_frames_are_read_and_dropped
    (cols rows : Z) (now : Date)
    (conn : ShellConnection) (sim : ShellSession) (w : World) :
  safe_integer cols = true -> safe_integer rows = true ->
  valid_date now = true ->
  let p := notifyTerminalResize cols rows now in
  let msg := mkMessage "terminal_resize" (geometry cols rows) (instant_of now) None in
  ParseMessage p = (msg, None) /\
  resize_request msg = Some (cols, rows) /\
  Connection.serve_frame conn p w =
    (conn, advance 0 [EvLog (LogUnhandled "terminal_resize")] w) /\
  HandlerDeps.serve_frame sim p w =
    (sim, advance 0 [EvLog (LogUnhandled "terminal_resize")] w).
Proof.
  intros Hc%safe_integer_is_int Hr%safe_integer_is_int Hv p msg.
  assert (Hp : ParseMessage p = (msg, None)).
  { apply ParseMessage_envelope;
      [reflexivity | apply geometry_ascii | assumption]. }
  split; [exact Hp|]. split.
  - unfold resize_request, msg. cbn [Data]. rewrite parse_geometry.
    unfold json_int. cbn [find].
    change (String.eqb (unquote "cols") "cols") with true.
    change (String.eqb (unquote "cols") "rows") with false.
    change (String.eqb (unquote "rows") "rows") with true.
    cbv iota. now rewrite !Atoi_Itoa by assumption.
  - split.
    + now rewrite (Connection_serve_frame_unhandled conn p w msg Hp)
        by discriminate.
    + now rewrite (HandlerDeps_serve_frame_unhandled sim p w msg Hp)
        by discriminate.
Qed.

Lemma resize_frames_are_read_and_dropped_witness :
  safe_integer 132 = true /\ safe_integer 50 = true /\
  valid_date noon = true /\
  notifyTerminalResize 132 50 noon =
    js "{'type':'terminal_resize','data':'{\'cols\':132,\'rows\':50}','timestamp':'2025-08-12T12:00:00.007Z'}" /\
  Connection.serve_frame (mkShellConnection Active 80 24)
    (notifyTerminalResize 132 50 noon) w0 =
    (mkShellConnection Active 80 24,
     advance 0 [EvLog (LogUnhandled "terminal_resize")] w0).
Proof.
  split; [reflexivity|]. split; [reflexivity|]. split; [reflexivity|].
  split; [vm_compute; reflexivity|].
  destruct (resize_frames_are_read_and_dropped 132 50 noon
              (mkShellConnection Active 80 24) fresh w0 eq_refl eq_refl eq_refl)
    as (_ & _ & Hconn & _).
  exact Hconn.
Defined.

End CodecProps.

(** * Further properties: the handlers *)

Module HandlerProps.
Import Handler Spec ShellRuns Examples WireExamples.
Import WorldFacts HandlerFacts LoopFacts ShellFacts.

(** ** Writes that fail *)

Lemma alike_refl w : alike w w.
Proof. repeat split. Qed.

Lemma oblivious_ret {A} (a : A) : oblivious (ret a).
Proof. intros w1 w2 H. auto. Qed.

Lemma oblivious_bind {A B} (c : M A) (k : A -> M B) :
  oblivious c -> (forall a, oblivious (k a)) -> oblivious (bind c k).
Proof.
  intros Hc Hk w1 w2 H. unfold bind.
  destruct (Hc w1 w2 H) as [Ha Hw].
  destruct (c w1) as [a1 w1'], (c w2) as [a2 w2']. cbn [fst snd] in *.
  subst a2. now apply Hk.
Qed.

Lemma oblivious_emit e : oblivious (emit e).
Proof.
  intros w1 w2 (H1 & H2 & H3 & H4). unfold emit, alike. cbn.
  now rewrite H1, H2, H3, H4.
Qed.

Lemma oblivious_time_Now : oblivious time_Now.
Proof.
  intros w1 w2 (H1 & H2 & H3 & H4). unfold time_Now, alike. cbn.
  now rewrite H1, H2, H3, H4.
Qed.

Lemma oblivious_send m : oblivious (send m).
Proof.
  intros w1 w2 H. rewrite !send_eq. cbn [fst snd]. split; [reflexivity|].
  destruct H as (H1 & H2 & H3 & H4). unfold alike, advance. cbn.
  now rewrite H1, H2, H3, H4.
Qed.

Lemma oblivious_NewMessage t d : oblivious (NewMessage t d).
Proof.
  unfold NewMessage. apply oblivious_bind; [apply oblivious_time_Now|].
  intros now. apply oblivious_ret.
Qed.

Lemma oblivious_output o c e : oblivious (bind (NewTerminalOutput o c e) send).
Proof.
  apply oblivious_bind; [|apply oblivious_send].
  unfold NewTerminalOutput. apply oblivious_bind; [apply oblivious_NewMessage|].
  intros msg. apply oblivious_ret.
Qed.

Lemma oblivious_executeCommand cmd : oblivious (executeCommand cmd).
Proof.
  unfold executeCommand.
  repeat case_match; auto using oblivious_ret, oblivious_output.
Qed.

Lemma oblivious_processCommand s : oblivious (processCommand s).
Proof.
  unfold processCommand.
  change (oblivious (bind (bind (NewTerminalOutput CRLF EmptyString None) send)
            (fun _ => bind (executeCommand (TrimSpace (currentInput s)))
               (fun _ => bind (showPrompt (mkShellSession EmptyString (prompt s)))
                  (fun _ => ret (mkShellSession EmptyString (prompt s))))))).
  apply oblivious_bind; [apply oblivious_output | intros _].
  apply oblivious_bind; [apply oblivious_executeCommand | intros _].
  apply oblivious_bind; [apply oblivious_output | intros _].
  apply oblivious_ret.
Qed.

Lemma oblivious_HandleInput s input : oblivious (HandleInput s input).
Proof.
  unfold HandleInput, handleBackspace.
  repeat case_match;
    auto using oblivious_ret, oblivious_processCommand;
    (apply oblivious_bind; [apply oblivious_output | intros _; apply oblivious_ret]).
Qed.

Lemma oblivious_report {A} text (a : A) :
  oblivious (bind (NewSystemMessage text)
               (fun errMsg => bind (send errMsg) (fun _ => ret a))).
Proof.
  apply oblivious_bind; [apply oblivious_NewMessage | intros m].
  apply oblivious_bind; [apply oblivious_send | intros _; apply oblivious_ret].
Qed.

Lemma oblivious_serve_frame shell p : oblivious (HandlerDeps.serve_frame shell p).
Proof.
  unfold HandlerDeps.serve_frame. destruct (ParseMessage p) as [msg [e|]].
  - apply oblivious_bind; [apply oblivious_emit | intros _; apply oblivious_report].
  - destruct (String.eqb (Type_ msg) MessageTypeTerminalInput);
      [apply oblivious_HandleInput|].
    destruct (String.eqb (Type_ msg) MessageTypeRequestPrompt).
    + apply oblivious_bind; [apply oblivious_output | intros _; apply oblivious_ret].
    + apply oblivious_bind; [apply oblivious_emit | intros _; apply oblivious_ret].
Qed.

Lemma oblivious_serve frames : forall shell, oblivious (HandlerDeps.serve shell frames).
Proof.
  induction frames as [|p rest IH]; intros shell; cbn [HandlerDeps.serve].
  - apply oblivious_bind; [apply oblivious_emit | intros _; apply oblivious_ret].
  - apply oblivious_bind; [apply oblivious_serve_frame | apply IH].
Qed.

Lemma oblivious_HandleWs upgraded frames :
  oblivious (HandlerDeps.HandleWs upgraded frames).
Proof.
  unfold HandlerDeps.HandleWs. destruct (negb upgraded); [apply oblivious_emit|].
  apply oblivious_bind; [apply oblivious_emit | intros _].
  apply oblivious_bind.
  { unfold NewShellSession.
    apply oblivious_bind; [apply oblivious_emit | intros _; apply oblivious_ret]. }
  intros shell.
  apply oblivious_bind; [apply oblivious_NewMessage | intros m].
  apply oblivious_bind; [apply oblivious_send | intros _].
  apply oblivious_bind; [apply oblivious_emit | intros _].
  apply oblivious_bind; [apply oblivious_serve | intros _; apply oblivious_ret].
Qed.

(** X22.  The handler of the simulated shell never looks at the result
    of a write: what it logs and writes for a connection, frame by
    frame, is the same whether its writes succeed or fail, so a
    connection whose writes all fail is served until the read error. *)
Theorem failed_writes_go_unnoticed
    (upgraded : bool) (frames : list string) (f : nat -> bool) (w : World) :
  trace (snd (HandlerDeps.HandleWs upgraded frames (with_write_fails f w))) =
  trace (snd (HandlerDeps.HandleWs upgraded frames w)).
Proof.
  apply (oblivious_HandleWs upgraded frames (with_write_fails f w) w).
  repeat split.
Qed.

(** ** The end of a connection *)

(** X23.  [HandlerDeps.HandleWs] never closes the connection: whether
    the upgrade failed or the loop ended with a read error, no event it
    adds is a close (the handler of [websocket.go] defers one). *)
Theorem simulated_shell_handler_never_closes
    (upgraded : bool) (frames : list string) (w : World) :
  exists n es,
    snd (HandlerDeps.HandleWs upgraded frames w) = advance n es w /\
    ~ In EvClose es.
Proof.
  destruct upgraded.
  - destruct (HandlerDeps_HandleWs_trace frames w) as (n & es & Hw & Hes).
    eexists _, _. split; [exact Hw|].
    intros Hin. cbn [List.app In] in Hin.
    destruct Hin as [Hin|[Hin|Hin]]; try discriminate.
    apply in_app_or in Hin as [Hin|Hin].
    + rewrite forallb_forall in Hes. apply Hes in Hin. discriminate.
    + cbn [In] in Hin. destruct Hin as [Hin|[]]. discriminate.
  - exists 0%nat, [EvLog LogUpgradeError]. split.
    + unfold HandlerDeps.HandleWs. cbn [negb]. now rewrite log_eq.
    + cbn [In]. intros [H|[]]. discriminate.
Qed.

(** ** The greeting *)

Lemma HandleWs_starts frames w :
  (exists n es,
      snd (Connection.HandleWs true frames w) =
        advance n ([EvLog LogNewConnection; EvNewShell] ++ greeting w ++ es) w) /\
  (exists n es,
      snd (HandlerDeps.HandleWs true frames w) =
        advance n ([EvLog LogNewConnection; EvNewShell] ++ greeting w ++ es) w).
Proof.
  split.
  - unfold Connection.HandleWs. cbn [negb].
    unfold bind at 1. rewrite log_eq.
    unfold bind at 1. unfold NewShellConnection, bind at 1.
    rewrite emit_eq. unfold ret. rewrite advance_advance.
    unfold bind at 1. unfold NewConnectionStateMessage.
    rewrite NewMessage_eq, advance_advance.
    unfold bind at 1. rewrite send_eq, advance_advance.
    unfold bind at 1. rewrite log_eq, advance_advance.
    unfold bind.
    match goal with
    | |- context [Connection.serve ?sh frames ?w1] =>
        destruct (Connection_serve_trace frames sh w1) as (n & es & Hw & Hes);
        destruct (Connection.serve sh frames w1) as [sh' w2]
    end.
    simpl in Hw. subst w2. rewrite emit_eq, advance_advance.
    eexists _, ([EvLog LogShellStarted] ++ es ++ [EvLog LogReadError; EvClose]).
    cbn [snd Timestamp]. rewrite advance_advance.
    replace (ticks w + 0)%nat with (ticks w) by lia. fold (greeting w).
    f_equal. cbn [List.app]. rewrite <- !app_assoc. reflexivity.
  - unfold HandlerDeps.HandleWs. cbn [negb].
    unfold bind at 1. rewrite log_eq.
    unfold bind at 1. unfold NewShellSession, bind at 1.
    rewrite emit_eq. unfold ret. rewrite advance_advance.
    unfold bind at 1. unfold NewConnectionStateMessage.
    rewrite NewMessage_eq, advance_advance.
    unfold bind at 1. rewrite send_eq, advance_advance.
    unfold bind at 1. rewrite log_eq, advance_advance.
    unfold bind.
    match goal with
    | |- context [HandlerDeps.serve ?sh frames ?w1] =>
        destruct (HandlerDeps_serve_trace frames sh w1) as (n & es & Hw & Hes);
        destruct (HandlerDeps.serve sh frames w1) as [sh' w2]
    end.
    simpl in Hw. subst w2.
    eexists _, ([EvLog LogShellStarted] ++ es ++ [EvLog LogReadError]).
    cbn [snd Timestamp]. rewrite advance_advance.
    replace (ticks w + 0)%nat with (ticks w) by lia. fold (greeting w).
    f_equal. cbn [List.app]. rewrite <- !app_assoc. reflexivity.
Qed.

Lemma writes_app a b : writes (a ++ b) = writes a ++ writes b.
Proof. unfold writes. apply omap_app. Qed.

(** X24.  The greeting comes first: on an upgraded connection whose
    clock reads a time RFC 3339 can write, the first frame either
    handler writes is the [connection_state] message that announces the
    connection, before any frame of the client is answered. *)
Theorem greeting_is_the_first_frame (frames : list string) (w : World) :
  Time.marshalable (clock w (ticks w)) = true ->
  let hello :=
    frame_of (mkMessage MessageTypeConnectionState
                (marshal_ConnectionStateMessage
                   (mkConnectionStateMessage ConnectionStateConnected
                      "WebSocket connection established"))
                (clock w (ticks w)) None) in
  (exists rest,
      writes (trace (snd (Connection.HandleWs true frames w))) =
      writes (trace w) ++ hello :: rest) /\
  (exists rest,
      writes (trace (snd (HandlerDeps.HandleWs true frames w))) =
      writes (trace w) ++ hello :: rest).
Proof.
  intros Hm hello.
  destruct (HandleWs_starts frames w) as [(n1 & es1 & H1) (n2 & es2 & H2)].
  rewrite H1, H2, !trace_advance, !writes_app.
  unfold greeting. rewrite Hm. cbn [writes omap List.app].
  split; eexists; reflexivity.
Qed.

Lemma greeting_is_the_first_frame_witness :
  Time.marshalable (clock w0 (ticks w0)) = true /\
  exists rest,
    writes (trace (snd (HandlerDeps.HandleWs true [input_x_frame] w0))) =
    js "{'type':'connection_state','data':'{\'state\':\'connected\',\'message\':\'WebSocket connection established\'}','timestamp':'2025-08-12T14:00:00Z'}"
    :: rest.
Proof.
  split; [reflexivity|].
  destruct (greeting_is_the_first_frame [input_x_frame] w0 eq_refl)
    as [_ (rest & Hrest)].
  exists rest. rewrite Hrest. reflexivity.
Defined.

(** ** Output for SSH *)

(** X25.  [NewSSHTerminalOutput] is [NewTerminalOutput] with the three
    SSH fields filled in: type, payload, timestamp, command, exit code
    and the ANSI flag are those of [NewTerminalOutput], and the clock is
    read once. *)
Theorem NewSSHTerminalOutput_extends_NewTerminalOutput
    (output command : string) (exitCode : option Z)
    (sshHost sshUser sessionID : string) (w : World) :
  let plain := fst (NewTerminalOutput output command exitCode w) in
  NewSSHTerminalOutput output command exitCode sshHost sshUser sessionID w =
  (mkMessage (Type_ plain) (Data plain) (Timestamp plain)
     (Some (mkMetadata (containsAnsiCodes output) exitCode command
              sshHost sshUser sessionID)),
   snd (NewTerminalOutput output command exitCode w)).
Proof.
  intros plain. subst plain. unfold NewSSHTerminalOutput, bind.
  rewrite NewTerminalOutput_eq. reflexivity.
Qed.

End HandlerProps.

(** * Further properties: what [Validate] lets through *)

Module ValidateProps.
Import Handler Config ConfigValidate StartupFacts StartupExamples.
Import Decimal DecimalFacts.

(** X26.  [Validate] puts no upper bound on the port: with time-outs and
    a number of connections above zero and a frontend directory that
    exists, every positive port number in the range of [int] passes,
    also those above 65535. *)
Theorem any_positive_port_passes
    (Join : list string -> string) (fs : FileSystem)
    (n : Z) (dir : string) (rt wt : Duration) (mc rb wb : Z) :
  0 < n -> is_int n = true ->
  0 < rt -> 0 < wt -> 0 < mc ->
  IsAbs dir = true -> not_exist fs dir = false ->
  Validate Join fs (mkServer (Strconv.Itoa n) dir rt wt mc rb wb) =
  Returns (mkServer (Strconv.Itoa n) dir rt wt mc rb wb, None).
Proof.
  intros Hn Hint Hrt Hwt Hmc Habs Hdir. unfold Validate.
  cbn [Port ReadTimeout WriteTimeout MaxConnections FrontendDir].
  rewrite Atoi_Itoa by assumption.
  replace (n <=? 0) with false by lia.
  replace (rt <=? 0) with false by lia.
  replace (wt <=? 0) with false by lia.
  replace (mc <=? 0) with false by lia.
  assert (Hne : String.eqb dir EmptyString = false).
  { destruct dir; [discriminate Habs | reflexivity]. }
  rewrite Hne. unfold Build. now rewrite Habs, Hdir.
Qed.

Lemma any_positive_port_passes_witness :
  0 < 70000 /\ is_int 70000 = true /\
  Validate join_raw plentiful
    (mkServer "70000" "/srv/www" (30 * Second) (30 * Second) 100 1024 1024) =
  Returns (mkServer "70000" "/srv/www" (30 * Second) (30 * Second) 100 1024 1024,
           None).
Proof.
  assert (H0 : 0 < 70000) by lia.
  assert (H1 : 0 < 30 * Second) by reflexivity.
  assert (H2 : 0 < 100) by lia.
  split; [exact H0|]. split; [reflexivity|].
  exact (any_positive_port_passes join_raw plentiful 70000 "/srv/www"
           (30 * Second) (30 * Second) 100 1024 1024
           H0 eq_refl H1 H1 H2 eq_refl eq_refl).
Defined.

(** X27.  A frontend directory that is missing is never reported:
    [Validate] returns the directory error for the empty name only, and
    when the numbers are in order and the path [Build] looks up (the
    directory itself, or the directory beside the working directory) is
    not on disk, the process ends inside [Build], so [server.New] does
    not come back and the defaults are not applied. *)
Theorem missing_directory_ends_the_process
    (Join : list string -> string) (fs : FileSystem) (cfg : Server) :
  (forall cfg', Validate Join fs cfg = Returns (cfg', Some ErrInvalidDir) ->
                FrontendDir cfg = EmptyString) /\
  (forall path,
      (exists port, Strconv.Atoi (Port cfg) = Some port /\ 0 < port) ->
      0 < ReadTimeout cfg -> 0 < WriteTimeout cfg -> 0 < MaxConnections cfg ->
      FrontendDir cfg <> EmptyString ->
      stat_path Join fs (FrontendDir cfg) = Some path ->
      not_exist fs path = true ->
      Validate Join fs cfg = Exits /\ Server.New Join fs cfg = Exits).
Proof.
  split.
  - intros cfg' H. unfold Validate in H.
    repeat case_match; simplify_eq; try reflexivity.
    + now apply String.eqb_eq.
    + exfalso. eapply Build_no_error. eassumption.
  - intros path (port & Hp & Hpos) Hrt Hwt Hmc Hdir Hpath Hfs.
    assert (Hv : Validate Join fs cfg = Exits).
    { unfold Validate. rewrite Hp.
      replace (port <=? 0) with false by lia.
      replace (ReadTimeout cfg <=? 0) with false by lia.
      replace (WriteTimeout cfg <=? 0) with false by lia.
      replace (MaxConnections cfg <=? 0) with false by lia.
      destruct (String.eqb_spec (FrontendDir cfg) EmptyString); [contradiction|].
      unfold Build. unfold stat_path in Hpath.
      destruct (IsAbs _).
      - injection Hpath as ->. now rewrite Hfs.
      - destruct (Getwd fs) as [wd|]; [|discriminate].
        injection Hpath as ->. now rewrite Hfs. }
    split; [exact Hv|]. unfold Server.New. now rewrite Hv.
Qed.

Lemma missing_directory_ends_the_process_witness :
  (exists port, Strconv.Atoi "3000" = Some port /\ 0 < port) /\
  not_exist backend_only "/srv/web-ssh/backend" = false /\
  stat_path join_raw backend_only "frontend" =
    Some "/srv/web-ssh/backend/../frontend"%string /\
  not_exist backend_only "/srv/web-ssh/backend/../frontend" = true /\
  Server.New join_raw backend_only
    (mkServer "3000" "frontend" (30 * Second) (30 * Second) 100 1024 1024) =
  Exits.
Proof.
  assert (Hp : exists port, Strconv.Atoi "3000" = Some port /\ 0 < port)
    by (exists 3000; split; reflexivity).
  assert (H1 : 0 < 30 * Second) by reflexivity.
  assert (H2 : 0 < 100) by lia.
  assert (Hd : "frontend"%string <> EmptyString) by discriminate.
  split; [exact Hp|]. split; [reflexivity|]. split; [reflexivity|].
  split; [reflexivity|].
  exact (proj2 (proj2 (missing_directory_ends_the_process join_raw backend_only
           (mkServer "3000" "frontend" (30 * Second) (30 * Second) 100 1024 1024))
           "/srv/web-ssh/backend/../frontend"%string
           Hp H1 H1 H2 Hd eq_refl eq_refl)).
Defined.

End ValidateProps.

(** * Further properties: input the shell does not act on *)

Module InputProps.
Import Handler Spec ShellRuns Examples.
Import WorldFacts HandlerFacts ShellFacts ShellProps.

(** X28.  Any input other than a single printable byte, Enter (CR or
    LF) or DEL is dropped without a trace: the empty input, control
    bytes such as backspace (0x08) and Ctrl+C, bytes above 126, and
    every input of more than one byte, such as pasted text, a CR LF
    pair or a character outside ASCII. *)
Theorem other_input_is_dropped
    (input : string) (s : ShellSession) (w : World) :
  input <> str1 CR -> input <> str1 LF -> input <> str1 DEL ->
  (forall c, input = str1 c -> printable c = false) ->
  HandleInput s input w = (s, w).
Proof.
  intros Hcr Hlf Hdel Hp.
  destruct input as [|c [|d r]];
    [reflexivity | | apply HandleInput_long].
  unfold HandleInput, str1. cbn [String.eqb].
  destruct (Ascii.eqb_spec c CR) as [->|_]; [now elim Hcr|].
  destruct (Ascii.eqb_spec c LF) as [->|_]; [now elim Hlf|].
  destruct (Ascii.eqb_spec c DEL) as [->|_]; [now elim Hdel|].
  cbn [andb orb]. now rewrite (Hp c eq_refl).
Qed.

Lemma other_input_is_dropped_witness :
  HandleInput (mkShellSession "ec" "$ ") "ho hi" w0 =
    (mkShellSession "ec" "$ ", w0) /\
  HandleInput (mkShellSession "ec" "$ ") (str1 BS) w0 =
    (mkShellSession "ec" "$ ", w0).
Proof.
  split.
  - apply other_input_is_dropped; discriminate.
  - apply other_input_is_dropped; try discriminate.
    intros c H. injection H as <-. reflexivity.
Defined.

(** X29.  Enter on an empty or blank line runs no command: the shell
    answers with the line end and the prompt, two frames, and the
    buffer is empty afterwards. *)
Theorem blank_line_gives_only_a_prompt
    (blanks p : string) (w : World) :
  all asciiSpace blanks = true ->
  processCommand (mkShellSession blanks p) w =
  (mkShellSession EmptyString p,
   advance 2 (stamped (clock w) (ticks w) [bare CRLF; bare p]) w).
Proof.
  intros Hb. rewrite processCommand_unfold. cbn [currentInput prompt].
  assert (Ht : TrimSpace blanks = EmptyString).
  { rewrite <- (sapp_nil_r blanks).
    change (blanks +:+ EmptyString) with (blanks +:+ EmptyString +:+ EmptyString).
    now rewrite TrimSpace_blanks. }
  rewrite Ht. cbv zeta.
  change (executeCommand EmptyString) with (@ret unit tt). unfold ret.
  rewrite !advance_advance, !clock_advance, !ticks_advance.
  cbn [stamped bare List.app]. rewrite app_nil_r.
  replace (ticks w + 1)%nat with (S (ticks w)) by lia.
  reflexivity.
Qed.

Lemma blank_line_gives_only_a_prompt_witness :
  all asciiSpace "   " = true /\
  writes (trace (snd (processCommand (mkShellSession "   " "$ ") w0))) =
    [js "{'type':'terminal_output','data':'\r\n','timestamp':'2025-08-12T14:00:00Z','metadata':{}}";
     js "{'type':'terminal_output','data':'$ ','timestamp':'2025-08-12T14:00:00Z','metadata':{}}"].
Proof.
  split; [reflexivity|].
  rewrite (blank_line_gives_only_a_prompt "   " "$ " w0 eq_refl).
  vm_compute. reflexivity.
Defined.

End InputProps.

(** * Further properties: terminal input is not filtered *)

Module DispatchProps.
Import Handler Spec Examples.
Import WorldFacts HandlerFacts LoopFacts.

Lemma prefix_cons_inv c a f :
  String.prefix (String c a) f = true ->
  exists f', f = String c f' /\ String.prefix a f' = true.
Proof.
  destruct f as [|d f']; [discriminate|]. simpl.
  destruct (ascii_dec c d) as [->|]; [eauto | discriminate].
Qed.

(** A frame that opens as terminal output does not open as a terminal
    error. *)
Lemma output_is_not_error f :
  frame_has_type MessageTypeTerminalOutput f = true ->
  frame_has_type MessageTypeTerminalError f = false.
Proof.
  unfold frame_has_type. intros H.
  repeat match type of H with
         | String.prefix (String _ _) _ = true =>
             apply prefix_cons_inv in H as (? & -> & H)
         | String.prefix ?a _ = true =>
             let a' := eval vm_compute in a in
             change a with a' in H
         end.
  reflexivity.
Qed.

(** X30.  No filter stands between a frame and the shell.  The handler
    in front of the simulated shell hands the payload of every frame
    that decodes to a [terminal_input] message to [HandleInput], whatever
    the payload is, and everything [HandleInput] then writes is a frame
    of terminal output, never a terminal error; [Connection.HandleWs]
    has no case for terminal input and only logs the message. *)
Theorem terminal_input_unfiltered
    (p : string) (msg : Message) (w : World)
    (sim : ShellSession) (conn : ShellConnection) :
  ParseMessage p = (msg, None) ->
  Type_ msg = MessageTypeTerminalInput ->
  HandlerDeps.serve_frame sim p w = HandleInput sim (Data msg) w /\
  grows output_only (HandleInput sim (Data msg)) /\
  (forall f, output_only (EvWrite f) = true ->
             frame_has_type MessageTypeTerminalError f = false) /\
  Connection.serve_frame conn p w =
    (conn, advance 0 [EvLog (LogUnhandled MessageTypeTerminalInput)] w).
Proof.
  intros Hp Ht. split; [|split; [|split]].
  - now apply HandlerDeps_serve_frame_input.
  - apply grows_HandleInput. intros f Hf. exact Hf.
  - intros f Hf. now apply output_is_not_error.
  - rewrite <- Ht. apply Connection_serve_frame_unhandled; [assumption|].
    rewrite Ht. discriminate.
Qed.

Lemma terminal_input_unfiltered_witness :
  ParseMessage input_x_frame =
    (mkMessage MessageTypeTerminalInput "x" t0 None, None) /\
  HandlerDeps.serve_frame fresh input_x_frame w0 = HandleInput fresh "x" w0 /\
  Connection.serve_frame idle input_x_frame w0 =
    (idle, advance 0 [EvLog (LogUnhandled MessageTypeTerminalInput)] w0).
Proof.
  split; [reflexivity|].
  destruct (terminal_input_unfiltered input_x_frame
              (mkMessage MessageTypeTerminalInput "x" t0 None) w0 fresh idle
              eq_refl eq_refl) as (H1 & _ & _ & H2).
  split; [exact H1 | exact H2].
Defined.

End DispatchProps.
